(** * USB (low-/full-speed) signalling decoder: a shallow embedding of
      [decoders/usb_signalling/pd.py] and the properties of its state machine.

    Python values are modelled as the code has them:
    - [int] is [Z]; [float] is a binary64 primitive float, so every sum,
      difference, quotient and comparison rounds exactly as in CPython;
    - an attribute that [__init__] sets to [None] is an [option];
    - the strings naming modes, states and symbols are enumerations, the
      accumulated bit history stays a [string];
    - a raised exception is the [Raise] branch of [Res];
    - [self.put(...)] appends to the [log] of the decoder. *)

From Stdlib Require Import ZArith QArith Qround Qpower List Bool String Ascii Lia.
From Stdlib Require Import Floats.PrimFloat Floats.SpecFloat Floats.FloatOps.
From Stdlib Require Floats.FloatAxioms Numbers.Cyclic.Int63.Uint63.
Import ListNotations.

Set Warnings "-inexact-float".
Local Open Scope Z_scope.

(** ** Exceptions and the error monad *)

Inductive Exn : Type :=
| SamplerateError   (* raised by [decode] itself *)
| StopIteration     (* [next(data)] on an exhausted iterator *)
| TypeError         (* arithmetic, [float()], [int()], [len()] or [put] on [None] *)
| AttributeError    (* [self.signalling] read before [metadata] created it *)
| KeyError          (* a dict lookup that misses *)
| ZeroDivisionError
| OverflowError     (* [float(n)] for a huge [n], [int(inf)] *)
| ValueError.       (* [int(nan)] *)

(** The outcome of a method: the decoder (or value) it leaves, or the
    exception that ends the call. *)
Inductive Res (A : Type) : Type :=
| Ok (a : A)
| Raise (e : Exn).
Arguments Ok {A} a.
Arguments Raise {A} e.

Definition bind {A B : Type} (r : Res A) (k : A -> Res B) : Res B :=
  match r with
  | Ok a => k a
  | Raise e => Raise e
  end.

Notation "x <- c1 ;; c2" := (bind c1 (fun x => c2))
  (at level 61, c1 at next level, right associativity).

(** [x] where Python needs a value that may still be [None]. *)
Definition need {A : Type} (o : option A) : Res A :=
  match o with
  | Some a => Ok a
  | None => Raise TypeError
  end.

(** ** Python numbers *)

(** [float(n)] for an [int]: correctly rounded, [OverflowError] beyond the
    binary64 range. *)
Definition float_of_int (n : Z) : Res float :=
  match binary_normalize prec emax n 0 false with
  | S754_infinity _ => Raise OverflowError
  | sf => Ok (SF2Prim sf)
  end.

(** [int(x)] for a [float]: truncation toward zero. *)
Definition int_of_float (x : float) : Res Z :=
  match Prim2SF x with
  | S754_zero _ => Ok 0
  | S754_infinity _ => Raise OverflowError
  | S754_nan => Raise ValueError
  | S754_finite s m e =>
      let a := match e with
               | Z0 => Zpos m
               | Zpos p => Zpos m * 2 ^ Zpos p
               | Zneg p => Zpos m / 2 ^ Zpos p
               end in
      Ok (if s then - a else a)
  end.

(** [x / y] on floats: Python raises where IEEE would give inf or nan. *)
Definition float_div (x y : float) : Res float :=
  if PrimFloat.eqb y 0%float then Raise ZeroDivisionError
  else Ok (PrimFloat.div x y).

(** ** Symbols, modes and the module-level tables *)

Inductive Sym : Type := J | K | SE0 | SE1 | FS_J | LS_J.

Inductive Mode : Type := LowSpeed | FullSpeed | Automatic | LowSpeedRP.

(** The values the framework accepts for the [signalling] option. *)
Inductive SigOption : Type := OptAutomatic | OptFullSpeed | OptLowSpeed.

Definition mode_of_option (o : SigOption) : Mode :=
  match o with
  | OptAutomatic => Automatic
  | OptFullSpeed => FullSpeed
  | OptLowSpeed => LowSpeed
  end.

Definition Sym_eqb (a b : Sym) : bool :=
  match a, b with
  | J, J | K, K | SE0, SE0 | SE1, SE1 | FS_J, FS_J | LS_J, LS_J => true
  | _, _ => false
  end.

Definition Mode_eqb (a b : Mode) : bool :=
  match a, b with
  | LowSpeed, LowSpeed | FullSpeed, FullSpeed
  | Automatic, Automatic | LowSpeedRP, LowSpeedRP => true
  | _, _ => false
  end.

(** The levels of (D+, D-) of one sample. *)
Definition Pins : Type := (Z * Z)%type.

Definition Pins_eqb (p q : Pins) : bool :=
  (fst p =? fst q) && (snd p =? snd q).

(** A dict keyed by pin pairs, in the order of the literal. *)
Definition Table : Type := list (Pins * Sym).

Fixpoint lookup (t : Table) (p : Pins) : option Sym :=
  match t with
  | [] => None
  | (k, v) :: t' => if Pins_eqb k p then Some v else lookup t' p
  end.

Definition symbols (m : Mode) : Table :=
  match m with
  | LowSpeed   => [((0, 0), SE0); ((1, 0), K);    ((0, 1), J);    ((1, 1), SE1)]
  | FullSpeed  => [((0, 0), SE0); ((1, 0), J);    ((0, 1), K);    ((1, 1), SE1)]
  | Automatic  => [((0, 0), SE0); ((1, 0), FS_J); ((0, 1), LS_J); ((1, 1), SE1)]
  | LowSpeedRP => [((0, 0), SE0); ((1, 0), J);    ((0, 1), K);    ((1, 1), SE1)]
  end.

(** [symbols[mode][tuple(pins)]] *)
Definition classify (m : Mode) (p : Pins) : Res Sym :=
  match lookup (symbols m) p with
  | Some s => Ok s
  | None => Raise KeyError
  end.

Definition bitrates (m : Mode) : option Z :=
  match m with
  | LowSpeed => Some 1500000
  | LowSpeedRP => Some 1500000
  | FullSpeed => Some 12000000
  | Automatic => None
  end.

(** [sym_annotation[sym]]: only the four bus symbols are keys. *)
Definition sym_annotation (s : Sym) : Res (Z * list string) :=
  match s with
  | J => Ok (0, ["J"%string])
  | K => Ok (1, ["K"%string])
  | SE0 => Ok (2, ["SE0"%string; "0"%string])
  | SE1 => Ok (3, ["SE1"%string; "1"%string])
  | FS_J | LS_J => Raise KeyError
  end.

(** ** Output *)

(** The payload of an OUTPUT_PYTHON packet, [<ptype>, <pdata>]. *)
Inductive Packet : Type :=
| SOP
| SYM (s : Sym)
| BIT (b : string)
| STUFF_BIT
| EOP
| ERR
| KEEP_ALIVE
| RESET.

(** One call of [self.put(ss, es, output, data)]. *)
Inductive Output : Type :=
| Py (ss es : Z) (p : Packet)
| Ann (ss es : Z) (cls : Z) (texts : list string).

(** ** The decoder object *)

Inductive State : Type := INIT | IDLE | WAIT_IDLE | GET_BIT | GET_EOP.

Definition Sample : Type := (Z * Pins)%type.

Record Decoder : Type := mkDecoder {
  options_signalling : SigOption;      (* self.options['signalling'] *)
  samplerate : option Z;
  signalling : option Mode;            (* None: attribute not yet created *)
  oldsym : Sym;
  ss_block : option Z;
  samplenum : Z;
  bitrate : option Z;
  bitwidth : option float;
  samplepos : option float;
  samplenum_target : option Z;
  samplenum_edge : option Z;
  samplenum_lastedge : option Z;
  oldpins : option Pins;
  edgepins : option Pins;
  consecutive_ones : Z;
  bits : option string;
  state : State;
  lookahead_buffer : list Sample;
  log : list Output                    (* what [put] has delivered, in order *)
}.

(** Attribute assignment, [self.f = v]. *)

Definition set_samplerate (v : option Z) (d : Decoder) : Decoder :=
  mkDecoder (options_signalling d) v (signalling d) (oldsym d) (ss_block d)
    (samplenum d) (bitrate d) (bitwidth d) (samplepos d) (samplenum_target d)
    (samplenum_edge d) (samplenum_lastedge d) (oldpins d) (edgepins d)
    (consecutive_ones d) (bits d) (state d) (lookahead_buffer d) (log d).

Definition set_signalling (v : option Mode) (d : Decoder) : Decoder :=
  mkDecoder (options_signalling d) (samplerate d) v (oldsym d) (ss_block d)
    (samplenum d) (bitrate d) (bitwidth d) (samplepos d) (samplenum_target d)
    (samplenum_edge d) (samplenum_lastedge d) (oldpins d) (edgepins d)
    (consecutive_ones d) (bits d) (state d) (lookahead_buffer d) (log d).

Definition set_oldsym (v : Sym) (d : Decoder) : Decoder :=
  mkDecoder (options_signalling d) (samplerate d) (signalling d) v
    (ss_block d) (samplenum d) (bitrate d) (bitwidth d) (samplepos d)
    (samplenum_target d) (samplenum_edge d) (samplenum_lastedge d) (oldpins d)
    (edgepins d) (consecutive_ones d) (bits d) (state d) (lookahead_buffer d)
    (log d).

Definition set_ss_block (v : option Z) (d : Decoder) : Decoder :=
  mkDecoder (options_signalling d) (samplerate d) (signalling d) (oldsym d) v
    (samplenum d) (bitrate d) (bitwidth d) (samplepos d) (samplenum_target d)
    (samplenum_edge d) (samplenum_lastedge d) (oldpins d) (edgepins d)
    (consecutive_ones d) (bits d) (state d) (lookahead_buffer d) (log d).

Definition set_samplenum (v : Z) (d : Decoder) : Decoder :=
  mkDecoder (options_signalling d) (samplerate d) (signalling d) (oldsym d)
    (ss_block d) v (bitrate d) (bitwidth d) (samplepos d) (samplenum_target d)
    (samplenum_edge d) (samplenum_lastedge d) (oldpins d) (edgepins d)
    (consecutive_ones d) (bits d) (state d) (lookahead_buffer d) (log d).

Definition set_bitrate (v : option Z) (d : Decoder) : Decoder :=
  mkDecoder (options_signalling d) (samplerate d) (signalling d) (oldsym d)
    (ss_block d) (samplenum d) v (bitwidth d) (samplepos d)
    (samplenum_target d) (samplenum_edge d) (samplenum_lastedge d) (oldpins d)
    (edgepins d) (consecutive_ones d) (bits d) (state d) (lookahead_buffer d)
    (log d).

Definition set_bitwidth (v : option float) (d : Decoder) : Decoder :=
  mkDecoder (options_signalling d) (samplerate d) (signalling d) (oldsym d)
    (ss_block d) (samplenum d) (bitrate d) v (samplepos d)
    (samplenum_target d) (samplenum_edge d) (samplenum_lastedge d) (oldpins d)
    (edgepins d) (consecutive_ones d) (bits d) (state d) (lookahead_buffer d)
    (log d).

Definition set_samplepos (v : option float) (d : Decoder) : Decoder :=
  mkDecoder (options_signalling d) (samplerate d) (signalling d) (oldsym d)
    (ss_block d) (samplenum d) (bitrate d) (bitwidth d) v (samplenum_target d)
    (samplenum_edge d) (samplenum_lastedge d) (oldpins d) (edgepins d)
    (consecutive_ones d) (bits d) (state d) (lookahead_buffer d) (log d).

Definition set_samplenum_target (v : option Z) (d : Decoder) : Decoder :=
  mkDecoder (options_signalling d) (samplerate d) (signalling d) (oldsym d)
    (ss_block d) (samplenum d) (bitrate d) (bitwidth d) (samplepos d) v
    (samplenum_edge d) (samplenum_lastedge d) (oldpins d) (edgepins d)
    (consecutive_ones d) (bits d) (state d) (lookahead_buffer d) (log d).

Definition set_samplenum_edge (v : option Z) (d : Decoder) : Decoder :=
  mkDecoder (options_signalling d) (samplerate d) (signalling d) (oldsym d)
    (ss_block d) (samplenum d) (bitrate d) (bitwidth d) (samplepos d)
    (samplenum_target d) v (samplenum_lastedge d) (oldpins d) (edgepins d)
    (consecutive_ones d) (bits d) (state d) (lookahead_buffer d) (log d).

Definition set_samplenum_lastedge (v : option Z) (d : Decoder) : Decoder :=
  mkDecoder (options_signalling d) (samplerate d) (signalling d) (oldsym d)
    (ss_block d) (samplenum d) (bitrate d) (bitwidth d) (samplepos d)
    (samplenum_target d) (samplenum_edge d) v (oldpins d) (edgepins d)
    (consecutive_ones d) (bits d) (state d) (lookahead_buffer d) (log d).

Definition set_oldpins (v : option Pins) (d : Decoder) : Decoder :=
  mkDecoder (options_signalling d) (samplerate d) (signalling d) (oldsym d)
    (ss_block d) (samplenum d) (bitrate d) (bitwidth d) (samplepos d)
    (samplenum_target d) (samplenum_edge d) (samplenum_lastedge d) v
    (edgepins d) (consecutive_ones d) (bits d) (state d) (lookahead_buffer d)
    (log d).

Definition set_edgepins (v : option Pins) (d : Decoder) : Decoder :=
  mkDecoder (options_signalling d) (samplerate d) (signalling d) (oldsym d)
    (ss_block d) (samplenum d) (bitrate d) (bitwidth d) (samplepos d)
    (samplenum_target d) (samplenum_edge d) (samplenum_lastedge d) (oldpins d)
    v (consecutive_ones d) (bits d) (state d) (lookahead_buffer d) (log d).

Definition set_consecutive_ones (v : Z) (d : Decoder) : Decoder :=
  mkDecoder (options_signalling d) (samplerate d) (signalling d) (oldsym d)
    (ss_block d) (samplenum d) (bitrate d) (bitwidth d) (samplepos d)
    (samplenum_target d) (samplenum_edge d) (samplenum_lastedge d) (oldpins d)
    (edgepins d) v (bits d) (state d) (lookahead_buffer d) (log d).

Definition set_bits (v : option string) (d : Decoder) : Decoder :=
  mkDecoder (options_signalling d) (samplerate d) (signalling d) (oldsym d)
    (ss_block d) (samplenum d) (bitrate d) (bitwidth d) (samplepos d)
    (samplenum_target d) (samplenum_edge d) (samplenum_lastedge d) (oldpins d)
    (edgepins d) (consecutive_ones d) v (state d) (lookahead_buffer d) (log d).

Definition set_state (v : State) (d : Decoder) : Decoder :=
  mkDecoder (options_signalling d) (samplerate d) (signalling d) (oldsym d)
    (ss_block d) (samplenum d) (bitrate d) (bitwidth d) (samplepos d)
    (samplenum_target d) (samplenum_edge d) (samplenum_lastedge d) (oldpins d)
    (edgepins d) (consecutive_ones d) (bits d) v (lookahead_buffer d) (log d).

Definition set_lookahead_buffer (v : list Sample) (d : Decoder) : Decoder :=
  mkDecoder (options_signalling d) (samplerate d) (signalling d) (oldsym d)
    (ss_block d) (samplenum d) (bitrate d) (bitwidth d) (samplepos d)
    (samplenum_target d) (samplenum_edge d) (samplenum_lastedge d) (oldpins d)
    (edgepins d) (consecutive_ones d) (bits d) (state d) v (log d).

Definition set_log (v : list Output) (d : Decoder) : Decoder :=
  mkDecoder (options_signalling d) (samplerate d) (signalling d) (oldsym d)
    (ss_block d) (samplenum d) (bitrate d) (bitwidth d) (samplepos d)
    (samplenum_target d) (samplenum_edge d) (samplenum_lastedge d) (oldpins d)
    (edgepins d) (consecutive_ones d) (bits d) (state d) (lookahead_buffer d)
    v.

(** The attribute [self.signalling], which only [metadata] creates. *)
Definition get_signalling (d : Decoder) : Res Mode :=
  match signalling d with
  | Some m => Ok m
  | None => Raise AttributeError
  end.

(** ** [Decoder.__init__], [metadata], [update_bitrate] *)

(** The decoder after [__init__], with the option the framework holds for it;
    [self.signalling] does not exist yet. *)
Definition init (opt : SigOption) : Decoder :=
  {| options_signalling := opt;
     samplerate := None;
     signalling := None;
     oldsym := J;
     ss_block := None;
     samplenum := 0;
     bitrate := None;
     bitwidth := None;
     samplepos := None;
     samplenum_target := None;
     samplenum_edge := None;
     samplenum_lastedge := Some 0;
     oldpins := None;
     edgepins := None;
     consecutive_ones := 0;
     bits := None;
     state := INIT;
     lookahead_buffer := [];
     log := [] |}.

(** [bitrates[self.signalling]] is stored first; [float(None)] raises
    [TypeError] when the rate or the bit rate is missing. *)
Definition update_bitrate (d : Decoder) : Res Decoder :=
  sg <- get_signalling d ;;
  let d := set_bitrate (bitrates sg) d in
  sr <- need (samplerate d) ;;
  fsr <- float_of_int sr ;;
  br <- need (bitrate d) ;;
  fbr <- float_of_int br ;;
  bw <- float_div fsr fbr ;;
  Ok (set_bitwidth (Some bw) d).

(** [metadata(srd.SRD_CONF_SAMPLERATE, value)]; other keys change nothing. *)
Definition metadata (value : Z) (d : Decoder) : Res Decoder :=
  let d := set_samplerate (Some value) d in
  let d := set_signalling (Some (mode_of_option (options_signalling d))) d in
  if Mode_eqb (mode_of_option (options_signalling d)) Automatic then Ok d
  else update_bitrate d.

(** ** The [put*] helpers *)

(** [self.put(ss, es, output, data)] with integer sample numbers: the
    output is delivered. The helpers below raise [TypeError] where the
    framework would, on a sample number that is still [None]. *)
Definition put (o : Output) (d : Decoder) : Decoder :=
  set_log (log d ++ [o]) d.

Definition putpx (p : Packet) (d : Decoder) : Res Decoder :=
  s <- need (samplenum_edge d) ;;
  Ok (put (Py s s p) d).

Definition putx (cls : Z) (texts : list string) (d : Decoder) : Res Decoder :=
  s <- need (samplenum_edge d) ;;
  Ok (put (Ann s s cls texts) d).

Definition putpm (p : Packet) (d : Decoder) : Res Decoder :=
  e <- need (samplenum_edge d) ;;
  s <- need (ss_block d) ;;
  Ok (put (Py s e p) d).

Definition putm (cls : Z) (texts : list string) (d : Decoder) : Res Decoder :=
  e <- need (samplenum_edge d) ;;
  s <- need (ss_block d) ;;
  Ok (put (Ann s e cls texts) d).

Definition putpb (p : Packet) (d : Decoder) : Res Decoder :=
  s <- need (samplenum_lastedge d) ;;
  e <- need (samplenum_edge d) ;;
  Ok (put (Py s e p) d).

Definition putb (cls : Z) (texts : list string) (d : Decoder) : Res Decoder :=
  s <- need (samplenum_lastedge d) ;;
  e <- need (samplenum_edge d) ;;
  Ok (put (Ann s e cls texts) d).

(** ** The timing model *)

(** One bit period forward: the position, the sample at which the next symbol
    is read, and the edges of the bit range. *)
Definition set_new_target_samplenum (d : Decoder) : Res Decoder :=
  pos <- need (samplepos d) ;;
  bw <- need (bitwidth d) ;;
  let pos := (pos + bw)%float in
  let d := set_samplepos (Some pos) d in
  t <- int_of_float pos ;;
  let d := set_samplenum_target (Some t) d in
  let d := set_samplenum_lastedge (samplenum_edge d) d in
  e <- int_of_float (pos - bw / 2)%float ;;
  Ok (set_samplenum_edge (Some e) d).

(** The [for] loop of [samplepos_quality] over the lookahead buffer. *)
Fixpoint quality_loop (sg : option Mode) (bw : float) (buf : list Sample)
    (pos : float) : Res float :=
  match buf with
  | [] => Ok pos
  | (sn, pins) :: rest =>
      t <- int_of_float pos ;;
      if sn <? t then quality_loop sg bw rest pos
      else
        m <- match sg with Some m => Ok m | None => Raise AttributeError end ;;
        s <- classify m pins ;;
        match s with
        | J | K => quality_loop sg bw rest (pos + bw)%float
        | _ => Ok pos
        end
  end.

(** How far a start position gets through the lookahead buffer before it
    meets an SE0 or SE1. *)
Definition samplepos_quality (d : Decoder) (pos : float) : Res float :=
  bw <- need (bitwidth d) ;;
  quality_loop (signalling d) bw (lookahead_buffer d) (pos + bw * 2)%float.

(** ** The handlers of the state machine *)

(** Wait for a start of packet, a J -> K symbol change. *)
Definition wait_for_sop (sym : Sym) (d : Decoder) : Res Decoder :=
  if negb (Sym_eqb sym K) || negb (Sym_eqb (oldsym d) J) then Ok d
  else
    fsn <- float_of_int (samplenum d) ;;
    bw <- need (bitwidth d) ;;
    let pos := (fsn - 0.5 - bw / 2)%float in
    pos <- match edgepins d with
           | None => Ok pos
           | Some ep =>
               sg <- get_signalling d ;;
               s <- classify sg ep ;;
               Ok (if Sym_eqb s J then pos else (pos - 0.5)%float)
           end ;;
    let d := set_samplepos (Some pos) d in
    q0 <- samplepos_quality d pos ;;
    q1 <- samplepos_quality d (pos + 1)%float ;;
    let d := if PrimFloat.ltb q0 q1
             then set_samplepos (Some (pos + 1)%float) d else d in
    let d := set_consecutive_ones 0 d in
    let d := set_bits (Some ""%string) d in
    d <- update_bitrate d ;;
    d <- set_new_target_samplenum d ;;
    d <- putpx SOP d ;;
    d <- putx 4 ["SOP"%string; "S"%string] d ;;
    Ok (set_state GET_BIT d).

(** Bit stuffing: after six ones a '0' is a stuff bit and a '1' an error. *)
Definition handle_bit (b : string) (d : Decoder) : Res Decoder :=
  if consecutive_ones d =? 6 then
    if String.eqb b "0"%string then
      d <- putpb STUFF_BIT d ;;
      d <- putb 7 ["Stuff bit: 0"%string; "SB: 0"%string; "0"%string] d ;;
      Ok (set_consecutive_ones 0 d)
    else
      d <- putpb ERR d ;;
      d <- putb 8 ["Bit stuff error"%string; "BS ERR"%string; "B"%string] d ;;
      Ok (set_state IDLE d)
  else
    d <- putpb (BIT b) d ;;
    d <- putb 6 [b] d ;;
    if String.eqb b "1"%string
    then Ok (set_consecutive_ones (consecutive_ones d + 1) d)
    else Ok (set_consecutive_ones 0 d).

(** EOP: SE0 for at least one bit time, then J. *)
Definition get_eop (sym : Sym) (d : Decoder) : Res Decoder :=
  d <- set_new_target_samplenum d ;;
  d <- putpb (SYM sym) d ;;
  a <- sym_annotation sym ;;
  d <- putb (fst a) (snd a) d ;;
  let d := set_oldsym sym d in
  match sym with
  | SE0 => Ok d
  | J =>
      d <- putpm EOP d ;;
      d <- putm 5 ["EOP"%string; "E"%string] d ;;
      Ok (set_state WAIT_IDLE d)
  | _ =>
      d <- putpm ERR d ;;
      d <- putm 8 ["EOP Error"%string; "EErr"%string; "E"%string] d ;;
      Ok (set_state IDLE d)
  end.

Definition preamble : string := "0000000100111100"%string.

(** One bit of a packet: NRZI decoding, start of an EOP on SE0, bit stuffing,
    and the test for the low-speed PREamble over the first 16 raw bits. *)
Definition get_bit (sym : Sym) (d : Decoder) : Res Decoder :=
  d <- set_new_target_samplenum d ;;
  let b := (if negb (Sym_eqb (oldsym d) sym) then "0" else "1")%string in
  let d := set_oldsym sym d in
  d <- (if Sym_eqb sym SE0
        then Ok (set_ss_block (samplenum_lastedge d) (set_state GET_EOP d))
        else handle_bit b d) ;;
  d <- putpb (SYM sym) d ;;
  a <- sym_annotation sym ;;
  d <- putb (fst a) (snd a) d ;;
  bs <- need (bits d) ;;
  let d := if (Z.of_nat (String.length bs) <=? 16)
           then set_bits (Some (bs ++ b)%string) d else d in
  bs <- need (bits d) ;;
  if (Z.of_nat (String.length bs) =? 16) && String.eqb bs preamble then
    d <- putpx EOP d ;;
    let d := set_state IDLE d in
    let d := set_signalling (Some LowSpeedRP) d in
    d <- update_bitrate d ;;
    Ok (set_oldsym J d)
  else Ok d.

(** [handle_idle], first half: the edge is set to the current sample and the
    time since the last edge is classified. *)
Definition classify_gap (d : Decoder) : Res Decoder :=
  let d := set_samplenum_edge (Some (samplenum d)) d in
  le <- need (samplenum_lastedge d) ;;
  gap <- float_of_int (samplenum d - le) ;;
  sr <- need (samplerate d) ;;
  fsr <- float_of_int sr ;;
  se0_length <- float_div gap fsr ;;
  if PrimFloat.ltb 2.5e-6 se0_length then
    d <- putpb RESET d ;;
    d <- putb 10 ["Reset"%string; "Res"%string; "R"%string] d ;;
    Ok (set_signalling (Some (mode_of_option (options_signalling d))) d)
  else if PrimFloat.ltb 1.2e-6 se0_length then
    sg <- get_signalling d ;;
    if Mode_eqb sg LowSpeed then
      d <- putpb KEEP_ALIVE d ;;
      putb 9 ["Keep-alive"%string; "KA"%string; "A"%string] d
    else Ok d
  else Ok d.

(** [handle_idle], second half: speed detection from the idle symbol, then
    back to IDLE with J as the last symbol. *)
Definition detect_speed (sym : Sym) (d : Decoder) : Res Decoder :=
  d <- match sym with
       | FS_J => update_bitrate (set_signalling (Some FullSpeed) d)
       | LS_J => update_bitrate (set_signalling (Some LowSpeed) d)
       | _ => Ok d
       end ;;
  Ok (set_state IDLE (set_oldsym J d)).

Definition handle_idle (sym : Sym) (d : Decoder) : Res Decoder :=
  d <- classify_gap d ;;
  detect_speed sym d.

(** ** [decode] *)

Definition option_Pins_eqb (o : option Pins) (p : Pins) : bool :=
  match o with
  | Some q => Pins_eqb q p
  | None => false
  end.

Definition option_Z_eqb (o : option Z) (n : Z) : bool :=
  match o with
  | Some m => m =? n
  | None => false
  end.

(** The body of the [while] loop once [(self.samplenum, pins)] has been
    popped from the lookahead buffer. *)
Definition step (pins : Pins) (d : Decoder) : Res Decoder :=
  match state d with
  | IDLE =>
      if option_Pins_eqb (oldpins d) pins then Ok d
      else
        let d := set_oldpins (Some pins) d in
        sg <- get_signalling d ;;
        sym <- classify sg pins ;;
        d <- (if Sym_eqb sym SE0
              then Ok (set_state WAIT_IDLE
                         (set_samplenum_lastedge (Some (samplenum d)) d))
              else wait_for_sop sym d) ;;
        Ok (set_edgepins (Some pins) d)
  | GET_BIT | GET_EOP =>
      let d := if option_Z_eqb (samplenum_edge d) (samplenum d)
               then set_edgepins (Some pins) d else d in
      t <- need (samplenum_target d) ;;
      if samplenum d <? t then Ok d
      else
        sg <- get_signalling d ;;
        sym <- classify sg pins ;;
        d <- (match state d with
              | GET_BIT => get_bit sym d
              | _ => get_eop sym d
              end) ;;
        Ok (set_oldpins (Some pins) d)
  | WAIT_IDLE =>
      if Pins_eqb pins (0, 0) then Ok d
      else
        le <- need (samplenum_lastedge d) ;;
        d <- (if 1 <? samplenum d - le then
                sym <- classify (mode_of_option (options_signalling d)) pins ;;
                handle_idle sym d
              else
                sg <- get_signalling d ;;
                sym <- classify sg pins ;;
                wait_for_sop sym d) ;;
        Ok (set_edgepins (Some pins) (set_oldpins (Some pins) d))
  | INIT =>
      sym <- classify (mode_of_option (options_signalling d)) pins ;;
      d <- handle_idle sym d ;;
      Ok (set_oldpins (Some pins) d)
  end.

(** One iteration with the deque already refilled: pop the oldest entry. *)
Definition iteration (s : Sample) (buf : list Sample) (d : Decoder)
    : Res Decoder :=
  step (snd s) (set_samplenum (fst s) (set_lookahead_buffer buf d)).

(** The [while] loop once the input is exhausted: the deque drains. *)
Fixpoint drain (buf : list Sample) (d : Decoder) : Res Decoder :=
  match buf with
  | [] => Ok d
  | s :: buf' => d <- iteration s buf' d ;; drain buf' d
  end.

(** The [while] loop while input remains: append one sample, pop one. *)
Fixpoint feed (data : list Sample) (buf : list Sample) (d : Decoder)
    : Res Decoder :=
  match data with
  | [] => drain buf d
  | x :: data' =>
      match buf ++ [x] with
      | [] => Ok d
      | s :: buf' => d <- iteration s buf' d ;; feed data' buf' d
      end
  end.

(** [decode(ss, es, data)]: [data] yields the [(samplenum, pins)] pairs; the
    deque starts as 192 copies of the first of them. *)
Definition decode (data : list Sample) (d : Decoder) : Res Decoder :=
  match samplerate d with
  | None | Some 0 => Raise SamplerateError
  | Some _ =>
      match data with
      | [] => Raise StopIteration
      | first :: data' => feed data' (repeat first 192) d
      end
  end.

(** ** Reading the output *)

Definition is_packet (p : Packet) (o : Output) : bool :=
  match o, p with
  | Py _ _ SOP, SOP | Py _ _ STUFF_BIT, STUFF_BIT | Py _ _ EOP, EOP
  | Py _ _ ERR, ERR | Py _ _ KEEP_ALIVE, KEEP_ALIVE | Py _ _ RESET, RESET => true
  | Py _ _ (SYM a), SYM b => Sym_eqb a b
  | Py _ _ (BIT a), BIT b => String.eqb a b
  | _, _ => false
  end.

Definition is_bit (o : Output) : bool :=
  match o with
  | Py _ _ (BIT _) => true
  | _ => false
  end.

(** How many packets of kind [p] a stretch of output holds. *)
Definition count (p : Packet) (l : list Output) : nat :=
  List.length (filter (is_packet p) l).

Definition count_bits (l : list Output) : nat :=
  List.length (filter is_bit l).

(** The packets that only occur inside a packet on the bus. *)
Definition in_packet_output (o : Output) : bool :=
  match o with
  | Py _ _ SOP | Py _ _ (BIT _) | Py _ _ STUFF_BIT | Py _ _ EOP => true
  | _ => false
  end.

(** The four level pairs two digital channels can show. *)
Definition pin_pairs : list Pins := [(0, 0); (1, 0); (0, 1); (1, 1)].

(** Number of entries of a table under key [p]. *)
Definition entries (t : Table) (p : Pins) : nat :=
  List.length (filter (fun kv => Pins_eqb (fst kv) p) t).

(** ** Vocabulary of the specification *)

(** "round" as the specification writes it: the nearest integer, a tie going
    to the even neighbour (Python's [round]). *)
Definition round_half_even (x : float) : Res Z :=
  match Prim2SF x with
  | S754_zero _ => Ok 0
  | S754_infinity _ => Raise OverflowError
  | S754_nan => Raise ValueError
  | S754_finite s m e =>
      let a := match e with
               | Z0 => Zpos m
               | Zpos p => Zpos m * 2 ^ Zpos p
               | Zneg p =>
                   let q := Zpos m / 2 ^ Zpos p in
                   let r := Zpos m mod 2 ^ Zpos p in
                   let h := 2 ^ (Zpos p - 1) in
                   if r <? h then q
                   else if h <? r then q + 1
                   else if Z.even q then q else q + 1
               end in
      Ok (if s then - a else a)
  end.

(** The rational a finite float stands for (0 for an infinity or a nan). *)
Definition F2Q (x : float) : Q :=
  match Prim2SF x with
  | S754_finite s m e =>
      let v := (inject_Z (Zpos m) * Qpower (2 # 1) e)%Q in
      if s then Qopp v else v
  | _ => 0%Q
  end.

(** Truncation of a rational toward zero. *)
Definition Qtrunc (q : Q) : Z :=
  if Qle_bool 0 q then Qfloor q else Qceiling q.

(** [bw] added [n] times to [pos], each sum rounded as binary64 rounds. *)
Fixpoint add_n (n : nat) (bw pos : float) : float :=
  match n with
  | O => pos
  | S k => (add_n k bw pos + bw)%float
  end.

(** The walk of the alignment heuristic in the words of the specification:
    "walking forward one bit-width at a time through the lookahead buffer
    until a non-J/K symbol is found". [walk_until_not_JK m bw buf p q]: from
    position [p], over the samples of [buf] in order, the walk ends at [q].
    A sample numbered below the truncated position is passed over; the first
    sample at or after it that is neither J nor K ends the walk at the
    current position; one that is J or K moves the position one bit width
    on; the walk also ends when the buffer does. *)
Inductive walk_until_not_JK (m : Mode) (bw : float)
    : list Sample -> float -> float -> Prop :=
| walk_exhausted (p : float) : walk_until_not_JK m bw [] p p
| walk_passed_over (sn : Z) (pins : Pins) (rest : list Sample) (p q : float)
    (t : Z) :
    int_of_float p = Ok t -> sn < t ->
    walk_until_not_JK m bw rest p q ->
    walk_until_not_JK m bw ((sn, pins) :: rest) p q
| walk_found (sn : Z) (pins : Pins) (rest : list Sample) (p : float) (t : Z)
    (s : Sym) :
    int_of_float p = Ok t -> t <= sn -> classify m pins = Ok s ->
    s <> J -> s <> K ->
    walk_until_not_JK m bw ((sn, pins) :: rest) p p
| walk_on (sn : Z) (pins : Pins) (rest : list Sample) (p q : float) (t : Z)
    (s : Sym) :
    int_of_float p = Ok t -> t <= sn -> classify m pins = Ok s ->
    s = J \/ s = K ->
    walk_until_not_JK m bw rest (p + bw)%float q ->
    walk_until_not_JK m bw ((sn, pins) :: rest) p q.

(** [bits_decoded syms d d']: from [d] the handlers of the two in-packet
    states, dispatched on the state as the loop of [decode] does, have
    processed the symbols [syms] of consecutive bit periods and left the
    decoder in [d']. *)
Inductive bits_decoded : list Sym -> Decoder -> Decoder -> Prop :=
| bits_none (d : Decoder) : bits_decoded [] d d
| bits_get_bit (sym : Sym) (syms : list Sym) (d d1 d2 : Decoder) :
    state d = GET_BIT -> get_bit sym d = Ok d1 ->
    bits_decoded syms d1 d2 -> bits_decoded (sym :: syms) d d2
| bits_get_eop (sym : Sym) (syms : list Sym) (d d1 d2 : Decoder) :
    state d = GET_EOP -> get_eop sym d = Ok d1 ->
    bits_decoded syms d1 d2 -> bits_decoded (sym :: syms) d d2.

(** The attributes a bit handler reads are set and its timing update is
    defined. *)
Definition timing_defined (d : Decoder) : Prop :=
  exists pos bw t e,
    samplepos d = Some pos /\ bitwidth d = Some bw
    /\ int_of_float (pos + bw)%float = Ok t
    /\ int_of_float (pos + bw - bw / 2)%float = Ok e.

Definition rate_defined (d : Decoder) : Prop :=
  exists r fr, samplerate d = Some r /\ float_of_int r = Ok fr.

Definition in_packet_ready (d : Decoder) : Prop :=
  timing_defined d /\ rate_defined d
  /\ (exists e0, samplenum_edge d = Some e0)
  /\ (exists bs, bits d = Some bs).

(** The bit [get_bit] decodes from a symbol (NRZI). *)
Definition nrzi_bit (d : Decoder) (sym : Sym) : string :=
  (if negb (Sym_eqb (oldsym d) sym) then "0" else "1")%string.

(** The mode speed detection leaves: an FS_J or LS_J idle symbol locks it. *)
Definition locked (sym : Sym) (m : option Mode) : option Mode :=
  match sym with
  | FS_J => Some FullSpeed
  | LS_J => Some LowSpeed
  | _ => m
  end.

(** Output that holds none of the packets of a packet on the bus. *)
Definition quiet (evs : list Output) : Prop :=
  forallb (fun o => negb (in_packet_output o)) evs = true.

(** The decoders a run can be in: [metadata] on a fresh decoder, then any
    number of iterations of the loop of [decode], over any calls of [decode]. *)
Inductive reachable : Decoder -> Prop :=
| reach_metadata (rate : Z) (opt : SigOption) (d : Decoder) :
    metadata rate (init opt) = Ok d -> reachable d
| reach_iteration (s : Sample) (buf : list Sample) (d d' : Decoder) :
    reachable d -> iteration s buf d = Ok d' -> reachable d'.

(** The mode is set, is not automatic inside a packet, and is automatic only
    under the automatic option. *)
Definition mode_known_in_packet (d : Decoder) : Prop :=
  (exists m, signalling d = Some m)
  /\ (state d = GET_BIT \/ state d = GET_EOP ->
      signalling d <> Some Automatic)
  /\ (signalling d = Some Automatic -> options_signalling d = OptAutomatic).

Definition sop_output (evs : list Output) : Prop :=
  exists e, evs = [Py e e SOP; Ann e e 4 ["SOP"%string; "S"%string]].

(** The five kinds of iteration of the loop. *)
Definition step_kind (pins : Pins) (d d' : Decoder) (evs : list Output) : Prop :=
  (* nothing put, mode kept, no packet entered *)
  (signalling d' = signalling d /\ evs = []
   /\ (state d' = state d \/ state d = IDLE /\ state d' = WAIT_IDLE))
  (* start of packet *)
  \/ (signalling d' = signalling d
      /\ (state d = IDLE \/ state d = WAIT_IDLE) /\ state d' = GET_BIT
      /\ sop_output evs
      /\ exists sg, signalling d = Some sg /\ sg <> Automatic)
  (* a bit or EOP symbol, mode kept *)
  \/ ((state d = GET_BIT \/ state d = GET_EOP)
      /\ signalling d' = signalling d /\ count RESET evs = 0%nat
      /\ (state d' = state d \/ state d' = GET_EOP \/ state d' = WAIT_IDLE
          \/ state d' = IDLE))
  (* the bit that completes the preamble *)
  \/ (state d = GET_BIT /\ signalling d' = Some LowSpeedRP
      /\ bits d' = Some preamble /\ state d' = IDLE
      /\ count RESET evs = 0%nat
      /\ exists e, In (Py e e EOP) evs)
  (* idle handling *)
  \/ ((state d = INIT \/ state d = WAIT_IDLE) /\ state d' = IDLE
      /\ quiet evs
      /\ exists sym,
           classify (mode_of_option (options_signalling d)) pins = Ok sym
           /\ (count RESET evs = 1%nat
               /\ signalling d' =
                    locked sym (Some (mode_of_option (options_signalling d)))
               \/ count RESET evs = 0%nat
                  /\ signalling d' = locked sym (signalling d))).

(** A result with the bit width forgotten. *)
Definition erase_bitwidth (r : Res Decoder) : Res Decoder :=
  match r with
  | Ok d => Ok (set_bitwidth None d)
  | Raise e => Raise e
  end.

(** A result that is not the precondition failure of [decode]. *)
Definition no_sre {A : Type} (r : Res A) : Prop := r <> Raise SamplerateError.

(** What a handler leaves of the timing fields it does not assign. *)
Definition same_timing (d d' : Decoder) : Prop :=
  samplepos d' = samplepos d
  /\ samplenum_target d' = samplenum_target d
  /\ samplenum_edge d' = samplenum_edge d
  /\ samplenum_lastedge d' = samplenum_lastedge d.

(** ** Example runs *)

(** Sample streams for the examples: runs of equal levels, numbered from
    [start]. *)
Fixpoint expand (runs : list (Pins * nat)) (start : Z) : list Sample :=
  match runs with
  | [] => []
  | (p, n) :: rest =>
      map (fun i => (start + Z.of_nat i, p)) (seq 0 n)
      ++ expand rest (start + Z.of_nat n)
  end.

(** [metadata] then one call of [decode] on a fresh decoder. *)
Definition run_decode (rate : Z) (opt : SigOption) (data : list Sample)
    : Res Decoder :=
  d <- metadata rate (init opt) ;; decode data d.

(** The decoder a run ends in (the fresh decoder if it raised). *)
Definition final (opt : SigOption) (r : Res Decoder) : Decoder :=
  match r with
  | Ok d => d
  | Raise _ => init opt
  end.

(** Full-speed levels at 18 MHz, 1.5 samples per bit: idle J, then K for two
    bit times; the run stops inside the packet. *)
Definition stream_fs18 : list Sample := expand [((1, 0), 4%nat); ((0, 1), 3%nat)] 0.

Definition in_packet_fs18 : Decoder :=
  final OptFullSpeed (run_decode 18000000 OptFullSpeed stream_fs18).

(** Full-speed levels at 48 MHz, 4 samples per bit: idle J, the bits K J K J,
    two bit times of SE0, then J. *)
Definition stream_fs48 : list Sample :=
  expand [((1, 0), 20%nat); ((0, 1), 4%nat); ((1, 0), 4%nat); ((0, 1), 4%nat);
          ((1, 0), 4%nat); ((0, 0), 8%nat); ((1, 0), 40%nat)] 0.

(** The decoder of a run over [stream_fs48] when [wait_for_sop] is called on
    the first K, sample 20: the idle prefix is decoded, the K is popped and the
    deque holds what follows it. *)
Definition at_first_K_fs48 : Decoder :=
  set_oldpins (Some (0, 1))
    (set_samplenum 20
       (set_lookahead_buffer (skipn 21 stream_fs48)
          (final OptFullSpeed
             (run_decode 48000000 OptFullSpeed (firstn 20 stream_fs48))))).

Definition after_first_K_fs48 : Decoder :=
  final OptFullSpeed (wait_for_sop K at_first_K_fs48).

(** Full-speed levels at 48 MHz: idle J, then K held for seven bit times (a
    '0' and six '1's); the run stops inside the packet with the
    consecutive-ones counter at 6. *)
Definition stream_six_ones : list Sample :=
  expand [((1, 0), 20%nat); ((0, 1), 27%nat)] 0.

Definition six_ones_fs48 : Decoder :=
  final OptFullSpeed (run_decode 48000000 OptFullSpeed stream_six_ones).

Definition after_seventh_one : Decoder :=
  final OptFullSpeed (get_bit K six_ones_fs48).

(** The run over [stream_fs48] stopped after sample 37, inside the packet,
    before the first SE0 is sampled; then the decoders after the symbols SE0,
    SE0 and J of the three following bit periods. *)
Definition before_eop_fs48 : Decoder :=
  final OptFullSpeed
    (run_decode 48000000 OptFullSpeed (firstn 38 stream_fs48)).

Definition eop1_fs48 : Decoder := final OptFullSpeed (get_bit SE0 before_eop_fs48).
Definition eop2_fs48 : Decoder := final OptFullSpeed (get_eop SE0 eop1_fs48).
Definition eop3_fs48 : Decoder := final OptFullSpeed (get_eop J eop2_fs48).

(** Low-speed levels at 10 MHz: idle J, SE0 for 13 samples (1.3 us), J again. *)
Definition stream_keepalive : list Sample :=
  expand [((0, 1), 5%nat); ((0, 0), 13%nat); ((0, 1), 5%nat)] 0.

(** The decoder of a run over [stream_keepalive] when the J after the SE0,
    sample 18, has been popped. *)
Definition at_idle_ls10 : Decoder :=
  set_samplenum 18
    (set_lookahead_buffer (skipn 19 stream_keepalive)
       (final OptLowSpeed
          (run_decode 10000000 OptLowSpeed (firstn 18 stream_keepalive)))).

(** Full-speed levels at 48 MHz: idle J, then the sixteen symbols
    K J K J K J K K J K K K K K J K whose NRZI decoding is the SYNC pattern and
    the PRE packet identifier, 0000000100111100. *)
Definition stream_pre : list Sample :=
  expand [((1, 0), 20%nat);
          ((0, 1), 4%nat); ((1, 0), 4%nat); ((0, 1), 4%nat); ((1, 0), 4%nat);
          ((0, 1), 4%nat); ((1, 0), 4%nat); ((0, 1), 8%nat); ((1, 0), 4%nat);
          ((0, 1), 20%nat); ((1, 0), 4%nat); ((0, 1), 4%nat)] 0.

(** The run over [stream_pre] stopped after sample 80: fifteen bits are
    decoded and the sixteenth is due. *)
Definition before_pre_fs48 : Decoder :=
  final OptFullSpeed
    (run_decode 48000000 OptFullSpeed (firstn 81 stream_pre)).

(** The decoder of a run in automatic mode before its first sample. *)
Definition fresh_automatic : Decoder :=
  final OptAutomatic (metadata 48000000 (init OptAutomatic)).

(** Low-speed levels at 10 MHz: idle J, SE0 for 26 samples (2.6 us), J again;
    the decoder of a run over the first 31 samples, before the J returns. *)
Definition stream_reset : list Sample :=
  expand [((0, 1), 5%nat); ((0, 0), 26%nat); ((0, 1), 5%nat)] 0.

Definition before_reset_ls10 : Decoder :=
  final OptLowSpeed (run_decode 10000000 OptLowSpeed (firstn 31 stream_reset)).

Definition after_reset_ls10 : Decoder :=
  final OptLowSpeed (iteration (31, (0, 1)) [] before_reset_ls10).

Definition after_pre_fs48 : Decoder :=
  final OptFullSpeed (iteration (82, (0, 1)) [] before_pre_fs48).

(** ** The declared annotations *)

(** [Decoder.annotations]: the annotation classes, by index. *)
Definition annotations : list (string * string) :=
  [("sym-j", "J symbol"); ("sym-k", "K symbol");
   ("sym-se0", "SE0 symbol"); ("sym-se1", "SE1 symbol");
   ("sop", "Start of packet (SOP)"); ("eop", "End of packet (EOP)");
   ("bit", "Bit"); ("stuffbit", "Stuff bit"); ("error", "Error");
   ("keep-alive", "Low-speed keep-alive"); ("reset", "Reset")]%string.

(** [Decoder.annotation_rows]: each row with the classes it shows. *)
Definition annotation_rows : list (string * string * list Z) :=
  [("bits"%string, "Bits"%string, [4; 5; 6; 7; 8; 9; 10]);
   ("symbols"%string, "Symbols"%string, [0; 1; 2; 3])].

(** ** Vocabulary of the invariants *)

(** The decoder after the timing update of [set_new_target_samplenum] from
    position [pos] with bit width [bw], the two truncations being [t], [e]. *)
Definition advanced (pos bw : float) (t e : Z) (d : Decoder) : Decoder :=
  set_samplenum_edge (Some e)
    (set_samplenum_lastedge (samplenum_edge d)
       (set_samplenum_target (Some t)
          (set_samplepos (Some (pos + bw)%float) d))).

(** A sample whose pins are two logic levels. *)
Definition valid_sample (s : Sample) : Prop := In (snd s) pin_pairs.

(** The exceptions of the float arithmetic: a value out of the binary64
    range in [float()] or [int()], or a nan in [int()]. *)
Definition arithmetic (e : Exn) : Prop := e = OverflowError \/ e = ValueError.

(** What a result may raise when only the arithmetic can fail. *)
Definition fails_arithmetic {A : Type} (r : Res A) : Prop :=
  forall e, r = Raise e -> arithmetic e.

Definition in_packet_state (st : State) : bool :=
  match st with
  | GET_BIT | GET_EOP => true
  | _ => false
  end.

(** Every attribute a handler reads in the state the decoder is in has been
    assigned: nothing the loop of [decode] reads is still [None]. *)
Definition attributes_set (d : Decoder) : Prop :=
  (exists r, samplerate d = Some r /\ 0 < r < 2 ^ 63)
  /\ (exists m, signalling d = Some m)
  /\ (signalling d = Some Automatic -> options_signalling d = OptAutomatic)
  /\ (signalling d = Some Automatic \/ exists bw, bitwidth d = Some bw)
  /\ (exists le, samplenum_lastedge d = Some le)
  /\ (state d <> INIT -> exists e, samplenum_edge d = Some e)
  /\ (in_packet_state (state d) = true ->
      signalling d <> Some Automatic
      /\ (exists pos, samplepos d = Some pos)
      /\ (exists t, samplenum_target d = Some t)
      /\ (exists bs, bits d = Some bs))
  /\ (state d = GET_EOP -> exists b, ss_block d = Some b)
  /\ (forall p, edgepins d = Some p -> In p pin_pairs).

(** A string of the characters 0 and 1. *)
Fixpoint binary_string (s : string) : bool :=
  match s with
  | EmptyString => true
  | String c s' =>
      (Ascii.eqb c "0"%char || Ascii.eqb c "1"%char) && binary_string s'
  end.

(** The counter of consecutive ones and the bit history stay within their
    bounds. *)
Definition history_bounded (d : Decoder) : Prop :=
  0 <= consecutive_ones d <= 6
  /\ forall bs, bits d = Some bs ->
       (String.length bs <= 17)%nat /\ binary_string bs = true.

(** The packets follow the documented OUTPUT_PYTHON format: a SYM carries one
    of the four bus symbols and a BIT the character 0 or 1. *)
Definition documented (o : Output) : bool :=
  match o with
  | Py _ _ (SYM s) =>
      match s with
      | J | K | SE0 | SE1 => true
      | FS_J | LS_J => false
      end
  | Py _ _ (BIT b) => String.eqb b "0" || String.eqb b "1"
  | _ => true
  end.

(** Reading the python output from left to right with [open] telling whether
    a packet is open: an SOP opens one and needs none open; a BIT, a STUFF BIT,
    an EOP and an ERR need one open, the last two close it; a RESET and a KEEP
    ALIVE need none open. The result is [None] when a packet comes out of
    place, and else whether a packet is open at the end. *)
Fixpoint bracket (open : bool) (l : list Output) : option bool :=
  match l with
  | [] => Some open
  | Py _ _ p :: r =>
      match p with
      | SOP => if open then None else bracket true r
      | BIT _ | STUFF_BIT => if open then bracket open r else None
      | EOP | ERR => if open then bracket false r else None
      | KEEP_ALIVE | RESET => if open then None else bracket open r
      | SYM _ => bracket open r
      end
  | Ann _ _ _ _ :: r => bracket open r
  end.

(** The identifier of the annotation class that goes with a packet. *)
Definition packet_annotation (p : Packet) : option string :=
  match p with
  | SYM J => Some "sym-j"
  | SYM K => Some "sym-k"
  | SYM SE0 => Some "sym-se0"
  | SYM SE1 => Some "sym-se1"
  | SYM _ => None
  | SOP => Some "sop"
  | EOP => Some "eop"
  | BIT _ => Some "bit"
  | STUFF_BIT => Some "stuffbit"
  | ERR => Some "error"
  | KEEP_ALIVE => Some "keep-alive"
  | RESET => Some "reset"
  end%string.

(** Class [cls] is the declared annotation class of packet [p]. *)
Definition annotates (p : Packet) (cls : Z) : bool :=
  match packet_annotation p, nth_error annotations (Z.to_nat cls) with
  | Some id, Some (id', _) => (0 <=? cls) && String.eqb id id'
  | _, _ => false
  end.

Definition is_nil {A : Type} (l : list A) : bool :=
  match l with
  | [] => true
  | _ :: _ => false
  end.

(** The output comes in pairs: a packet, then an annotation over the same
    sample range whose class is the one declared for the packet and whose list
    of texts is not empty. The one packet that may come alone is an EOP of
    empty range. *)
Fixpoint paired (l : list Output) : bool :=
  match l with
  | [] => true
  | Py s e p :: rest =>
      match rest with
      | Ann s' e' cls texts :: rest' =>
          (s =? s') && (e =? e') && annotates p cls && negb (is_nil texts)
          && paired rest'
      | _ =>
          match p with
          | EOP => (s =? e) && paired rest
          | _ => false
          end
      end
  | Ann _ _ _ _ :: _ => false
  end.

(** The names of the annotation rows that show class [cls]. *)
Definition rows_of (cls : Z) : list string :=
  map (fun r => fst (fst r))
    (filter (fun r => existsb (Z.eqb cls) (snd r)) annotation_rows).

Definition is_sym (p : Packet) : bool :=
  match p with
  | SYM _ => true
  | _ => false
  end.

(** A decoder configured for one speed keeps to it: its mode is the
    configured one or, after a preamble, low-speed-rp; configured for full
    speed it has put no KEEP ALIVE. *)
Definition configured_speed_kept (d : Decoder) : Prop :=
  options_signalling d <> OptAutomatic ->
  (signalling d = Some (mode_of_option (options_signalling d))
   \/ signalling d = Some LowSpeedRP)
  /\ (options_signalling d = OptFullSpeed ->
      count KEEP_ALIVE (log d) = 0%nat).

(** Inside a packet the bit rate is the one of the current mode and the bit
    width the binary64 quotient of the sampling rate by it. *)
Definition rate_of_mode (d : Decoder) : Prop :=
  exists m br r fr fbr,
    signalling d = Some m /\ bitrates m = Some br /\ bitrate d = Some br
    /\ samplerate d = Some r /\ float_of_int r = Ok fr
    /\ float_of_int br = Ok fbr
    /\ PrimFloat.eqb fbr 0 = false
    /\ bitwidth d = Some (fr / fbr)%float.

(** Reading the python output from left to right with the end of the last
    bit range, [edge]: an SOP sets it; a SYM must start there and moves it to
    its own end; a BIT and a STUFF BIT must start there. The result is [None]
    when a range starts elsewhere. *)
Fixpoint tiles (edge : option Z) (l : list Output) : option (option Z) :=
  match l with
  | [] => Some edge
  | Py s e p :: r =>
      match p with
      | SOP => tiles (Some e) r
      | SYM _ => if option_Z_eqb edge s then tiles (Some e) r else None
      | BIT _ | STUFF_BIT => if option_Z_eqb edge s then tiles edge r else None
      | _ => tiles edge r
      end
  | Ann _ _ _ _ :: r => tiles edge r
  end.

(** The loop of [decode] over a list of samples, each iteration with the
    (at most 192) samples that follow as lookahead buffer. *)
Fixpoint windowed (l : list Sample) (d : Decoder) : Res Decoder :=
  match l with
  | [] => Ok d
  | s :: l' => d <- iteration s (firstn 192 l') d ;; windowed l' d
  end.

(** ** Example runs, continued *)

(** The decoder of a full-speed run at 48 MHz before its first sample, and
    after the whole of [stream_fs48], a packet with its EOP. *)
Definition fresh_fs48 : Decoder :=
  final OptFullSpeed (metadata 48000000 (init OptFullSpeed)).

Definition after_packet_fs48 : Decoder :=
  final OptFullSpeed (run_decode 48000000 OptFullSpeed stream_fs48).

(** * Properties *)

(** ** Tactics for the error monad *)

Lemma bind_Ok {A B : Type} (c : Res A) (k : A -> Res B) (b : B) :
  bind c k = Ok b -> exists a, c = Ok a /\ k a = Ok b.
Proof.
  destruct c as [a|e]; simpl; intros H; [exists a; auto | discriminate].
Qed.

Lemma need_Ok {A : Type} (o : option A) (a : A) :
  need o = Ok a -> o = Some a.
Proof. destruct o; simpl; congruence. Qed.

(** Each helper returns exactly when the attributes it reads are set. *)

Lemma get_signalling_Ok d m : get_signalling d = Ok m -> signalling d = Some m.
Proof. unfold get_signalling; destruct (signalling d); congruence. Qed.

Lemma putpb_Ok p d d' : putpb p d = Ok d' ->
  exists s e, samplenum_lastedge d = Some s /\ samplenum_edge d = Some e
              /\ d' = put (Py s e p) d.
Proof.
  unfold putpb; intros H.
  destruct (samplenum_lastedge d) as [s|]; [ | discriminate].
  destruct (samplenum_edge d) as [e|]; [ | discriminate].
  simpl in H; injection H as <-; eauto.
Qed.

Lemma putb_Ok c t d d' : putb c t d = Ok d' ->
  exists s e, samplenum_lastedge d = Some s /\ samplenum_edge d = Some e
              /\ d' = put (Ann s e c t) d.
Proof.
  unfold putb; intros H.
  destruct (samplenum_lastedge d) as [s|]; [ | discriminate].
  destruct (samplenum_edge d) as [e|]; [ | discriminate].
  simpl in H; injection H as <-; eauto.
Qed.

Lemma putpx_Ok p d d' : putpx p d = Ok d' ->
  exists s, samplenum_edge d = Some s /\ d' = put (Py s s p) d.
Proof.
  unfold putpx; intros H.
  destruct (samplenum_edge d) as [e|]; [ | discriminate].
  simpl in H; injection H as <-; eauto.
Qed.

Lemma putx_Ok c t d d' : putx c t d = Ok d' ->
  exists s, samplenum_edge d = Some s /\ d' = put (Ann s s c t) d.
Proof.
  unfold putx; intros H.
  destruct (samplenum_edge d) as [e|]; [ | discriminate].
  simpl in H; injection H as <-; eauto.
Qed.

Lemma putpm_Ok p d d' : putpm p d = Ok d' ->
  exists s e, ss_block d = Some s /\ samplenum_edge d = Some e
              /\ d' = put (Py s e p) d.
Proof.
  unfold putpm; intros H.
  destruct (samplenum_edge d) as [e|]; [ | discriminate].
  destruct (ss_block d) as [s|]; [ | discriminate].
  simpl in H; injection H as <-; eauto.
Qed.

Lemma putm_Ok c t d d' : putm c t d = Ok d' ->
  exists s e, ss_block d = Some s /\ samplenum_edge d = Some e
              /\ d' = put (Ann s e c t) d.
Proof.
  unfold putm; intros H.
  destruct (samplenum_edge d) as [e|]; [ | discriminate].
  destruct (ss_block d) as [s|]; [ | discriminate].
  simpl in H; injection H as <-; eauto.
Qed.

Lemma update_bitrate_Ok d d' : update_bitrate d = Ok d' ->
  exists sg sr fsr br fbr bw,
    signalling d = Some sg /\ samplerate d = Some sr
    /\ float_of_int sr = Ok fsr /\ bitrates sg = Some br
    /\ float_of_int br = Ok fbr /\ float_div fsr fbr = Ok bw
    /\ d' = set_bitwidth (Some bw) (set_bitrate (Some br) d).
Proof.
  unfold update_bitrate, get_signalling; intros H.
  destruct (signalling d) as [sg|]; [ | discriminate]. simpl in H.
  destruct (samplerate d) as [sr|]; [ | discriminate]. simpl in H.
  destruct (float_of_int sr) as [fsr|] eqn:E1; [ | discriminate]. simpl in H.
  destruct (bitrates sg) as [br|] eqn:E0; [ | discriminate]. simpl in H.
  destruct (float_of_int br) as [fbr|] eqn:E2; [ | discriminate]. simpl in H.
  destruct (float_div fsr fbr) as [bw|] eqn:E3; [ | discriminate]. simpl in H.
  injection H as <-. exists sg, sr, fsr, br, fbr, bw; auto 10.
Qed.

Lemma set_new_target_samplenum_eq (d : Decoder) (pos bw : float) :
  samplepos d = Some pos -> bitwidth d = Some bw ->
  set_new_target_samplenum d =
    (t <- int_of_float (pos + bw)%float ;;
     e <- int_of_float (pos + bw - bw / 2)%float ;;
     Ok (set_samplenum_edge (Some e)
           (set_samplenum_lastedge (samplenum_edge d)
              (set_samplenum_target (Some t)
                 (set_samplepos (Some (pos + bw)%float) d))))).
Proof.
  intros Hp Hb; unfold set_new_target_samplenum.
  rewrite Hp; simpl. rewrite Hb; simpl. reflexivity.
Qed.

Lemma set_new_target_samplenum_Ok (d d' : Decoder) :
  set_new_target_samplenum d = Ok d' ->
  exists pos bw t e,
    samplepos d = Some pos /\ bitwidth d = Some bw
    /\ int_of_float (pos + bw)%float = Ok t
    /\ int_of_float (pos + bw - bw / 2)%float = Ok e
    /\ d' = set_samplenum_edge (Some e)
              (set_samplenum_lastedge (samplenum_edge d)
                 (set_samplenum_target (Some t)
                    (set_samplepos (Some (pos + bw)%float) d))).
Proof.
  unfold set_new_target_samplenum; intros H.
  destruct (samplepos d) as [pos|]; [ | discriminate].
  destruct (bitwidth d) as [bw|]; [ | discriminate].
  simpl in H.
  destruct (int_of_float (pos + bw)%float) as [t|] eqn:Ht; [ | discriminate].
  simpl in H.
  destruct (int_of_float (pos + bw - bw / 2)%float) as [e|] eqn:He;
    [ | discriminate].
  simpl in H. injection H as <-.
  exists pos, bw, t, e; auto.
Qed.

Ltac inv H :=
  lazymatch type of H with
  | bind _ _ = Ok _ =>
      let a := fresh "d" in
      let Ha := fresh "Ha" in
      let Hk := fresh "Hk" in
      apply bind_Ok in H; destruct H as (a & Ha & Hk);
      inv Ha; inv Hk
  | need _ = Ok _ => apply need_Ok in H
  | get_signalling _ = Ok _ => apply get_signalling_Ok in H
  | putpb _ _ = Ok _ =>
      let s := fresh "s" in let e := fresh "e" in
      let Hs := fresh "Hs" in let He := fresh "He" in
      apply putpb_Ok in H; destruct H as (s & e & Hs & He & H)
  | putb _ _ _ = Ok _ =>
      let s := fresh "s" in let e := fresh "e" in
      let Hs := fresh "Hs" in let He := fresh "He" in
      apply putb_Ok in H; destruct H as (s & e & Hs & He & H)
  | putpm _ _ = Ok _ =>
      let s := fresh "s" in let e := fresh "e" in
      let Hs := fresh "Hs" in let He := fresh "He" in
      apply putpm_Ok in H; destruct H as (s & e & Hs & He & H)
  | putm _ _ _ = Ok _ =>
      let s := fresh "s" in let e := fresh "e" in
      let Hs := fresh "Hs" in let He := fresh "He" in
      apply putm_Ok in H; destruct H as (s & e & Hs & He & H)
  | putpx _ _ = Ok _ =>
      let s := fresh "s" in let Hs := fresh "Hs" in
      apply putpx_Ok in H; destruct H as (s & Hs & H)
  | putx _ _ _ = Ok _ =>
      let s := fresh "s" in let Hs := fresh "Hs" in
      apply putx_Ok in H; destruct H as (s & Hs & H)
  | update_bitrate _ = Ok _ =>
      let sg := fresh "sg" in let sr := fresh "sr" in
      let fsr := fresh "fsr" in let br := fresh "br" in
      let fbr := fresh "fbr" in let bw := fresh "bw" in
      let H1 := fresh "Hsg" in let H2 := fresh "Hsr" in
      let H3 := fresh "Hfsr" in let H4 := fresh "Hbr" in
      let H5 := fresh "Hfbr" in let H6 := fresh "Hbw" in
      apply update_bitrate_Ok in H;
      destruct H as (sg & sr & fsr & br & fbr & bw & H1 & H2 & H3 & H4 & H5 & H6 & H)
  | set_new_target_samplenum _ = Ok _ =>
      let pos := fresh "pos" in let bw := fresh "bw" in
      let t := fresh "t" in let e := fresh "e" in
      let H1 := fresh "Hpos" in let H2 := fresh "Hbw" in
      let H3 := fresh "Ht" in let H4 := fresh "He" in
      apply set_new_target_samplenum_Ok in H;
      destruct H as (pos & bw & t & e & H1 & H2 & H3 & H4 & H)
  | (if ?c then _ else _) = Ok _ =>
      let E := fresh "E" in destruct c eqn:E; inv H
  | match ?x with _ => _ end = Ok _ =>
      let E := fresh "E" in destruct x eqn:E; inv H
  | Ok _ = Ok _ => injection H as H
  | Raise _ = Ok _ => discriminate H
  | _ => idtac
  end.

Ltac split_ifs :=
  repeat match goal with
         | H : context [if ?c then _ else _] |- _ =>
             lazymatch c with
             | context [if _ then _ else _] => fail
             | _ => destruct c eqn:?
             end
         end.

(** ** The symbol tables (C9) *)

(** C9. In each of the four signalling-mode tables every pair of levels
    (D+, D-) over {0,1} x {0,1} is the key of exactly one entry, each table has
    exactly these four entries, and so classification returns a symbol and
    never raises. *)
Theorem classify_total (m : Mode) (p : Pins) (Hp : In p pin_pairs) :
  entries (symbols m) p = 1%nat
  /\ List.length (symbols m) = 4%nat
  /\ exists s, lookup (symbols m) p = Some s /\ classify m p = Ok s.
Proof.
  unfold pin_pairs in Hp; simpl in Hp.
  destruct Hp as [<- | [<- | [<- | [<- | []]]]]; destruct m;
    (split; [reflexivity | split; [reflexivity | eexists; split; reflexivity]]).
Qed.

Lemma classify_total_witness :
  In (1, 0) pin_pairs
  /\ entries (symbols Automatic) (1, 0) = 1%nat
  /\ List.length (symbols Automatic) = 4%nat
  /\ exists s, lookup (symbols Automatic) (1, 0) = Some s
               /\ classify Automatic (1, 0) = Ok s.
Proof.
  assert (H : In (1, 0) pin_pairs) by (simpl; auto).
  split; [exact H | exact (classify_total Automatic (1, 0) H)].
Defined.

(** ** The precondition of [decode] (C1) *)

Lemma bind_no_sre {A B : Type} (c : Res A) (k : A -> Res B) :
  no_sre c -> (forall a, no_sre (k a)) -> no_sre (bind c k).
Proof.
  unfold no_sre; destruct c as [a|e]; simpl; intros Hc Hk; [apply Hk | congruence].
Qed.

Create HintDb nsre.

Ltac nsre :=
  repeat first
    [ solve [auto with nsre]
    | apply bind_no_sre; [ | intros ? ]
    | match goal with
      | |- no_sre (if ?c then _ else _) => destruct c
      | |- no_sre (match ?x with _ => _ end) => destruct x
      | |- no_sre (Ok _) => discriminate
      | |- no_sre (Raise _) => discriminate
      end ].

Lemma need_no_sre {A : Type} (o : option A) : no_sre (need o).
Proof. unfold need; nsre. Qed.

Lemma float_of_int_no_sre (n : Z) : no_sre (float_of_int n).
Proof. unfold float_of_int; nsre. Qed.

Lemma int_of_float_no_sre (x : float) : no_sre (int_of_float x).
Proof. unfold int_of_float; nsre. Qed.

Lemma float_div_no_sre (x y : float) : no_sre (float_div x y).
Proof. unfold float_div; nsre. Qed.

Lemma classify_no_sre (m : Mode) (p : Pins) : no_sre (classify m p).
Proof. unfold classify; nsre. Qed.

Lemma get_signalling_no_sre (d : Decoder) : no_sre (get_signalling d).
Proof. unfold get_signalling; nsre. Qed.

Lemma sym_annotation_no_sre (s : Sym) : no_sre (sym_annotation s).
Proof. unfold sym_annotation; nsre. Qed.

#[local] Hint Resolve need_no_sre float_of_int_no_sre int_of_float_no_sre
  float_div_no_sre classify_no_sre get_signalling_no_sre
  sym_annotation_no_sre : nsre.

Lemma update_bitrate_no_sre (d : Decoder) : no_sre (update_bitrate d).
Proof. unfold update_bitrate; nsre. Qed.

Lemma putpx_no_sre p d : no_sre (putpx p d).
Proof. unfold putpx; nsre. Qed.

Lemma putx_no_sre c t d : no_sre (putx c t d).
Proof. unfold putx; nsre. Qed.

Lemma putpm_no_sre p d : no_sre (putpm p d).
Proof. unfold putpm; nsre. Qed.

Lemma putm_no_sre c t d : no_sre (putm c t d).
Proof. unfold putm; nsre. Qed.

Lemma putpb_no_sre p d : no_sre (putpb p d).
Proof. unfold putpb; nsre. Qed.

Lemma putb_no_sre c t d : no_sre (putb c t d).
Proof. unfold putb; nsre. Qed.

Lemma set_new_target_samplenum_no_sre d : no_sre (set_new_target_samplenum d).
Proof. unfold set_new_target_samplenum; nsre. Qed.

#[local] Hint Resolve update_bitrate_no_sre putpx_no_sre putx_no_sre
  putpm_no_sre putm_no_sre putpb_no_sre putb_no_sre
  set_new_target_samplenum_no_sre : nsre.

Lemma quality_loop_no_sre sg bw buf pos : no_sre (quality_loop sg bw buf pos).
Proof.
  revert pos; induction buf as [|[sn pins] rest IH]; intros pos; simpl.
  - discriminate.
  - nsre.
Qed.

#[local] Hint Resolve quality_loop_no_sre : nsre.

Lemma samplepos_quality_no_sre d pos : no_sre (samplepos_quality d pos).
Proof. unfold samplepos_quality; nsre. Qed.

#[local] Hint Resolve samplepos_quality_no_sre : nsre.

Lemma wait_for_sop_no_sre sym d : no_sre (wait_for_sop sym d).
Proof. unfold wait_for_sop; nsre. Qed.

Lemma handle_bit_no_sre b d : no_sre (handle_bit b d).
Proof. unfold handle_bit; nsre. Qed.

Lemma get_eop_no_sre sym d : no_sre (get_eop sym d).
Proof. unfold get_eop; nsre. Qed.

#[local] Hint Resolve wait_for_sop_no_sre handle_bit_no_sre get_eop_no_sre : nsre.

Lemma get_bit_no_sre sym d : no_sre (get_bit sym d).
Proof. unfold get_bit; nsre. Qed.

Lemma handle_idle_no_sre sym d : no_sre (handle_idle sym d).
Proof. unfold handle_idle, classify_gap, detect_speed; nsre. Qed.

#[local] Hint Resolve get_bit_no_sre handle_idle_no_sre : nsre.

Lemma step_no_sre pins d : no_sre (step pins d).
Proof. unfold step; nsre. Qed.

Lemma iteration_no_sre s buf d : no_sre (iteration s buf d).
Proof. unfold iteration; apply step_no_sre. Qed.

#[local] Hint Resolve iteration_no_sre : nsre.

Lemma drain_no_sre buf d : no_sre (drain buf d).
Proof.
  revert d; induction buf as [|s buf IH]; intros d; simpl; nsre.
Qed.

#[local] Hint Resolve drain_no_sre : nsre.

Lemma feed_no_sre data buf d : no_sre (feed data buf d).
Proof.
  revert buf d; induction data as [|x data IH]; intros buf d; simpl; nsre.
Qed.

(** C1 (as amended). [decode] refuses to run, whatever the input and before
    reading any of it, when no sampling rate was supplied or the supplied rate
    is 0 (Python's [not self.samplerate]); with a non-zero rate it never
    raises [SamplerateError]: it fetches the first sample ([StopIteration] on an
    empty input) and runs the loop on the pre-filled lookahead buffer. *)
Theorem decode_precondition (d : Decoder) (data : list Sample) :
  match samplerate d with
  | None => decode data d = Raise SamplerateError
  | Some r =>
      if r =? 0 then decode data d = Raise SamplerateError
      else decode data d <> Raise SamplerateError
           /\ decode data d =
                match data with
                | [] => Raise StopIteration
                | first :: rest => feed rest (repeat first 192) d
                end
  end.
Proof.
  unfold decode.
  destruct (samplerate d) as [r|]; [ | reflexivity].
  destruct r as [|p|p]; simpl; [reflexivity | | ].
  - split; [ | reflexivity].
    destruct data as [|first rest]; [discriminate | apply feed_no_sre].
  - split; [ | reflexivity].
    destruct data as [|first rest]; [discriminate | apply feed_no_sre].
Qed.

(** C1, as stated, fails: a sampling rate of 0 supplied through [metadata] is
    stored, and [decode] still raises [SamplerateError]. *)
Lemma decode_rate_zero_refused :
  exists d, metadata 0 (init OptFullSpeed) = Ok d
            /\ samplerate d = Some 0
            /\ decode [(0, (1, 0))] d = Raise SamplerateError.
Proof. eexists; split; [reflexivity | split; reflexivity]. Qed.

(** ** The timing model (C2) *)

Lemma Qpower_two_pos (p : positive) :
  (Qpower (2 # 1) (Zpos p) == inject_Z (2 ^ Zpos p))%Q.
Proof.
  rewrite Zpower_Qpower by lia. reflexivity.
Qed.

Lemma Qpower_two_neg (p : positive) :
  (Qpower (2 # 1) (Zneg p) == 1 # (2 ^ p)%positive)%Q.
Proof.
  change (Zneg p) with (- Zpos p). rewrite Qpower_opp, Qpower_two_pos.
  unfold Qinv, inject_Z; cbn [Qnum Qden].
  rewrite <- Pos2Z.inj_pow. reflexivity.
Qed.

Lemma magnitude_floor (m : positive) (e : Z) :
  let v := (inject_Z (Zpos m) * Qpower (2 # 1) e)%Q in
  (0 <= v)%Q
  /\ Qfloor v = match e with
                | Z0 => Zpos m
                | Zpos p => Zpos m * 2 ^ Zpos p
                | Zneg p => Zpos m / 2 ^ Zpos p
                end.
Proof.
  intros v. subst v. destruct e as [|p|p].
  - split; [ | ].
    + cbn. unfold Qle; cbn; lia.
    + assert (E : (inject_Z (Zpos m) * Qpower (2 # 1) 0 == inject_Z (Zpos m))%Q)
        by (cbn [Qpower]; ring).
      rewrite E. apply Qfloor_Z.
  - assert (E : (inject_Z (Zpos m) * Qpower (2 # 1) (Zpos p)
                 == inject_Z (Zpos m * 2 ^ Zpos p))%Q).
    { rewrite Qpower_two_pos, inject_Z_mult. reflexivity. }
    rewrite E. split; [ | apply Qfloor_Z].
    unfold Qle, inject_Z; cbn [Qnum Qden].
    assert (0 < 2 ^ Zpos p) by (apply Z.pow_pos_nonneg; lia). nia.
  - assert (E : (inject_Z (Zpos m) * Qpower (2 # 1) (Zneg p)
                 == Zpos m # (2 ^ p)%positive)%Q).
    { rewrite Qpower_two_neg. unfold Qmult, inject_Z, Qeq; cbn [Qnum Qden].
      lia. }
    rewrite E. split.
    + unfold Qle; cbn [Qnum Qden]. lia.
    + unfold Qfloor. rewrite Pos2Z.inj_pow. reflexivity.
Qed.

(** [int()] truncates toward zero. *)
Lemma int_of_float_truncates (x : float) (z : Z) :
  int_of_float x = Ok z -> z = Qtrunc (F2Q x).
Proof.
  unfold int_of_float, F2Q, Qtrunc.
  destruct (Prim2SF x) as [s| | |s m e]; try discriminate.
  - intros H; injection H as <-. reflexivity.
  - intros H. destruct (magnitude_floor m e) as (Hpos & Hfl).
    cbv zeta in Hpos, Hfl, H |- *. rewrite <- Hfl in H.
    set (v := (inject_Z (Zpos m) * Qpower (2 # 1) e)%Q) in *.
    destruct s;
      [assert (Ez : z = - Qfloor v) by congruence
      | assert (Ez : z = Qfloor v) by congruence];
      rewrite Ez; clear H Ez.
    + destruct (Qle_bool 0 (- v)) eqn:E.
      * apply Qle_bool_iff in E.
        assert (Hz : (v == 0)%Q).
        { apply Qle_antisym; [ | exact Hpos].
          apply Qopp_le_compat in E. rewrite Qopp_involutive in E. exact E. }
        assert (Hv : Qfloor v = 0) by (rewrite Hz; reflexivity).
        assert (Hv' : Qfloor (- v) = 0) by (rewrite Hz; reflexivity).
        rewrite Hv, Hv'. reflexivity.
      * unfold Qceiling. rewrite Qopp_involutive. reflexivity.
    + replace (Qle_bool 0 v) with true
        by (symmetry; apply Qle_bool_iff; exact Hpos).
      reflexivity.
Qed.

Lemma add_n_shift (n : nat) (bw pos : float) :
  add_n n bw (pos + bw)%float = (add_n n bw pos + bw)%float.
Proof.
  induction n as [|n IH]; simpl; [reflexivity | now rewrite IH].
Qed.

(** [get_bit] updates the timing once, at its start, and keeps the bit width
    unless it leaves the packet. *)
Lemma get_bit_timing (sym : Sym) (d d' : Decoder) :
  get_bit sym d = Ok d' ->
  exists d1, set_new_target_samplenum d = Ok d1 /\ same_timing d1 d'
             /\ (state d' = GET_BIT \/ state d' = GET_EOP ->
                 bitwidth d' = bitwidth d).
Proof.
  unfold get_bit, handle_bit; intros H.
  apply bind_Ok in H; destruct H as (d1 & H1 & H).
  exists d1; split; [exact H1 | ].
  apply set_new_target_samplenum_Ok in H1.
  destruct H1 as (pos & bw & t & e & Hp & Hb & Ht & He & ->).
  inv H; split_ifs; subst; unfold same_timing; cbn; repeat split; auto;
    intros [?|?]; discriminate.
Qed.

Lemma get_eop_timing (sym : Sym) (d d' : Decoder) :
  get_eop sym d = Ok d' ->
  exists d1, set_new_target_samplenum d = Ok d1 /\ same_timing d1 d'
             /\ bitwidth d' = bitwidth d.
Proof.
  unfold get_eop; intros H.
  apply bind_Ok in H; destruct H as (d1 & H1 & H).
  exists d1; split; [exact H1 | ].
  apply set_new_target_samplenum_Ok in H1.
  destruct H1 as (pos & bw & t & e & Hp & Hb & Ht & He & ->).
  inv H; subst; unfold same_timing; cbn; repeat split; auto.
Qed.

Lemma bit_handler_timing (sym : Sym) (d d' : Decoder) (pos bw : float) :
  samplepos d = Some pos -> bitwidth d = Some bw ->
  get_bit sym d = Ok d' \/ get_eop sym d = Ok d' ->
  exists t e,
    int_of_float (pos + bw)%float = Ok t
    /\ int_of_float (pos + bw - bw / 2)%float = Ok e
    /\ samplepos d' = Some (pos + bw)%float
    /\ samplenum_target d' = Some t
    /\ samplenum_edge d' = Some e
    /\ samplenum_lastedge d' = samplenum_edge d.
Proof.
  intros Hp Hb H.
  assert (Hd1 : exists d1, set_new_target_samplenum d = Ok d1
                           /\ same_timing d1 d').
  { destruct H as [H|H].
    - apply get_bit_timing in H; destruct H as (d1 & ? & ? & _); eauto.
    - apply get_eop_timing in H; destruct H as (d1 & ? & ? & _); eauto. }
  destruct Hd1 as (d1 & H1 & (S1 & S2 & S3 & S4)).
  apply set_new_target_samplenum_Ok in H1.
  destruct H1 as (pos' & bw' & t & e & Hp' & Hb' & Ht & He & ->).
  rewrite Hp in Hp'; rewrite Hb in Hb'.
  injection Hp' as <-; injection Hb' as <-.
  exists t, e; cbn in *; auto 10.
Qed.

Lemma bits_decoded_samplepos (syms : list Sym) (d d' : Decoder) :
  bits_decoded syms d d' ->
  forall pos bw, samplepos d = Some pos -> bitwidth d = Some bw ->
  samplepos d' = Some (add_n (List.length syms) bw pos).
Proof.
  induction 1 as [d | sym syms d d1 d2 Hst Hh Hrest IH
                    | sym syms d d1 d2 Hst Hh Hrest IH]; intros pos bw Hp Hb.
  - exact Hp.
  - destruct (bit_handler_timing sym d d1 pos bw Hp Hb (or_introl Hh))
      as (t & e & _ & _ & Hp1 & _).
    apply get_bit_timing in Hh. destruct Hh as (_ & _ & _ & Hbw1).
    inversion Hrest as [d0 | s0 l0 d0 d3 d4 Hst1 | s0 l0 d0 d3 d4 Hst1]; subst.
    + exact Hp1.
    + rewrite (IH (pos + bw)%float bw Hp1); [ | rewrite Hbw1; auto].
      cbn [List.length add_n]. now rewrite add_n_shift.
    + rewrite (IH (pos + bw)%float bw Hp1); [ | rewrite Hbw1; auto].
      cbn [List.length add_n]. now rewrite add_n_shift.
  - destruct (bit_handler_timing sym d d1 pos bw Hp Hb (or_intror Hh))
      as (t & e & _ & _ & Hp1 & _).
    apply get_eop_timing in Hh. destruct Hh as (_ & _ & _ & Hbw1).
    rewrite (IH (pos + bw)%float bw Hp1); [ | congruence].
    cbn [List.length add_n]. now rewrite add_n_shift.
Qed.

Lemma add_n_exact (n : nat) (bw pos : float) :
  (forall k, (k < n)%nat ->
     (F2Q (add_n k bw pos + bw)%float == F2Q (add_n k bw pos) + F2Q bw)%Q) ->
  (F2Q (add_n n bw pos) == F2Q pos + inject_Z (Z.of_nat n) * F2Q bw)%Q.
Proof.
  induction n as [|n IH]; intros Hex.
  - simpl. ring.
  - cbn [add_n]. rewrite (Hex n) by lia.
    rewrite IH by (intros k Hk; apply Hex; lia).
    rewrite Nat2Z.inj_succ. unfold Z.succ. rewrite inject_Z_plus. ring.
Qed.

(** C2 (as amended). With running position [pos] and bit width [bw]:
    the timing update returns exactly when both truncations are defined, and
    then the position is [pos + bw], the target is [int(pos + bw)] and the
    edge is [int(pos + bw - bw/2)], [int] truncating toward zero (not
    rounding); each bit handler performs this update once; after [n]
    consecutive bits of a packet the position is [pos] with [bw] added [n]
    times, no truncated index ever feeding back into it, and that is
    [pos + n * bw] whenever the binary64 sums are exact. *)
Theorem timing_advance (d : Decoder) (pos bw : float)
    (Hpos : samplepos d = Some pos) (Hbw : bitwidth d = Some bw) :
  set_new_target_samplenum d =
    (t <- int_of_float (pos + bw)%float ;;
     e <- int_of_float (pos + bw - bw / 2)%float ;;
     Ok (set_samplenum_edge (Some e)
           (set_samplenum_lastedge (samplenum_edge d)
              (set_samplenum_target (Some t)
                 (set_samplepos (Some (pos + bw)%float) d)))))
  /\ (forall sym d',
        get_bit sym d = Ok d' \/ get_eop sym d = Ok d' ->
        exists t e,
          int_of_float (pos + bw)%float = Ok t
          /\ int_of_float (pos + bw - bw / 2)%float = Ok e
          /\ t = Qtrunc (F2Q (pos + bw)%float)
          /\ e = Qtrunc (F2Q (pos + bw - bw / 2)%float)
          /\ samplepos d' = Some (pos + bw)%float
          /\ samplenum_target d' = Some t
          /\ samplenum_edge d' = Some e
          /\ samplenum_lastedge d' = samplenum_edge d)
  /\ (forall syms d',
        bits_decoded syms d d' ->
        let n := List.length syms in
        samplepos d' = Some (add_n n bw pos)
        /\ ((forall k, (k < n)%nat ->
               (F2Q (add_n k bw pos + bw)%float
                == F2Q (add_n k bw pos) + F2Q bw)%Q) ->
            (F2Q (add_n n bw pos)
             == F2Q pos + inject_Z (Z.of_nat n) * F2Q bw)%Q)).
Proof.
  split; [apply set_new_target_samplenum_eq; assumption | ].
  split.
  - intros sym d' H.
    destruct (bit_handler_timing sym d d' pos bw Hpos Hbw H)
      as (t & e & Ht & He & Hrest).
    exists t, e. split; [exact Ht | split; [exact He | ]].
    split; [now apply int_of_float_truncates | ].
    split; [now apply int_of_float_truncates | exact Hrest].
  - intros syms d' H n. split.
    + eapply bits_decoded_samplepos; eauto.
    + apply add_n_exact.
Qed.

Lemma timing_advance_witness :
  samplepos in_packet_fs18 = Some 8.25%float
  /\ bitwidth in_packet_fs18 = Some 1.5%float
  /\ exists d', set_new_target_samplenum in_packet_fs18 = Ok d'
                /\ samplepos d' = Some 9.75%float
                /\ samplenum_target d' = Some 9
                /\ samplenum_edge d' = Some 9.
Proof.
  split; [reflexivity | split; [reflexivity | ]].
  eexists; split.
  - rewrite (proj1 (timing_advance in_packet_fs18 8.25%float 1.5%float
                      eq_refl eq_refl)).
    vm_compute. reflexivity.
  - vm_compute. repeat split; reflexivity.
Defined.

(** C2, as stated, fails: the target is the truncation of the position, not
    its rounding. At 18 MHz, in the packet of [stream_fs18], the third bit
    has position 9.75 and target 9, where rounding gives 10. *)
Lemma target_not_rounded :
  run_decode 18000000 OptFullSpeed stream_fs18 = Ok in_packet_fs18
  /\ state in_packet_fs18 = GET_BIT
  /\ exists d', set_new_target_samplenum in_packet_fs18 = Ok d'
                /\ samplepos d' = Some 9.75%float
                /\ samplenum_target d' = Some 9
                /\ round_half_even 9.75%float = Ok 10
                /\ samplenum_target d' <> Some 10.
Proof.
  split; [vm_compute; reflexivity | split; [vm_compute; reflexivity | ]].
  eexists; split; [vm_compute; reflexivity | ].
  repeat split; try (vm_compute; reflexivity).
  vm_compute; discriminate.
Qed.

(** ** Start-of-packet alignment (C3) *)

(** The walk of [samplepos_quality] moves by whole bit widths: its result is
    the start position with [bw] added once per J or K it visited. *)
Lemma quality_loop_walk sg bw buf p q :
  quality_loop sg bw buf p = Ok q ->
  exists k, (k <= List.length buf)%nat /\ q = add_n k bw p.
Proof.
  revert p; induction buf as [|[sn pins] rest IH]; intros p H; simpl in H.
  - injection H as <-. exists 0%nat; split; [lia | reflexivity].
  - apply bind_Ok in H; destruct H as (t & Ht & H).
    destruct (sn <? t).
    + destruct (IH _ H) as (k & Hk & ->). exists k; split; [simpl; lia | auto].
    + apply bind_Ok in H; destruct H as (m & Hm & H).
      apply bind_Ok in H; destruct H as (s & Hs & H).
      destruct s;
        try (injection H as <-; exists 0%nat; split; [simpl; lia | reflexivity]);
        destruct (IH _ H) as (k & Hk & ->); exists (S k);
        (split; [simpl; lia | simpl; apply add_n_shift]).
Qed.

(** The three moves of the walk over one buffered sample. *)
Lemma quality_loop_skip sg bw sn pins rest p t :
  int_of_float p = Ok t -> sn < t ->
  quality_loop sg bw ((sn, pins) :: rest) p = quality_loop sg bw rest p.
Proof.
  intros Ht Hlt; simpl. rewrite Ht; simpl.
  apply Z.ltb_lt in Hlt. now rewrite Hlt.
Qed.

Lemma quality_loop_visit m bw sn pins rest p t s :
  int_of_float p = Ok t -> t <= sn -> classify m pins = Ok s ->
  quality_loop (Some m) bw ((sn, pins) :: rest) p =
    if Sym_eqb s J || Sym_eqb s K
    then quality_loop (Some m) bw rest (p + bw)%float
    else Ok p.
Proof.
  intros Ht Hle Hs; simpl. rewrite Ht; simpl.
  apply Z.ltb_ge in Hle. rewrite Hle. rewrite Hs; simpl.
  destruct s; reflexivity.
Qed.

Lemma samplepos_quality_walk d bw p q :
  bitwidth d = Some bw -> samplepos_quality d p = Ok q ->
  exists k, (k <= List.length (lookahead_buffer d))%nat
            /\ q = add_n k bw (p + bw * 2)%float.
Proof.
  unfold samplepos_quality; intros Hb H. rewrite Hb in H; simpl in H.
  now apply quality_loop_walk in H.
Qed.

(** The loop of [samplepos_quality] is the walk of the specification: it
    returns [q] exactly when the walk from the same position ends at [q]. *)
Lemma quality_loop_walks m bw buf p q :
  quality_loop (Some m) bw buf p = Ok q -> walk_until_not_JK m bw buf p q.
Proof.
  revert p; induction buf as [|[sn pins] rest IH]; intros p H; simpl in H.
  - injection H as <-. constructor.
  - apply bind_Ok in H; destruct H as (t & Ht & H).
    destruct (sn <? t) eqn:E.
    + apply Z.ltb_lt in E. eapply walk_passed_over; eauto.
    + apply Z.ltb_ge in E. cbn [bind] in H.
      apply bind_Ok in H; destruct H as (s & Hs & H).
      destruct s;
        first [ injection H as <-; eapply walk_found; eauto; discriminate
              | eapply walk_on; eauto ].
Qed.

Lemma walk_quality_loop m bw buf p q :
  walk_until_not_JK m bw buf p q -> quality_loop (Some m) bw buf p = Ok q.
Proof.
  induction 1 as [p | sn pins rest p q t Ht Hlt _ IH
                 | sn pins rest p t s Ht Hle Hs HJ HK
                 | sn pins rest p q t s Ht Hle Hs HJK _ IH].
  - reflexivity.
  - rewrite (quality_loop_skip _ _ _ _ _ _ _ Ht Hlt). exact IH.
  - rewrite (quality_loop_visit _ _ _ _ _ _ _ _ Ht Hle Hs).
    destruct s; try congruence; reflexivity.
  - rewrite (quality_loop_visit _ _ _ _ _ _ _ _ Ht Hle Hs).
    destruct HJK as [-> | ->]; exact IH.
Qed.

Lemma samplepos_quality_walks d m bw p q :
  bitwidth d = Some bw -> signalling d = Some m ->
  samplepos_quality d p = Ok q ->
  walk_until_not_JK m bw (lookahead_buffer d) (p + bw * 2)%float q
  /\ forall q', walk_until_not_JK m bw (lookahead_buffer d) (p + bw * 2)%float q'
                -> q' = q.
Proof.
  unfold samplepos_quality; intros Hb Hm H. rewrite Hb, Hm in H; simpl in H.
  split; [apply quality_loop_walks; exact H | ].
  intros q' Hw. apply walk_quality_loop in Hw. congruence.
Qed.

(** C3 (as amended). On a confirmed SOP (symbol K after J) the nominal start
    is [samplenum - 0.5 - bw/2], moved back by half a sample when the recorded
    edge sample does not classify as J (so in particular when it is SE0 or
    SE1); each candidate (offset 0 and +1) is scored by the walk that starts 2
    bit widths past it and goes through the lookahead buffer, passing over the
    samples before the truncated position, moving one bit width on at each
    sample it visits that is J or K, and ending at the first one it visits
    that is neither (or with the buffer); the score is the one position that
    walk ends at, so the start plus 2 bit widths plus one bit width per J or
    K visited; offset +1 is taken exactly when its score is strictly HIGHER
    than that of offset 0, otherwise offset 0; the first bit is then timed from
    the chosen start plus the freshly recomputed bit width. *)
Theorem sop_alignment (d d' : Decoder)
    (Hold : oldsym d = J) (Hsop : wait_for_sop K d = Ok d') :
  exists fsn bw bw' sg nominal q0 q1 k0 k1,
    float_of_int (samplenum d) = Ok fsn
    /\ bitwidth d = Some bw
    /\ signalling d = Some sg
    /\ (edgepins d = None /\ nominal = (fsn - 0.5 - bw / 2)%float
        \/ exists ep s,
             edgepins d = Some ep /\ classify sg ep = Ok s
             /\ nominal = if Sym_eqb s J
                          then (fsn - 0.5 - bw / 2)%float
                          else (fsn - 0.5 - bw / 2 - 0.5)%float)
    /\ samplepos_quality d nominal = Ok q0
    /\ walk_until_not_JK sg bw (lookahead_buffer d) (nominal + bw * 2)%float q0
    /\ (forall q, walk_until_not_JK sg bw (lookahead_buffer d)
                    (nominal + bw * 2)%float q -> q = q0)
    /\ q0 = add_n k0 bw (nominal + bw * 2)%float
    /\ samplepos_quality d (nominal + 1)%float = Ok q1
    /\ walk_until_not_JK sg bw (lookahead_buffer d)
         (nominal + 1 + bw * 2)%float q1
    /\ (forall q, walk_until_not_JK sg bw (lookahead_buffer d)
                    (nominal + 1 + bw * 2)%float q -> q = q1)
    /\ q1 = add_n k1 bw (nominal + 1 + bw * 2)%float
    /\ (k0 <= List.length (lookahead_buffer d))%nat
    /\ (k1 <= List.length (lookahead_buffer d))%nat
    /\ bitwidth d' = Some bw'
    /\ samplepos d' =
         Some ((if PrimFloat.ltb q0 q1 then nominal + 1 else nominal) + bw')%float
    /\ state d' = GET_BIT.
Proof.
  unfold wait_for_sop in Hsop. rewrite Hold in Hsop. cbn in Hsop.
  apply bind_Ok in Hsop; destruct Hsop as (fsn & Hfsn & H).
  apply bind_Ok in H; destruct H as (bw & Hbw & H). apply need_Ok in Hbw.
  apply bind_Ok in H; destruct H as (nominal & Hnom & H).
  apply bind_Ok in H; destruct H as (q0 & Hq0 & H).
  apply bind_Ok in H; destruct H as (q1 & Hq1 & H).
  assert (Hq0' : samplepos_quality d nominal = Ok q0) by exact Hq0.
  assert (Hq1' : samplepos_quality d (nominal + 1)%float = Ok q1) by exact Hq1.
  assert (Hpost : exists bw',
             bitwidth d' = Some bw'
             /\ samplepos d' =
                  Some ((if PrimFloat.ltb q0 q1 then nominal + 1 else nominal)
                        + bw')%float
             /\ state d' = GET_BIT).
  { inv H. subst. cbn in *. injection Hbw1 as <-.
    destruct (PrimFloat.ltb q0 q1); cbn in *; injection Hpos as <-; eauto. }
  assert (Hmode : exists sg, signalling d = Some sg).
  { inv H. subst. destruct (PrimFloat.ltb q0 q1); cbn in Hsg; eauto. }
  destruct Hpost as (bw' & Hbw' & Hpos' & Hst').
  destruct Hmode as (sg & Hsg).
  destruct (samplepos_quality_walk d bw _ _ Hbw Hq0') as (k0 & Hk0 & Eq0).
  destruct (samplepos_quality_walk d bw _ _ Hbw Hq1') as (k1 & Hk1 & Eq1).
  destruct (samplepos_quality_walks d sg bw _ _ Hbw Hsg Hq0') as (Hw0 & Hu0).
  destruct (samplepos_quality_walks d sg bw _ _ Hbw Hsg Hq1') as (Hw1 & Hu1).
  exists fsn, bw, bw', sg, nominal, q0, q1, k0, k1.
  split; [exact Hfsn | ]. split; [exact Hbw | ]. split; [exact Hsg | ].
  split.
  - destruct (edgepins d) as [ep|].
    + right. unfold get_signalling in Hnom. cbn in Hnom. rewrite Hsg in Hnom.
      cbn in Hnom. inv Hnom. subst. eauto 10.
    + left. injection Hnom as <-. auto.
  - repeat (split; [first [assumption | reflexivity] | ]). assumption.
Qed.

Lemma sop_alignment_witness :
  oldsym at_first_K_fs48 = J
  /\ wait_for_sop K at_first_K_fs48 = Ok after_first_K_fs48
  /\ samplepos_quality at_first_K_fs48 17.5%float = Ok 37.5%float
  /\ samplepos_quality at_first_K_fs48 18.5%float = Ok 38.5%float
  /\ walk_until_not_JK FullSpeed 4%float (lookahead_buffer at_first_K_fs48)
       (17.5 + 4 * 2)%float 37.5%float
  /\ walk_until_not_JK FullSpeed 4%float (lookahead_buffer at_first_K_fs48)
       (17.5 + 1 + 4 * 2)%float 38.5%float
  /\ samplepos after_first_K_fs48 = Some 22.5%float
  /\ state after_first_K_fs48 = GET_BIT.
Proof.
  assert (H1 : oldsym at_first_K_fs48 = J) by (vm_compute; reflexivity).
  assert (H2 : wait_for_sop K at_first_K_fs48 = Ok after_first_K_fs48)
    by (vm_compute; reflexivity).
  split; [exact H1 | ]. split; [exact H2 | ].
  split; [vm_compute; reflexivity | ]. split; [vm_compute; reflexivity | ].
  destruct (sop_alignment _ _ H1 H2)
    as (fsn & bw & bw' & sg & nominal & q0 & q1 & k0 & k1
        & Hfsn & Hbw & Hsg & Hnom & Hq0 & Hw0 & _ & _ & Hq1 & Hw1 & _ & _ & _
        & _ & _ & Hpos & Hst).
  assert (Efsn : Ok fsn = Ok 20%float)
    by (rewrite <- Hfsn; vm_compute; reflexivity).
  assert (Ebw : Some bw = Some 4%float)
    by (rewrite <- Hbw; vm_compute; reflexivity).
  assert (Esg : Some sg = Some FullSpeed)
    by (rewrite <- Hsg; vm_compute; reflexivity).
  injection Efsn as ->. injection Ebw as ->. injection Esg as ->.
  assert (Enom : nominal = 17.5%float).
  { destruct Hnom as [(_ & ->) | (ep & s & Hep & _)].
    - vm_compute. reflexivity.
    - exfalso. vm_compute in Hep. discriminate Hep. }
  subst nominal.
  assert (E0 : Ok q0 = Ok 37.5%float)
    by (rewrite <- Hq0; vm_compute; reflexivity).
  assert (E1 : Ok q1 = Ok 38.5%float)
    by (rewrite <- Hq1; vm_compute; reflexivity).
  injection E0 as ->. injection E1 as ->.
  split; [exact Hw0 | ]. split; [exact Hw1 | ].
  split; [vm_compute; reflexivity | exact Hst].
Defined.

(** C3, as stated, fails: the candidate taken is not the one with the lower
    score. In the run over [stream_fs48], at the first K, offset 0 (start
    17.5) scores 37.5 and offset +1 (start 18.5) scores 38.5; offset +1 is
    taken: the first bit is timed from 18.5 + 4 = 22.5 and the SOP is put at
    sample 20. *)
Lemma sop_takes_higher_score :
  oldsym at_first_K_fs48 = J
  /\ edgepins at_first_K_fs48 = None
  /\ samplenum at_first_K_fs48 = 20
  /\ bitwidth at_first_K_fs48 = Some 4%float
  /\ samplepos_quality at_first_K_fs48 17.5%float = Ok 37.5%float
  /\ samplepos_quality at_first_K_fs48 18.5%float = Ok 38.5%float
  /\ PrimFloat.ltb 37.5%float 38.5%float = true
  /\ wait_for_sop K at_first_K_fs48 = Ok after_first_K_fs48
  /\ samplepos after_first_K_fs48 = Some (18.5 + 4)%float
  /\ In (Py 20 20 SOP)
        (log (final OptFullSpeed
                (run_decode 48000000 OptFullSpeed stream_fs48))).
Proof.
  do 9 (split; [vm_compute; reflexivity | ]).
  vm_compute. left. reflexivity.
Qed.

(** ** Bit stuffing (C4) *)

(** The helpers, run forward when the attributes they read are known. *)

Lemma putpb_eq p d s e :
  samplenum_lastedge d = Some s -> samplenum_edge d = Some e ->
  putpb p d = Ok (put (Py s e p) d).
Proof. unfold putpb; intros -> ->; reflexivity. Qed.

Lemma putb_eq c t d s e :
  samplenum_lastedge d = Some s -> samplenum_edge d = Some e ->
  putb c t d = Ok (put (Ann s e c t) d).
Proof. unfold putb; intros -> ->; reflexivity. Qed.

Lemma putpx_eq p d s :
  samplenum_edge d = Some s -> putpx p d = Ok (put (Py s s p) d).
Proof. unfold putpx; intros ->; reflexivity. Qed.

Lemma putx_eq c t d s :
  samplenum_edge d = Some s -> putx c t d = Ok (put (Ann s s c t) d).
Proof. unfold putx; intros ->; reflexivity. Qed.

Lemma putpm_eq p d s e :
  ss_block d = Some s -> samplenum_edge d = Some e ->
  putpm p d = Ok (put (Py s e p) d).
Proof. unfold putpm; intros -> ->; reflexivity. Qed.

Lemma putm_eq c t d s e :
  ss_block d = Some s -> samplenum_edge d = Some e ->
  putm c t d = Ok (put (Ann s e c t) d).
Proof. unfold putm; intros -> ->; reflexivity. Qed.

Lemma update_bitrate_eq d sg r fr br fbr bw :
  signalling d = Some sg -> samplerate d = Some r -> float_of_int r = Ok fr ->
  bitrates sg = Some br -> float_of_int br = Ok fbr ->
  float_div fr fbr = Ok bw ->
  update_bitrate d = Ok (set_bitwidth (Some bw) (set_bitrate (Some br) d)).
Proof.
  unfold update_bitrate, get_signalling; intros -> Hr Hfr Hbr Hfbr Hbw. cbn.
  rewrite Hbr, Hr; cbn. rewrite Hfr; cbn. rewrite Hfbr; cbn. rewrite Hbw.
  reflexivity.
Qed.

Ltac fields :=
  cbn [bind need fst snd put
       options_signalling samplerate signalling oldsym ss_block samplenum
       bitrate bitwidth samplepos samplenum_target samplenum_edge
       samplenum_lastedge oldpins edgepins consecutive_ones bits state
       lookahead_buffer log
       set_samplerate set_signalling set_oldsym set_ss_block set_samplenum
       set_bitrate set_bitwidth set_samplepos set_samplenum_target
       set_samplenum_edge set_samplenum_lastedge set_oldpins set_edgepins
       set_consecutive_ones set_bits set_state set_lookahead_buffer set_log].

Ltac fields_in H :=
  cbn [bind need fst snd put
       options_signalling samplerate signalling oldsym ss_block samplenum
       bitrate bitwidth samplepos samplenum_target samplenum_edge
       samplenum_lastedge oldpins edgepins consecutive_ones bits state
       lookahead_buffer log
       set_samplerate set_signalling set_oldsym set_ss_block set_samplenum
       set_bitrate set_bitwidth set_samplepos set_samplenum_target
       set_samplenum_edge set_samplenum_lastedge set_oldpins set_edgepins
       set_consecutive_ones set_bits set_state set_lookahead_buffer set_log]
    in H.

Ltac run1 :=
  first
    [ erewrite putpb_eq by (fields; eauto)
    | erewrite putb_eq by (fields; eauto)
    | erewrite putpx_eq by (fields; eauto)
    | erewrite putx_eq by (fields; eauto)
    | erewrite putpm_eq by (fields; eauto)
    | erewrite putm_eq by (fields; eauto)
    | erewrite update_bitrate_eq
        by (fields; first [eassumption | reflexivity]) ];
  fields.

Lemma get_bit_returns (sym : Sym) (d : Decoder) :
  in_packet_ready d -> sym <> FS_J -> sym <> LS_J ->
  exists d', get_bit sym d = Ok d'.
Proof.
  intros ((pos & bw & t & e & Hp & Hb & Ht & He) & (r & fr & Hr & Hfr)
          & (e0 & He0) & (bs & Hbs)) Hs1 Hs2.
  unfold get_bit, handle_bit.
  rewrite (set_new_target_samplenum_eq d pos bw Hp Hb), Ht; cbn [bind].
  rewrite He; fields.
  destruct sym; try congruence; cbn [Sym_eqb sym_annotation];
  destruct (negb (Sym_eqb (oldsym d) _));
  destruct (consecutive_ones d =? 6); cbn [String.eqb Ascii.eqb Bool.eqb]; fields;
  repeat run1; rewrite ?Hbs; fields;
  destruct (Z.of_nat (String.length bs) <=? 16); fields; rewrite ?Hbs; fields;
  match goal with |- context [if ?c then _ else _] => destruct c end;
  repeat run1; eauto.
Qed.

(** A symbol test that fails leaves [wait_for_sop] without effect. *)
Lemma wait_for_sop_idle (sym : Sym) (d : Decoder) :
  sym <> K \/ oldsym d <> J -> wait_for_sop sym d = Ok d.
Proof.
  unfold wait_for_sop; intros [H|H].
  - destruct sym; try congruence; reflexivity.
  - destruct sym; try reflexivity. destruct (oldsym d); try reflexivity.
    congruence.
Qed.

(** What a start of packet sets up. *)
Lemma wait_for_sop_fires (d d' : Decoder) :
  oldsym d = J -> wait_for_sop K d = Ok d' ->
  consecutive_ones d' = 0
  /\ bits d' = Some ""%string
  /\ state d' = GET_BIT
  /\ signalling d' = signalling d
  /\ oldsym d' = J
  /\ exists e, samplenum_edge d' = Some e
               /\ log d' = log d ++ [Py e e SOP;
                                     Ann e e 4 ["SOP"%string; "S"%string]].
Proof.
  intros Hold H. unfold wait_for_sop in H. rewrite Hold in H.
  cbn [Sym_eqb negb orb] in H.
  inv H; split_ifs; subst; fields; fields_in Hs; fields_in Hs0;
    rewrite <- ?app_assoc; repeat split; auto;
    injection Hs as <-; injection Hs0 as <-; eexists; split; reflexivity.
Qed.

Lemma get_bit_stuffing (sym : Sym) (d d' : Decoder) :
  sym <> SE0 -> get_bit sym d = Ok d' ->
  exists evs,
    log d' = log d ++ evs
    /\ (consecutive_ones d = 6 -> nrzi_bit d sym = "0"%string ->
        count STUFF_BIT evs = 1%nat /\ count_bits evs = 0%nat
        /\ count ERR evs = 0%nat /\ consecutive_ones d' = 0)
    /\ (consecutive_ones d = 6 -> nrzi_bit d sym = "1"%string ->
        count ERR evs = 1%nat /\ count_bits evs = 0%nat
        /\ count STUFF_BIT evs = 0%nat /\ state d' = IDLE)
    /\ (consecutive_ones d <> 6 ->
        count (BIT (nrzi_bit d sym)) evs = 1%nat /\ count_bits evs = 1%nat
        /\ count STUFF_BIT evs = 0%nat /\ count ERR evs = 0%nat
        /\ consecutive_ones d' =
             if String.eqb (nrzi_bit d sym) "1"
             then consecutive_ones d + 1 else 0).
Proof.
  intros Hsym H. unfold get_bit, handle_bit in H.
  apply bind_Ok in H; destruct H as (d1 & H1 & H).
  apply set_new_target_samplenum_Ok in H1.
  destruct H1 as (pos & bw & t & e & Hp & Hb & Ht & He & ->).
  unfold nrzi_bit. fields_in H.
  destruct (negb (Sym_eqb (oldsym d) sym));
    (destruct sym; try congruence; cbn [Sym_eqb] in H);
    inv H; split_ifs; subst; fields;
    try match goal with
        | H : String.eqb _ _ = _ |- _ => vm_compute in H; discriminate H
        end.
  all: rewrite <- ?app_assoc; eexists; (split; [reflexivity | ]).
  all: repeat match goal with
       | H : (_ =? _) = true |- _ => apply Z.eqb_eq in H
       | H : (_ =? _) = false |- _ => apply Z.eqb_neq in H
       end.
  all: repeat split; intros; try congruence; try discriminate; try reflexivity.
Qed.

(** C4. A bit of a packet that is not the SE0 of an EOP is decoded whenever
    the decoder is set up for it, and then: with six consecutive ones counted,
    a '0' gives exactly one STUFF BIT packet, no BIT packet, and resets the
    counter; a '1' gives exactly one ERR packet, no BIT packet, and forces the
    state to IDLE; otherwise exactly one BIT packet carries the bit and the
    counter is incremented on '1' and reset on '0'. A start of packet resets
    the counter to 0. *)
Theorem bit_stuffing :
  (forall sym d,
      in_packet_ready d -> sym <> FS_J -> sym <> LS_J ->
      exists d', get_bit sym d = Ok d')
  /\ (forall sym d d',
        sym <> SE0 -> get_bit sym d = Ok d' ->
        exists evs,
          log d' = log d ++ evs
          /\ (consecutive_ones d = 6 -> nrzi_bit d sym = "0"%string ->
              count STUFF_BIT evs = 1%nat /\ count_bits evs = 0%nat
              /\ count ERR evs = 0%nat /\ consecutive_ones d' = 0)
          /\ (consecutive_ones d = 6 -> nrzi_bit d sym = "1"%string ->
              count ERR evs = 1%nat /\ count_bits evs = 0%nat
              /\ count STUFF_BIT evs = 0%nat /\ state d' = IDLE)
          /\ (consecutive_ones d <> 6 ->
              count (BIT (nrzi_bit d sym)) evs = 1%nat
              /\ count_bits evs = 1%nat
              /\ count STUFF_BIT evs = 0%nat /\ count ERR evs = 0%nat
              /\ consecutive_ones d' =
                   if String.eqb (nrzi_bit d sym) "1"
                   then consecutive_ones d + 1 else 0))
  /\ (forall d d',
        oldsym d = J -> wait_for_sop K d = Ok d' -> consecutive_ones d' = 0).
Proof.
  split; [exact get_bit_returns | split; [exact get_bit_stuffing | ]].
  intros d d' Hold H. now apply (wait_for_sop_fires d d' Hold H).
Qed.

Lemma six_ones_ready : in_packet_ready six_ones_fs48.
Proof.
  split; [ | split; [ | split]].
  - exists 50.5%float, 4%float, 54, 52.
    repeat split; vm_compute; reflexivity.
  - exists 48000000, 48000000%float. split; vm_compute; reflexivity.
  - exists 48. vm_compute; reflexivity.
  - exists "0111111"%string. vm_compute; reflexivity.
Defined.

Lemma bit_stuffing_witness :
  in_packet_ready six_ones_fs48
  /\ consecutive_ones six_ones_fs48 = 6
  /\ nrzi_bit six_ones_fs48 K = "1"%string
  /\ get_bit K six_ones_fs48 = Ok after_seventh_one
  /\ state after_seventh_one = IDLE
  /\ (exists d', get_bit J six_ones_fs48 = Ok d')
  /\ oldsym at_first_K_fs48 = J
  /\ wait_for_sop K at_first_K_fs48 = Ok after_first_K_fs48
  /\ consecutive_ones after_first_K_fs48 = 0.
Proof.
  assert (Hc : consecutive_ones six_ones_fs48 = 6) by (vm_compute; reflexivity).
  assert (Hb : nrzi_bit six_ones_fs48 K = "1"%string)
    by (vm_compute; reflexivity).
  assert (Hg : get_bit K six_ones_fs48 = Ok after_seventh_one)
    by (vm_compute; reflexivity).
  assert (Ho : oldsym at_first_K_fs48 = J) by (vm_compute; reflexivity).
  assert (Hw : wait_for_sop K at_first_K_fs48 = Ok after_first_K_fs48)
    by (vm_compute; reflexivity).
  assert (HK : K <> SE0) by discriminate.
  assert (HJ1 : J <> FS_J) by discriminate.
  assert (HJ2 : J <> LS_J) by discriminate.
  destruct bit_stuffing as (Hret & Hbit & Hsop).
  destruct (Hbit K six_ones_fs48 after_seventh_one HK Hg)
    as (evs & _ & _ & Herr & _).
  split; [exact six_ones_ready | ].
  split; [exact Hc | split; [exact Hb | split; [exact Hg | ]]].
  split; [exact (proj2 (proj2 (proj2 (Herr Hc Hb)))) | ].
  split; [exact (Hret J six_ones_fs48 six_ones_ready HJ1 HJ2) | ].
  split; [exact Ho | split; [exact Hw | ]].
  exact (Hsop at_first_K_fs48 after_first_K_fs48 Ho Hw).
Defined.

(** ** End of packet (C5) *)

Lemma count_app p l1 l2 : count p (l1 ++ l2) = (count p l1 + count p l2)%nat.
Proof. unfold count. now rewrite filter_app, length_app. Qed.

Ltac fields_all :=
  repeat match goal with
         | H : _ |- _ => progress (fields_in H)
         end;
  fields.

Ltac inj_all :=
  repeat match goal with
         | H : Some _ = Some _ |- _ => injection H as H
         | H : Ok _ = Ok _ |- _ => injection H as H
         | H : ?x = ?y |- _ => first [is_var x; subst x | is_var y; subst y]
         | H1 : ?a = Some _, H2 : ?a = Some _ |- _ => rewrite H1 in H2
         end.

(** The SE0 that opens an EOP: the state becomes GET EOP unless the bit
    completes the preamble pattern; the block start is the edge index current
    when the SE0 was sampled. *)
Lemma get_bit_se0 (d d1 : Decoder) :
  get_bit SE0 d = Ok d1 -> state d1 = GET_EOP ->
  exists s e,
    samplenum_edge d = Some s
    /\ ss_block d1 = Some s
    /\ samplenum_edge d1 = Some e
    /\ log d1 = log d ++ [Py s e (SYM SE0);
                          Ann s e 2 ["SE0"%string; "0"%string]].
Proof.
  intros H Hst. unfold get_bit in H.
  apply bind_Ok in H; destruct H as (d0 & H0 & H).
  apply set_new_target_samplenum_Ok in H0.
  destruct H0 as (pos & bw & t & e & Hp & Hb & Ht & He & ->).
  cbn [Sym_eqb sym_annotation] in H.
  inv H; split_ifs; subst; fields_all; try discriminate; inj_all;
    rewrite <- ?app_assoc; cbn [app]; eauto 10.
Qed.

Lemma get_eop_se0 (d d1 : Decoder) :
  get_eop SE0 d = Ok d1 ->
  state d1 = state d /\ ss_block d1 = ss_block d
  /\ exists s e, log d1 = log d ++ [Py s e (SYM SE0);
                                    Ann s e 2 ["SE0"%string; "0"%string]].
Proof.
  intros H. unfold get_eop in H. cbn [sym_annotation] in H.
  inv H; subst; fields_all; inj_all.
  rewrite <- ?app_assoc; cbn [app]. repeat split; eauto.
Qed.

Lemma get_eop_last (last : Sym) (d d' : Decoder) :
  last <> SE0 -> get_eop last d = Ok d' ->
  exists b sJ e a,
    ss_block d = Some b /\ samplenum_edge d' = Some e
    /\ samplenum_lastedge d' = Some sJ
    /\ sym_annotation last = Ok a
    /\ (last = J ->
        state d' = WAIT_IDLE
        /\ log d' = log d ++ [Py sJ e (SYM J); Ann sJ e (fst a) (snd a);
                              Py b e EOP; Ann b e 5 ["EOP"%string; "E"%string]])
    /\ (last <> J ->
        state d' = IDLE
        /\ log d' = log d ++ [Py sJ e (SYM last); Ann sJ e (fst a) (snd a);
                              Py b e ERR;
                              Ann b e 8 ["EOP Error"%string; "EErr"%string;
                                         "E"%string]]).
Proof.
  intros Hl H. unfold get_eop in H.
  apply bind_Ok in H; destruct H as (d0 & H0 & H).
  apply set_new_target_samplenum_Ok in H0.
  destruct H0 as (pos & bw & t & e & Hp & Hb & Ht & He & ->).
  destruct last; try congruence; cbn [sym_annotation] in H;
    inv H; subst; fields_all; inj_all;
    rewrite <- ?app_assoc; cbn [app];
    eexists _, _, _, _; (repeat split; try reflexivity; eauto);
    intros; try congruence; split; reflexivity.
Qed.

Lemma get_bit_se0_state (d d1 : Decoder) :
  get_bit SE0 d = Ok d1 -> state d1 = GET_EOP \/ state d1 = IDLE.
Proof.
  intros H. unfold get_bit in H.
  apply bind_Ok in H; destruct H as (d0 & H0 & H).
  cbn [Sym_eqb sym_annotation] in H.
  inv H; split_ifs; subst; fields_all; auto.
Qed.

Lemma get_eop_returns (sym : Sym) (d : Decoder) :
  timing_defined d ->
  (exists e0, samplenum_edge d = Some e0) ->
  (exists b, ss_block d = Some b) ->
  sym <> FS_J -> sym <> LS_J ->
  exists d', get_eop sym d = Ok d'.
Proof.
  intros (pos & bw & t & e & Hp & Hb & Ht & He) (e0 & He0) (b & Hsb) Hs1 Hs2.
  unfold get_eop.
  rewrite (set_new_target_samplenum_eq d pos bw Hp Hb), Ht; cbn [bind].
  rewrite He; fields.
  destruct sym; try congruence; cbn [sym_annotation]; repeat run1; eauto.
Qed.

(** Further SE0 bit periods, then the symbol that ends the run. *)
Lemma eop_tail (n : nat) (last : Sym) (b : Z) :
  last <> SE0 ->
  forall d d',
    state d = GET_EOP -> ss_block d = Some b ->
    bits_decoded (repeat SE0 n ++ [last]) d d' ->
    exists evs e sJ,
      log d' = log d ++ evs
      /\ samplenum_edge d' = Some e
      /\ (last = J ->
          state d' = WAIT_IDLE
          /\ count EOP evs = 1%nat /\ count ERR evs = 0%nat
          /\ In (Py b e EOP) evs /\ In (Py sJ e (SYM J)) evs)
      /\ (last <> J ->
          state d' = IDLE
          /\ count ERR evs = 1%nat /\ count EOP evs = 0%nat
          /\ In (Py b e ERR) evs).
Proof.
  intros Hl. induction n as [|n IH]; intros d d' Hst Hsb Hrun; simpl in Hrun.
  - inversion Hrun as [ | s0 l0 d0 d1 d2 Hst0 Hh Hr | s0 l0 d0 d1 d2 Hst0 Hh Hr];
      subst; [congruence | ].
    inversion Hr; subst.
    destruct (get_eop_last last d d' Hl Hh)
      as (b' & sJ & e & a & Hb' & He & HsJ & Ha & HJ & HnJ).
    rewrite Hsb in Hb'; injection Hb' as <-.
    destruct (Sym_eqb last J) eqn:EJ.
    + assert (last = J) by (destruct last; try discriminate; reflexivity).
      subst last. destruct (HJ eq_refl) as (Hs' & Hlog).
      eexists _, e, sJ. split; [exact Hlog | split; [exact He | ]].
      split; [ | congruence].
      intros _. split; [exact Hs' | ].
      split; [reflexivity | split; [reflexivity | ]].
      split; simpl; auto.
    + assert (HnotJ : last <> J) by (intros ->; discriminate).
      destruct (HnJ HnotJ) as (Hs' & Hlog).
      eexists _, e, sJ. split; [exact Hlog | split; [exact He | ]].
      split; [congruence | ].
      intros _. split; [exact Hs' | ].
      destruct last; try congruence;
        (split; [reflexivity | split; [reflexivity | simpl; auto]]).
  - inversion Hrun as [ | s0 l0 d0 d1 d2 Hst0 Hh Hr | s0 l0 d0 d1 d2 Hst0 Hh Hr];
      subst; [congruence | ].
    destruct (get_eop_se0 d d1 Hh) as (Hst1 & Hsb1 & s & e1 & Hlog1).
    destruct (IH d1 d') as (evs & e & sJ & Hlog & He & HJ & HnJ);
      [congruence | congruence | exact Hr | ].
    exists ([Py s e1 (SYM SE0); Ann s e1 2 ["SE0"%string; "0"%string]] ++ evs),
      e, sJ.
    split; [rewrite Hlog, Hlog1, <- app_assoc; reflexivity | ].
    split; [exact He | ].
    split.
    + intros HlJ. destruct (HJ HlJ) as (? & ? & ? & ? & ?).
      rewrite !count_app. repeat split; auto; try (simpl; lia);
        apply in_or_app; auto.
    + intros HlJ. destruct (HnJ HlJ) as (? & ? & ? & ?).
      rewrite !count_app. repeat split; auto; try (simpl; lia);
        apply in_or_app; auto.
Qed.

(** C5 (as amended). In a packet, an SE0 followed by any number of further
    SE0 bit periods and then J yields exactly one EOP packet; its range starts
    at the edge index current when the first SE0 was sampled, where the
    range of the first SE0 symbol starts, and ends where the range of the J
    symbol ends, one bit period after the J begins; the state becomes WAIT
    IDLE. With K or SE1 after the SE0 run it yields exactly one ERR packet over
    the same range and the state becomes IDLE. [get_eop] returns whenever the
    timing update is defined and the edge and block start are set. (The run
    of handlers exists only if the first SE0 leaves the state at GET EOP, that
    is, does not complete the preamble pattern.) *)
Theorem eop_detection :
  (forall sym d,
      timing_defined d ->
      (exists e0, samplenum_edge d = Some e0) ->
      (exists b, ss_block d = Some b) ->
      sym <> FS_J -> sym <> LS_J ->
      exists d', get_eop sym d = Ok d')
  /\ (forall n last d d',
        state d = GET_BIT -> last <> SE0 ->
        bits_decoded (SE0 :: repeat SE0 n ++ [last]) d d' ->
        exists s e sJ e1 rest,
          samplenum_edge d = Some s
          /\ samplenum_edge d' = Some e
          /\ log d' = log d ++ Py s e1 (SYM SE0) :: rest
          /\ (last = J ->
              state d' = WAIT_IDLE
              /\ count EOP (Py s e1 (SYM SE0) :: rest) = 1%nat
              /\ count ERR (Py s e1 (SYM SE0) :: rest) = 0%nat
              /\ In (Py s e EOP) rest /\ In (Py sJ e (SYM J)) rest)
          /\ (last <> J ->
              state d' = IDLE
              /\ count ERR (Py s e1 (SYM SE0) :: rest) = 1%nat
              /\ count EOP (Py s e1 (SYM SE0) :: rest) = 0%nat
              /\ In (Py s e ERR) rest)).
Proof.
  split; [exact get_eop_returns | ].
  intros n last d d' Hst Hl Hrun.
  inversion Hrun as [ | s0 l0 d0 d1 d2 Hst0 Hh Hr | s0 l0 d0 d1 d2 Hst0 Hh Hr];
    subst; [ | congruence].
  assert (Hst1 : state d1 = GET_EOP).
  { destruct (get_bit_se0_state d d1 Hh) as [H1|H1]; [exact H1 | ].
    destruct n; simpl in Hr; inversion Hr; congruence. }
  destruct (get_bit_se0 d d1 Hh Hst1) as (s & e1 & Hs & Hsb & He1 & Hlog1).
  destruct (eop_tail n last s Hl d1 d' Hst1 Hsb Hr)
    as (evs & e & sJ & Hlog & He & HJ & HnJ).
  exists s, e, sJ, e1, (Ann s e1 2 ["SE0"%string; "0"%string] :: evs).
  split; [exact Hs | split; [exact He | ]].
  split; [rewrite Hlog, Hlog1, <- app_assoc; reflexivity | ].
  change (Py s e1 (SYM SE0) :: Ann s e1 2 ["SE0"%string; "0"%string] :: evs)
    with ([Py s e1 (SYM SE0); Ann s e1 2 ["SE0"%string; "0"%string]] ++ evs).
  split.
  - intros HlJ. destruct (HJ HlJ) as (? & ? & ? & ? & ?).
    rewrite !count_app. repeat split; auto; try (simpl; lia); right; auto.
  - intros HlJ. destruct (HnJ HlJ) as (? & ? & ? & ?).
    rewrite !count_app. repeat split; auto; try (simpl; lia); right; auto.
Qed.

Lemma eop_detection_witness :
  state before_eop_fs48 = GET_BIT
  /\ bits_decoded (SE0 :: repeat SE0 1 ++ [J]) before_eop_fs48 eop3_fs48
  /\ samplenum_edge before_eop_fs48 = Some 36
  /\ samplenum_edge eop3_fs48 = Some 48
  /\ state eop3_fs48 = WAIT_IDLE
  /\ exists d', get_eop K eop2_fs48 = Ok d'.
Proof.
  assert (Hst : state before_eop_fs48 = GET_BIT) by (vm_compute; reflexivity).
  assert (Hl : J <> SE0) by discriminate.
  assert (Hrun : bits_decoded (SE0 :: repeat SE0 1 ++ [J])
                   before_eop_fs48 eop3_fs48).
  { apply bits_get_bit with (d1 := eop1_fs48);
      [vm_compute; reflexivity | vm_compute; reflexivity | ].
    apply bits_get_eop with (d1 := eop2_fs48);
      [vm_compute; reflexivity | vm_compute; reflexivity | ].
    apply bits_get_eop with (d1 := eop3_fs48);
      [vm_compute; reflexivity | vm_compute; reflexivity | ].
    apply bits_none. }
  destruct eop_detection as (Hret & Heop).
  destruct (Heop 1%nat J before_eop_fs48 eop3_fs48 Hst Hl Hrun)
    as (s & e & sJ & e1 & rest & Hs & He & Hlog & HJ & _).
  split; [exact Hst | split; [exact Hrun | ]].
  split; [vm_compute; reflexivity | split; [vm_compute; reflexivity | ]].
  split; [exact (proj1 (HJ eq_refl)) | ].
  apply Hret.
  - exists 46.5%float, 4%float, 50, 48. repeat split; vm_compute; reflexivity.
  - exists 44. vm_compute; reflexivity.
  - exists 36. vm_compute; reflexivity.
  - discriminate.
  - discriminate.
Defined.

(** C5, as stated, fails: the EOP does not end at the sample where the line
    goes to J. In the run over [stream_fs48] the SE0 run is samples 36..43 and
    J is back at sample 44 and sampled at sample 46; the only EOP packet spans
    36..48, ending where the J symbol (44..48) ends. *)
Lemma eop_ends_after_J_bit :
  let out := log (final OptFullSpeed
                    (run_decode 48000000 OptFullSpeed stream_fs48)) in
  nth_error stream_fs48 35 = Some (35, (1, 0))
  /\ nth_error stream_fs48 36 = Some (36, (0, 0))
  /\ nth_error stream_fs48 43 = Some (43, (0, 0))
  /\ nth_error stream_fs48 44 = Some (44, (1, 0))
  /\ classify FullSpeed (1, 0) = Ok J
  /\ count EOP out = 1%nat
  /\ filter (is_packet EOP) out = [Py 36 48 EOP]
  /\ skipn 18 out =
       [Py 36 40 (SYM SE0); Ann 36 40 2 ["SE0"%string; "0"%string];
        Py 40 44 (SYM SE0); Ann 40 44 2 ["SE0"%string; "0"%string];
        Py 44 48 (SYM J); Ann 44 48 0 ["J"%string];
        Py 36 48 EOP; Ann 36 48 5 ["EOP"%string; "E"%string]]
  /\ samplenum_target eop2_fs48 = Some 46
  /\ 48 <> 44 /\ 48 <> 46.
Proof.
  do 9 (split; [vm_compute; reflexivity | ]). split; discriminate.
Qed.

(** ** Idle conditions (C6) *)

Lemma classify_gap_eq (d : Decoder) (le r : Z) (g fr gap : float) (sg : Mode) :
  samplenum_lastedge d = Some le ->
  float_of_int (samplenum d - le) = Ok g ->
  samplerate d = Some r -> float_of_int r = Ok fr ->
  float_div g fr = Ok gap -> signalling d = Some sg ->
  let sn := samplenum d in
  let d0 := set_samplenum_edge (Some sn) d in
  classify_gap d =
    Ok (if PrimFloat.ltb 2.5e-6 gap then
          set_signalling (Some (mode_of_option (options_signalling d)))
            (put (Ann le sn 10 ["Reset"%string; "Res"%string; "R"%string])
               (put (Py le sn RESET) d0))
        else if PrimFloat.ltb 1.2e-6 gap && Mode_eqb sg LowSpeed then
          put (Ann le sn 9 ["Keep-alive"%string; "KA"%string; "A"%string])
            (put (Py le sn KEEP_ALIVE) d0)
        else d0).
Proof.
  intros Hle Hg Hr Hfr Hgap Hsg sn d0. unfold classify_gap, get_signalling.
  fields. rewrite Hle; fields. rewrite Hg; fields. rewrite Hr; fields.
  rewrite Hfr; fields. rewrite Hgap; fields.
  destruct (PrimFloat.ltb 2.5e-6 gap).
  - repeat run1. reflexivity.
  - destruct (PrimFloat.ltb 1.2e-6 gap); [ | reflexivity].
    rewrite Hsg. fields. destruct (Mode_eqb sg LowSpeed); cbn [andb].
    + repeat run1. reflexivity.
    + reflexivity.
Qed.

Lemma detect_speed_eq (sym : Sym) (d : Decoder) (r : Z) (fr : float) :
  samplerate d = Some r -> float_of_int r = Ok fr ->
  exists d',
    detect_speed sym d = Ok d'
    /\ log d' = log d /\ state d' = IDLE /\ oldsym d' = J
    /\ signalling d' = locked sym (signalling d)
    /\ samplenum_edge d' = samplenum_edge d.
Proof.
  intros Hr Hfr. unfold detect_speed.
  destruct sym; fields; try (eexists; repeat split; reflexivity).
  - run1. eexists; repeat split; reflexivity.
  - run1. eexists; repeat split; reflexivity.
Qed.

(** C6. With [gap] the binary64 quotient of the samples since the last edge by
    the sampling rate: [handle_idle] returns; if [gap > 2.5e-6] its
    classification puts exactly one RESET packet (with its annotation) and
    assigns the configured option to the signalling mode; else if
    [gap > 1.2e-6] and the mode is low-speed it puts exactly one KEEP ALIVE
    packet; else it puts nothing. A gap of 2.6e-6 is a reset, a gap of 1.3e-6
    in low-speed mode a keep-alive, a gap of 1.0e-6 neither. The speed
    detection that follows puts nothing, locks the mode on an FS_J or LS_J idle
    symbol, and leaves the state IDLE with J as last symbol. *)
Theorem idle_classification (sym : Sym) (d : Decoder) (le r : Z)
    (g fr gap : float) (sg : Mode)
    (Hle : samplenum_lastedge d = Some le)
    (Hg : float_of_int (samplenum d - le) = Ok g)
    (Hr : samplerate d = Some r) (Hfr : float_of_int r = Ok fr)
    (Hgap : float_div g fr = Ok gap) (Hsg : signalling d = Some sg) :
  let sn := samplenum d in
  let reset := [Py le sn RESET;
                Ann le sn 10 ["Reset"%string; "Res"%string; "R"%string]] in
  let keep_alive := [Py le sn KEEP_ALIVE;
                     Ann le sn 9 ["Keep-alive"%string; "KA"%string;
                                  "A"%string]] in
  exists d1 d',
    classify_gap d = Ok d1 /\ detect_speed sym d1 = Ok d'
    /\ handle_idle sym d = Ok d'
    /\ (PrimFloat.ltb 2.5e-6 gap = true ->
        log d1 = log d ++ reset
        /\ signalling d1 = Some (mode_of_option (options_signalling d)))
    /\ (PrimFloat.ltb 2.5e-6 gap = false ->
        PrimFloat.ltb 1.2e-6 gap = true -> sg = LowSpeed ->
        log d1 = log d ++ keep_alive /\ signalling d1 = Some sg)
    /\ (PrimFloat.ltb 2.5e-6 gap = false ->
        PrimFloat.ltb 1.2e-6 gap = false \/ sg <> LowSpeed ->
        log d1 = log d /\ signalling d1 = Some sg)
    /\ (gap = 2.6e-6%float -> log d1 = log d ++ reset)
    /\ (gap = 1.3e-6%float -> sg = LowSpeed -> log d1 = log d ++ keep_alive)
    /\ (gap = 1.0e-6%float -> log d1 = log d)
    /\ log d' = log d1 /\ state d' = IDLE /\ oldsym d' = J
    /\ signalling d' = locked sym (signalling d1).
Proof.
  intros sn reset keep_alive.
  pose proof (classify_gap_eq d le r g fr gap sg Hle Hg Hr Hfr Hgap Hsg) as H1.
  cbv zeta in H1.
  set (d1 := if PrimFloat.ltb 2.5e-6 gap then _ else _) in H1.
  assert (Hr1 : samplerate d1 = Some r).
  { subst d1. destruct (PrimFloat.ltb 2.5e-6 gap);
      [ | destruct (PrimFloat.ltb 1.2e-6 gap && Mode_eqb sg LowSpeed)];
      exact Hr. }
  destruct (detect_speed_eq sym d1 r fr Hr1 Hfr)
    as (d' & H2 & Hlog & Hst & Hold & Hsig & _).
  exists d1, d'.
  split; [exact H1 | split; [exact H2 | ]].
  split; [unfold handle_idle; rewrite H1; exact H2 | ].
  assert (Hreset : PrimFloat.ltb 2.5e-6 gap = true ->
                   log d1 = log d ++ reset
                   /\ signalling d1 =
                        Some (mode_of_option (options_signalling d))).
  { intros E. subst d1. rewrite E. fields. rewrite <- app_assoc. auto. }
  assert (Hkeep : PrimFloat.ltb 2.5e-6 gap = false ->
                  PrimFloat.ltb 1.2e-6 gap = true -> sg = LowSpeed ->
                  log d1 = log d ++ keep_alive /\ signalling d1 = Some sg).
  { intros E1 E2 ->. subst d1. rewrite E1, E2. cbn [andb Mode_eqb]. fields.
    rewrite <- app_assoc. auto. }
  assert (Hnone : PrimFloat.ltb 2.5e-6 gap = false ->
                  PrimFloat.ltb 1.2e-6 gap = false \/ sg <> LowSpeed ->
                  log d1 = log d /\ signalling d1 = Some sg).
  { intros E1 E2. subst d1. rewrite E1.
    destruct E2 as [E2|E2].
    - rewrite E2. cbn [andb]. fields. auto.
    - replace (Mode_eqb sg LowSpeed) with false
        by (destruct sg; try reflexivity; congruence).
      rewrite andb_false_r. fields. auto. }
  split; [exact Hreset | split; [exact Hkeep | split; [exact Hnone | ]]].
  split; [intros ->; apply Hreset; reflexivity | ].
  split; [intros -> Hls; apply Hkeep; [reflexivity | reflexivity | exact Hls] | ].
  split; [intros ->; apply Hnone; [reflexivity | left; reflexivity] | ].
  auto.
Qed.

Lemma idle_classification_witness :
  samplenum_lastedge at_idle_ls10 = Some 5
  /\ samplenum at_idle_ls10 = 18
  /\ samplerate at_idle_ls10 = Some 10000000
  /\ float_div 13%float 10000000%float = Ok 1.3e-6%float
  /\ signalling at_idle_ls10 = Some LowSpeed
  /\ exists d', handle_idle J at_idle_ls10 = Ok d'
                /\ state d' = IDLE
                /\ log d' = log at_idle_ls10
                            ++ [Py 5 18 KEEP_ALIVE;
                                Ann 5 18 9 ["Keep-alive"%string; "KA"%string;
                                            "A"%string]].
Proof.
  assert (Hle : samplenum_lastedge at_idle_ls10 = Some 5)
    by (vm_compute; reflexivity).
  assert (Hg : float_of_int (samplenum at_idle_ls10 - 5) = Ok 13%float)
    by (vm_compute; reflexivity).
  assert (Hr : samplerate at_idle_ls10 = Some 10000000)
    by (vm_compute; reflexivity).
  assert (Hfr : float_of_int 10000000 = Ok 10000000%float)
    by (vm_compute; reflexivity).
  assert (Hgap : float_div 13%float 10000000%float = Ok 1.3e-6%float)
    by (vm_compute; reflexivity).
  assert (Hsg : signalling at_idle_ls10 = Some LowSpeed)
    by (vm_compute; reflexivity).
  split; [exact Hle | split; [vm_compute; reflexivity | split; [exact Hr | ]]].
  split; [exact Hgap | split; [exact Hsg | ]].
  destruct (idle_classification J at_idle_ls10 5 10000000 13%float
              10000000%float 1.3e-6%float LowSpeed Hle Hg Hr Hfr Hgap Hsg)
    as (d1 & d' & _ & _ & H & _ & _ & _ & _ & Hka & _ & Hlog & Hst & _).
  exists d'. split; [exact H | split; [exact Hst | ]].
  rewrite Hlog. rewrite (Hka eq_refl eq_refl).
  replace (samplenum at_idle_ls10) with 18 by (vm_compute; reflexivity).
  reflexivity.
Defined.

(** ** The low-speed preamble (C7) *)

Lemma preamble_split (bs : string) (c : ascii) :
  (bs ++ String c "")%string = preamble ->
  bs = "000000010011110"%string /\ c = "0"%char.
Proof.
  unfold preamble. intros H.
  do 15 (destruct bs as [|? bs];
         [simpl in H; discriminate H
         | simpl in H; injection H as -> H]).
  destruct bs as [|? bs]; simpl in H.
  - injection H as ->. split; reflexivity.
  - injection H as _ H. destruct bs; discriminate H.
Qed.

Lemma nrzi_bit_char (d : Decoder) (sym : Sym) :
  nrzi_bit d sym = "0"%string \/ nrzi_bit d sym = "1"%string.
Proof. unfold nrzi_bit; destruct (negb _); auto. Qed.

Lemma preamble_bit (d : Decoder) (sym : Sym) (bs : string) :
  (bs ++ nrzi_bit d sym)%string = preamble ->
  bs = "000000010011110"%string /\ nrzi_bit d sym = "0"%string.
Proof.
  intros H. destruct (nrzi_bit_char d sym) as [E|E]; rewrite E in H;
    apply preamble_split in H; destruct H as (-> & H); [auto | discriminate].
Qed.

Lemma get_bit_preamble (sym : Sym) (d : Decoder) (bs : string) (r : Z)
    (fr : float)
    (Htime : timing_defined d)
    (Hedge : exists e0, samplenum_edge d = Some e0)
    (Hbits : bits d = Some bs)
    (Hpat : (bs ++ nrzi_bit d sym)%string = preamble)
    (Hr : samplerate d = Some r) (Hfr : float_of_int r = Ok fr)
    (Hs1 : sym <> FS_J) (Hs2 : sym <> LS_J) :
  exists d' e evs,
    get_bit sym d = Ok d'
    /\ state d' = IDLE
    /\ signalling d' = Some LowSpeedRP
    /\ bitrate d' = Some 1500000
    /\ bitwidth d' = Some (fr / 1500000)%float
    /\ oldsym d' = J
    /\ bits d' = Some preamble
    /\ samplenum_edge d' = Some e
    /\ log d' = log d ++ evs
    /\ nth_error (rev evs) 0 = Some (Py e e EOP)
    /\ count EOP evs = 1%nat.
Proof.
  destruct Htime as (pos & bw & t & e & Hp & Hb & Ht & He).
  destruct Hedge as (e0 & He0).
  destruct (preamble_bit d sym bs Hpat) as (-> & Hbit).
  unfold get_bit, handle_bit.
  rewrite (set_new_target_samplenum_eq d pos bw Hp Hb), Ht; cbn [bind].
  rewrite He; fields.
  fold (nrzi_bit d sym). rewrite Hbit.
  destruct sym; try congruence; cbn [Sym_eqb sym_annotation];
    destruct (consecutive_ones d =? 6);
    cbn [String.eqb Ascii.eqb Bool.eqb]; fields;
    repeat run1; rewrite Hbits; fields;
    change (Z.of_nat (String.length "000000010011110") <=? 16) with true;
    cbv iota; fields;
    change ((Z.of_nat (String.length ("000000010011110" ++ "0")) =? 16)
            && (("000000010011110" ++ "0")%string =? preamble)%string)
      with true;
    cbv iota; repeat run1;
    eexists _, e, _; (split; [reflexivity | ]); fields;
    rewrite <- ?app_assoc; cbn [app];
    repeat split; reflexivity.
Qed.

(** [get_bit] appends the raw bit to the bit history while the history has at
    most 16 bits, before and whatever the bit-stuffing logic does with it. *)
Lemma get_bit_accumulates (sym : Sym) (d d' : Decoder) (bs : string) :
  get_bit sym d = Ok d' -> bits d = Some bs ->
  bits d' = Some (if Z.of_nat (String.length bs) <=? 16
                  then (bs ++ nrzi_bit d sym)%string else bs).
Proof.
  intros H Hbs. unfold get_bit, handle_bit in H.
  apply bind_Ok in H; destruct H as (d1 & H1 & H).
  apply set_new_target_samplenum_Ok in H1.
  destruct H1 as (pos & bw & t & e & Hp & Hb & Ht & He & ->).
  fields_in H. fold (nrzi_bit d sym) in H.
  destruct sym; cbn [Sym_eqb sym_annotation] in H;
    inv H; split_ifs; subst; fields_all; inj_all;
    repeat match goal with
           | Hle : (_ <=? _) = _ |- _ => rewrite Hle; clear Hle
           end;
    first [reflexivity | assumption].
Qed.

(** C7. A start of packet empties the bit history and every bit decoded in
    GET BIT appends its raw (pre-destuffing) bit to it; when the bit that
    [get_bit] decodes makes the history equal to 0000000100111100, [get_bit]
    returns, has put an implicit EOP packet (the last packet it puts, at the
    current edge), and leaves the state IDLE, the signalling mode
    low-speed-rp, the bit rate and the bit width recomputed for that mode
    (sampling rate / 1500000), and J as the last symbol. *)
Theorem preamble_switch :
  (forall d d',
      oldsym d = J -> wait_for_sop K d = Ok d' -> bits d' = Some ""%string)
  /\ (forall sym d d' bs,
        get_bit sym d = Ok d' -> bits d = Some bs ->
        bits d' = Some (if Z.of_nat (String.length bs) <=? 16
                        then (bs ++ nrzi_bit d sym)%string else bs))
  /\ (forall sym d bs r fr,
        timing_defined d ->
        (exists e0, samplenum_edge d = Some e0) ->
        bits d = Some bs ->
        (bs ++ nrzi_bit d sym)%string = preamble ->
        samplerate d = Some r -> float_of_int r = Ok fr ->
        sym <> FS_J -> sym <> LS_J ->
        exists d' e evs,
          get_bit sym d = Ok d'
          /\ state d' = IDLE
          /\ signalling d' = Some LowSpeedRP
          /\ bitrate d' = Some 1500000
          /\ bitwidth d' = Some (fr / 1500000)%float
          /\ oldsym d' = J
          /\ bits d' = Some preamble
          /\ samplenum_edge d' = Some e
          /\ log d' = log d ++ evs
          /\ nth_error (rev evs) 0 = Some (Py e e EOP)
          /\ count EOP evs = 1%nat).
Proof.
  split; [ | split].
  - intros d d' Hold H. now apply (wait_for_sop_fires d d' Hold H).
  - exact get_bit_accumulates.
  - intros sym d bs r fr. apply get_bit_preamble.
Qed.

Lemma preamble_switch_witness :
  bits before_pre_fs48 = Some "000000010011110"%string
  /\ nrzi_bit before_pre_fs48 K = "0"%string
  /\ signalling before_pre_fs48 = Some FullSpeed
  /\ exists d', get_bit K before_pre_fs48 = Ok d'
                /\ signalling d' = Some LowSpeedRP
                /\ bitwidth d' = Some 32%float
                /\ state d' = IDLE.
Proof.
  assert (Htime : timing_defined before_pre_fs48).
  { exists 82.5%float, 4%float, 86, 84. repeat split; vm_compute; reflexivity. }
  assert (Hedge : exists e0, samplenum_edge before_pre_fs48 = Some e0).
  { exists 80. vm_compute; reflexivity. }
  assert (Hbits : bits before_pre_fs48 = Some "000000010011110"%string)
    by (vm_compute; reflexivity).
  assert (Hpat : ("000000010011110" ++ nrzi_bit before_pre_fs48 K)%string
                 = preamble) by (vm_compute; reflexivity).
  assert (Hr : samplerate before_pre_fs48 = Some 48000000)
    by (vm_compute; reflexivity).
  assert (Hfr : float_of_int 48000000 = Ok 48000000%float)
    by (vm_compute; reflexivity).
  assert (H1 : K <> FS_J) by discriminate.
  assert (H2 : K <> LS_J) by discriminate.
  split; [exact Hbits | ].
  split; [vm_compute; reflexivity | split; [vm_compute; reflexivity | ]].
  destruct preamble_switch as (_ & _ & Hswitch).
  destruct (Hswitch K before_pre_fs48 _ _ _ Htime Hedge Hbits Hpat
              Hr Hfr H1 H2)
    as (d' & e & evs & Hg & Hst & Hsg & _ & Hbw & _).
  exists d'. split; [exact Hg | split; [exact Hsg | split; [ | exact Hst]]].
  rewrite Hbw. vm_compute. reflexivity.
Defined.

(** ** What each handler does to the mode, the state and the output *)

Lemma get_bit_effect (sym : Sym) (d d' : Decoder) :
  get_bit sym d = Ok d' ->
  options_signalling d' = options_signalling d
  /\ exists evs,
       log d' = log d ++ evs
       /\ count RESET evs = 0%nat
       /\ (signalling d' = signalling d
           /\ (state d' = state d \/ state d' = GET_EOP \/ state d' = IDLE)
           /\ count EOP evs = 0%nat
           \/ signalling d' = Some LowSpeedRP
              /\ bits d' = Some preamble
              /\ state d' = IDLE
              /\ exists e, In (Py e e EOP) evs).
Proof.
  intros H. unfold get_bit, handle_bit in H.
  apply bind_Ok in H; destruct H as (d1 & H1 & H).
  apply set_new_target_samplenum_Ok in H1.
  destruct H1 as (pos & bw & t & e & Hp & Hb & Ht & He & ->).
  fields_in H.
  destruct (negb (Sym_eqb (oldsym d) sym));
    (destruct sym; cbn [Sym_eqb sym_annotation] in H);
    inv H; split_ifs; subst; fields_all; inj_all;
    (split; [reflexivity | ]);
    rewrite <- ?app_assoc; cbn [app]; eexists; (split; [reflexivity | ]);
    (split; [reflexivity | ]).
  all: first
    [ left; repeat split; auto; reflexivity
    | right;
      match goal with
      | H : _ && (_ =? preamble)%string = true |- _ =>
          apply andb_prop in H; destruct H as (_ & H);
          apply String.eqb_eq in H
      end;
      repeat split; try congruence;
      eexists; simpl; repeat (first [left; reflexivity | right]) ].
Qed.

Lemma get_eop_effect (sym : Sym) (d d' : Decoder) :
  get_eop sym d = Ok d' ->
  options_signalling d' = options_signalling d
  /\ signalling d' = signalling d
  /\ (state d' = state d \/ state d' = WAIT_IDLE \/ state d' = IDLE)
  /\ exists evs, log d' = log d ++ evs /\ count RESET evs = 0%nat.
Proof.
  intros H. unfold get_eop in H.
  apply bind_Ok in H; destruct H as (d1 & H1 & H).
  apply set_new_target_samplenum_Ok in H1.
  destruct H1 as (pos & bw & t & e & Hp & Hb & Ht & He & ->).
  destruct sym; cbn [sym_annotation] in H; inv H; subst; fields_all; inj_all;
    rewrite <- ?app_assoc; cbn [app];
    repeat split; auto; eexists; split; reflexivity.
Qed.

Lemma wait_for_sop_effect (sym : Sym) (d d' : Decoder) :
  wait_for_sop sym d = Ok d' ->
  options_signalling d' = options_signalling d
  /\ signalling d' = signalling d
  /\ (d' = d
      \/ sym = K /\ state d' = GET_BIT
         /\ exists e, log d' = log d ++ [Py e e SOP;
                                         Ann e e 4 ["SOP"%string; "S"%string]]).
Proof.
  intros H.
  destruct (Sym_eqb sym K && Sym_eqb (oldsym d) J) eqn:E.
  - apply andb_prop in E. destruct E as (E1 & E2).
    assert (sym = K) by (destruct sym; try discriminate; reflexivity).
    assert (Hold : oldsym d = J)
      by (destruct (oldsym d); try discriminate; reflexivity).
    subst sym.
    destruct (wait_for_sop_fires d d' Hold H) as (_ & _ & Hst & Hsg & _ & He).
    assert (Hopt : options_signalling d' = options_signalling d).
    { unfold wait_for_sop in H. rewrite Hold in H.
      cbn [Sym_eqb negb orb] in H.
      inv H; split_ifs; subst; fields_all; reflexivity. }
    destruct He as (e & _ & Hlog).
    split; [exact Hopt | split; [exact Hsg | right]].
    split; [reflexivity | split; [exact Hst | eauto]].
  - rewrite wait_for_sop_idle in H.
    + injection H as <-. auto.
    + apply andb_false_iff in E. destruct E as [E|E].
      * left. intros ->. discriminate.
      * right. intros Heq. rewrite Heq in E. discriminate.
Qed.

Lemma handle_idle_effect (sym : Sym) (d d' : Decoder) :
  handle_idle sym d = Ok d' ->
  options_signalling d' = options_signalling d
  /\ state d' = IDLE
  /\ exists evs,
       log d' = log d ++ evs /\ quiet evs
       /\ (count RESET evs = 1%nat
           /\ signalling d' =
                locked sym (Some (mode_of_option (options_signalling d)))
           \/ count RESET evs = 0%nat
              /\ signalling d' = locked sym (signalling d)).
Proof.
  intros H. unfold handle_idle, classify_gap, detect_speed in H.
  destruct sym; inv H; subst; fields_all; inj_all;
    rewrite <- ?app_assoc; cbn [app]; 
    (split; [reflexivity | split; [reflexivity | ]]);
    first [ exists []; rewrite app_nil_r; split; [reflexivity | ]
          | eexists; split; [reflexivity | ] ];
    (split; [reflexivity | ]);
    first [ left; split; reflexivity | right; split; reflexivity ].
Qed.

(** ** The kinds of iteration *)

Lemma classify_cases (m : Mode) (p : Pins) (s : Sym) :
  classify m p = Ok s ->
  (m = Automatic -> s <> K /\ s <> J)
  /\ (s = FS_J \/ s = LS_J -> m = Automatic)
  /\ (Pins_eqb p (0, 0) = false -> s <> SE0).
Proof.
  destruct p as [a b].
  destruct a as [|[a|a|]|a]; destruct b as [|[b|b|]|b]; destruct m;
    intros H; try discriminate H; injection H as <-;
    (split; [intros; try discriminate; split; discriminate | ]);
    (split; [intros [?|?]; try discriminate; reflexivity | ]);
    intros; try discriminate.
Qed.

Ltac use_effects :=
  repeat match goal with
    | H : get_bit _ _ = Ok _ |- _ =>
        let evs := fresh "evs" in
        apply get_bit_effect in H;
        destruct H as (? & evs & ? & ? & [(? & ? & ?) | (? & ? & ? & ? & ?)])
    | H : get_eop _ _ = Ok _ |- _ =>
        let evs := fresh "evs" in
        apply get_eop_effect in H;
        destruct H as (? & ? & ? & evs & ? & ?)
    | H : wait_for_sop _ _ = Ok _ |- _ =>
        let e := fresh "e" in
        apply wait_for_sop_effect in H;
        destruct H as (? & ? & [? | (? & ? & e & ?)])
    | H : handle_idle _ _ = Ok _ |- _ =>
        let evs := fresh "evs" in
        apply handle_idle_effect in H;
        destruct H as (? & ? & evs & ? & ? & [(? & ?) | (? & ?)])
    end.

Ltac kind_nothing :=
  left; fields; repeat split; solve [auto | congruence].

Ltac kind_sop :=
  right; left; fields;
  match goal with
  | Hc : classify ?sg _ = Ok K, Hs : signalling _ = Some ?sg |- _ =>
      fields_in Hs;
      split; [congruence | ];
      split; [solve [auto] | ];
      split; [assumption | ];
      split; [eexists; reflexivity | ];
      exists sg; split; [exact Hs | ];
      intros ->; apply classify_cases in Hc;
      destruct Hc as (Hc & _); destruct (Hc eq_refl); congruence
  end.

Ltac kind_bit :=
  do 2 right; left; fields;
  split; [solve [auto] | ];
  split; [congruence | ];
  split; [assumption | ];
  solve [intuition congruence].

Ltac kind_preamble :=
  do 3 right; left; fields;
  split; [solve [auto] | ];
  split; [assumption | ];
  split; [assumption | ];
  split; [assumption | ];
  split; [assumption | ];
  eexists; eassumption.

Ltac kind_idle :=
  do 4 right; fields;
  split; [solve [auto] | ];
  split; [assumption | ];
  split; [assumption | ];
  eexists; split; [eassumption | ];
  first [left; split; assumption | right; split; assumption].

Lemma step_kinds (pins : Pins) (d d' : Decoder) :
  step pins d = Ok d' ->
  options_signalling d' = options_signalling d
  /\ exists evs, log d' = log d ++ evs /\ step_kind pins d d' evs.
Proof.
  intros H. unfold step in H.
  destruct (state d) eqn:Hst; inv H; split_ifs; use_effects; subst; fields_all;
    (split; [congruence | ]);
    try (exists []; rewrite app_nil_r; split; [reflexivity | ];
         kind_nothing);
    eexists; (split; [eassumption | ]); unfold step_kind;
    first [ solve [kind_idle] | solve [kind_sop] | solve [kind_preamble]
          | solve [kind_bit] ].
Qed.

(** ** Reachable decoders *)

Lemma iteration_kinds (s : Sample) (buf : list Sample) (d d' : Decoder) :
  iteration s buf d = Ok d' ->
  options_signalling d' = options_signalling d
  /\ exists evs, log d' = log d ++ evs /\ step_kind (snd s) d d' evs.
Proof.
  unfold iteration. intros H. apply step_kinds in H. exact H.
Qed.

Lemma locked_set (sym : Sym) (m : option Mode) :
  (exists x, m = Some x) -> exists x, locked sym m = Some x.
Proof. intros (x & ->). destruct sym; simpl; eauto. Qed.

Lemma metadata_Ok (rate : Z) (opt : SigOption) (d : Decoder) :
  metadata rate (init opt) = Ok d ->
  state d = INIT /\ signalling d = Some (mode_of_option opt)
  /\ options_signalling d = opt /\ log d = [].
Proof.
  unfold metadata. fields. destruct opt; cbn [mode_of_option Mode_eqb];
    intros H; inv H; subst; fields; auto.
Qed.

Lemma locked_automatic (sym : Sym) (m : option Mode) :
  locked sym m = Some Automatic -> m = Some Automatic.
Proof. destruct sym; simpl; intros H; first [exact H | discriminate H]. Qed.

Lemma iteration_mode_known (s : Sample) (buf : list Sample) (d d' : Decoder) :
  mode_known_in_packet d -> iteration s buf d = Ok d' ->
  mode_known_in_packet d'.
Proof.
  intros (Hm & Hp & Ho) H. apply iteration_kinds in H.
  destruct H as (Hopt & evs & _ & Hk). unfold step_kind in Hk.
  destruct Hk as [(Hs & _ & Hst) | [(Hs & _ & Hst & _ & sg & Hsg & Hna)
    | [(Hst & Hs & _ & Hst') | [(_ & Hs & _ & Hst & _)
    | (_ & Hst & _ & sym & _ & Hs)]]]]; (split; [ | split]).
  - rewrite Hs; exact Hm.
  - rewrite Hs. intros Hin. apply Hp.
    destruct Hst as [Hst | (Hst & Hst')]; [rewrite <- Hst; exact Hin | ].
    destruct Hin; congruence.
  - rewrite Hs, Hopt. exact Ho.
  - rewrite Hs; exact Hm.
  - rewrite Hs, Hsg. intros _ E. injection E as ->. congruence.
  - rewrite Hs, Hopt. exact Ho.
  - rewrite Hs; exact Hm.
  - rewrite Hs. intros _. apply Hp. exact Hst.
  - rewrite Hs, Hopt. exact Ho.
  - rewrite Hs; eauto.
  - rewrite Hs. intros _; discriminate.
  - rewrite Hs. discriminate.
  - destruct Hs as [(_ & Hs) | (_ & Hs)]; rewrite Hs; apply locked_set; eauto.
  - intros [Hin|Hin]; congruence.
  - rewrite Hopt. destruct Hs as [(_ & Hs) | (_ & Hs)]; rewrite Hs;
      intros E; apply locked_automatic in E.
    + injection E as E. destruct (options_signalling d); try discriminate E.
      reflexivity.
    + exact (Ho E).
Qed.

Lemma reachable_mode_known (d : Decoder) :
  reachable d -> mode_known_in_packet d.
Proof.
  induction 1 as [rate opt d H | s buf d d' Hr IH H].
  - apply metadata_Ok in H. destruct H as (Hst & Hs & Hopt & _).
    split; [eauto | split].
    + intros [Hin|Hin]; congruence.
    + rewrite Hs, Hopt. intros E. injection E as E.
      destruct opt; try discriminate E. reflexivity.
  - eapply iteration_mode_known; eauto.
Qed.

(** Every call of [decode] keeps the decoder among the reachable ones. *)
Lemma drain_reachable (buf : list Sample) (d d' : Decoder) :
  reachable d -> drain buf d = Ok d' -> reachable d'.
Proof.
  revert d; induction buf as [|s buf IH]; intros d Hr H; simpl in H.
  - injection H as <-. exact Hr.
  - apply bind_Ok in H. destruct H as (d1 & H1 & H).
    apply (IH d1); [ | exact H]. eapply reach_iteration; eauto.
Qed.

Lemma feed_reachable (data buf : list Sample) (d d' : Decoder) :
  reachable d -> feed data buf d = Ok d' -> reachable d'.
Proof.
  revert buf d; induction data as [|x data IH]; intros buf d Hr H; simpl in H.
  - eapply drain_reachable; eauto.
  - destruct (buf ++ [x]) as [|s buf']; [injection H as <-; exact Hr | ].
    apply bind_Ok in H. destruct H as (d1 & H1 & H).
    apply (IH buf' d1); [ | exact H]. eapply reach_iteration; eauto.
Qed.

Lemma decode_reachable (data : list Sample) (d d' : Decoder) :
  reachable d -> decode data d = Ok d' -> reachable d'.
Proof.
  unfold decode. intros Hr H.
  destruct (samplerate d) as [[|p|p]|]; try discriminate H;
    (destruct data as [|first rest]; [discriminate H | ]);
    eapply feed_reachable; eauto.
Qed.

Lemma quiet_nil : quiet [].
Proof. reflexivity. Qed.

(** In automatic mode no symbol is K. *)
Lemma automatic_no_K (p : Pins) (s : Sym) :
  classify Automatic p = Ok s -> s <> K.
Proof.
  intros H. apply classify_cases in H. destruct H as (H & _).
  now destruct (H eq_refl).
Qed.

Lemma automatic_iteration_quiet (s : Sample) (buf : list Sample)
    (d d' : Decoder) :
  mode_known_in_packet d -> iteration s buf d = Ok d' ->
  signalling d = Some Automatic \/ signalling d' = Some Automatic ->
  exists evs, log d' = log d ++ evs /\ quiet evs
              /\ state d' <> GET_BIT /\ state d' <> GET_EOP.
Proof.
  intros Hinv H Hauto.
  pose proof (iteration_mode_known s buf d d' Hinv H) as (_ & Hp' & _).
  destruct Hinv as (Hm & Hp & _). apply iteration_kinds in H.
  destruct H as (_ & evs & Hlog & Hk). exists evs. split; [exact Hlog | ].
  unfold step_kind in Hk.
  destruct Hk as [(Hs & -> & Hst) | [(Hs & _ & Hst & _ & sg & Hsg & Hna)
    | [(Hst & Hs & _ & Hst') | [(HstB & Hs & _ & Hst & _)
    | (_ & Hst & Hq & _)]]]].
  - split; [apply quiet_nil | ].
    assert (Ha : signalling d = Some Automatic)
      by (destruct Hauto; congruence).
    assert (Ha' : signalling d' = Some Automatic) by congruence.
    split; intros E; apply Hp'; auto.
  - exfalso. rewrite Hs, Hsg in Hauto. destruct Hauto as [E|E];
      injection E as ->; congruence.
  - exfalso. rewrite Hs in Hauto. apply (Hp Hst). destruct Hauto; assumption.
  - exfalso. destruct Hauto as [E|E]; [ | congruence].
    apply (Hp (or_introl HstB)). exact E.
  - split; [exact Hq | split; congruence].
Qed.

Ltac break_goal :=
  match goal with
  | |- context [match ?x with _ => _ end] =>
      lazymatch x with
      | context [match _ with _ => _ end] => fail
      | _ => destruct x eqn:?
      end
  end.

Lemma handle_idle_ignores_bitwidth (sym : Sym) (d : Decoder) (w : option float) :
  erase_bitwidth (handle_idle sym (set_bitwidth w d))
  = erase_bitwidth (handle_idle sym d).
Proof.
  unfold handle_idle, classify_gap, detect_speed, update_bitrate,
    get_signalling, putpb, putb, erase_bitwidth, bind, need. fields.
  repeat (break_goal; fields); try reflexivity; try congruence.
Qed.

Lemma erase_bitwidth_then (r1 r2 : Res Decoder) (f : Decoder -> Decoder) :
  (forall d, set_bitwidth None (f d) = f (set_bitwidth None d)) ->
  erase_bitwidth r1 = erase_bitwidth r2 ->
  erase_bitwidth (d <- r1 ;; Ok (f d)) = erase_bitwidth (d <- r2 ;; Ok (f d)).
Proof.
  intros Hf H. destruct r1 as [d1|e1], r2 as [d2|e2]; simpl in *;
    congruence.
Qed.

Lemma erase_bitwidth_bind {A : Type} (c : Res A) (k1 k2 : A -> Res Decoder) :
  (forall a, c = Ok a -> erase_bitwidth (k1 a) = erase_bitwidth (k2 a)) ->
  erase_bitwidth (bind c k1) = erase_bitwidth (bind c k2).
Proof.
  intros H. destruct c as [a|e]; simpl; [apply H; reflexivity | reflexivity].
Qed.

Lemma automatic_ignores_bitwidth (s : Sample) (buf : list Sample)
    (d : Decoder) (w : option float) :
  signalling d = Some Automatic -> state d <> GET_BIT -> state d <> GET_EOP ->
  erase_bitwidth (iteration s buf (set_bitwidth w d))
  = erase_bitwidth (iteration s buf d).
Proof.
  intros Ha Hb He. unfold iteration, step. fields.
  change (set_samplenum (fst s) (set_lookahead_buffer buf (set_bitwidth w d)))
    with (set_bitwidth w (set_samplenum (fst s) (set_lookahead_buffer buf d))).
  destruct (state d); try congruence.
  - apply erase_bitwidth_bind; intros sym _.
    apply erase_bitwidth_then; [reflexivity | ].
    apply handle_idle_ignores_bitwidth.
  - destruct (option_Pins_eqb (oldpins d) (snd s)); [reflexivity | ].
    unfold get_signalling. fields. rewrite Ha. fields.
    apply erase_bitwidth_bind; intros sym Hc.
    pose proof (automatic_no_K _ _ Hc) as HK.
    destruct sym; try congruence; cbn [Sym_eqb];
      rewrite ?wait_for_sop_idle by (left; discriminate); reflexivity.
  - destruct (Pins_eqb (snd s) (0, 0)); [reflexivity | ].
    destruct (samplenum_lastedge d) as [le|]; [ | reflexivity]. fields.
    destruct (1 <? fst s - le).
    + apply (erase_bitwidth_then _ _
               (fun x => set_edgepins (Some (snd s))
                           (set_oldpins (Some (snd s)) x)));
        [reflexivity | ].
      apply erase_bitwidth_bind; intros sym _.
      apply handle_idle_ignores_bitwidth.
    + unfold get_signalling. fields. rewrite Ha. fields.
      apply (erase_bitwidth_then _ _
               (fun x => set_edgepins (Some (snd s))
                           (set_oldpins (Some (snd s)) x)));
        [reflexivity | ].
      apply erase_bitwidth_bind; intros sym Hc.
      pose proof (automatic_no_K _ _ Hc) as HK.
      destruct sym; try congruence;
        rewrite ?wait_for_sop_idle by (left; discriminate); reflexivity.
Qed.

Lemma run_decode_reachable (rate : Z) (opt : SigOption) (data : list Sample)
    (d : Decoder) :
  run_decode rate opt data = Ok d -> reachable d.
Proof.
  unfold run_decode. intros H. apply bind_Ok in H.
  destruct H as (d0 & H0 & H).
  eapply decode_reachable; [ | exact H]. eapply reach_metadata; eauto.
Qed.

(** ** Automatic mode (C10) *)

(** Automatic mode is left only by the speed detection of [handle_idle]. *)
Lemma automatic_left_by_lock (s : Sample) (buf : list Sample) (d d' : Decoder) :
  mode_known_in_packet d -> iteration s buf d = Ok d' ->
  signalling d = Some Automatic -> signalling d' <> Some Automatic ->
  state d' = IDLE
  /\ exists sym,
       classify Automatic (snd s) = Ok sym
       /\ (sym = FS_J /\ signalling d' = Some FullSpeed
           \/ sym = LS_J /\ signalling d' = Some LowSpeed).
Proof.
  intros (Hm & Hp & Ho) H Ha Hna. apply iteration_kinds in H.
  destruct H as (_ & evs & _ & Hk). unfold step_kind in Hk.
  destruct Hk as [(Hs & _) | [(_ & _ & _ & _ & sg & Hsg & Hsg')
    | [(Hst & _) | [(HstB & _)
    | (_ & Hst & _ & sym & Hsym & Hs)]]]].
  - congruence.
  - congruence.
  - exfalso. exact (Hp Hst Ha).
  - exfalso. exact (Hp (or_introl HstB) Ha).
  - split; [exact Hst | ]. exists sym.
    rewrite (Ho Ha) in Hsym, Hs. cbn [mode_of_option] in Hsym, Hs.
    rewrite Ha in Hs. split; [exact Hsym | ].
    assert (Hl : signalling d' = locked sym (Some Automatic))
      by (destruct Hs as [(_ & Hs) | (_ & Hs)]; exact Hs).
    rewrite Hl in Hna |- *.
    destruct sym; simpl in *; auto; congruence.
Qed.

(** C10. The automatic table has no K. In every decoder a run can reach,
    while the signalling mode is automatic the state is neither GET BIT nor
    GET EOP; an iteration that starts or ends in automatic mode puts no SOP,
    BIT, STUFF BIT or EOP packet and does not enter a packet; automatic mode
    is left only when an FS_J or LS_J idle symbol locks the mode to full-speed
    or low-speed, in state IDLE; the result of an iteration in automatic mode
    does not depend on the bit width, which it never reads; and every call of
    [decode], on every input, keeps the decoder reachable. *)
Theorem automatic_mode_outside_packets :
  (forall p s, classify Automatic p = Ok s -> s <> K)
  /\ (forall d,
        reachable d -> signalling d = Some Automatic ->
        state d <> GET_BIT /\ state d <> GET_EOP)
  /\ (forall s buf d d',
        reachable d -> iteration s buf d = Ok d' ->
        signalling d = Some Automatic \/ signalling d' = Some Automatic ->
        exists evs, log d' = log d ++ evs /\ quiet evs
                    /\ state d' <> GET_BIT /\ state d' <> GET_EOP)
  /\ (forall s buf d d',
        reachable d -> iteration s buf d = Ok d' ->
        signalling d = Some Automatic -> signalling d' <> Some Automatic ->
        state d' = IDLE
        /\ exists sym,
             classify Automatic (snd s) = Ok sym
             /\ (sym = FS_J /\ signalling d' = Some FullSpeed
                 \/ sym = LS_J /\ signalling d' = Some LowSpeed))
  /\ (forall s buf d w,
        reachable d -> signalling d = Some Automatic ->
        erase_bitwidth (iteration s buf (set_bitwidth w d))
        = erase_bitwidth (iteration s buf d))
  /\ (forall data d d',
        reachable d -> decode data d = Ok d' -> reachable d').
Proof.
  split; [exact automatic_no_K | ].
  assert (Hstate : forall d, reachable d -> signalling d = Some Automatic ->
                             state d <> GET_BIT /\ state d <> GET_EOP).
  { intros d Hr Ha. destruct (reachable_mode_known d Hr) as (_ & Hp & _).
    split; intros E; apply Hp; auto. }
  split; [exact Hstate | ].
  split.
  - intros s buf d d' Hr H Ha.
    eapply automatic_iteration_quiet; eauto using reachable_mode_known.
  - split; [ | split].
    + intros s buf d d' Hr H Ha Hna.
      eapply automatic_left_by_lock; eauto using reachable_mode_known.
    + intros s buf d w Hr Ha. destruct (Hstate d Hr Ha).
      now apply automatic_ignores_bitwidth.
    + intros data d d' Hr H. eapply decode_reachable; eauto.
Qed.

Lemma fresh_automatic_reachable : reachable fresh_automatic.
Proof.
  apply (reach_metadata 48000000 OptAutomatic). vm_compute. reflexivity.
Defined.

Lemma automatic_mode_outside_packets_witness :
  reachable fresh_automatic
  /\ signalling fresh_automatic = Some Automatic
  /\ state fresh_automatic <> GET_BIT
  /\ (exists d', iteration (0, (0, 0)) [] fresh_automatic = Ok d'
                 /\ signalling d' = Some Automatic
                 /\ state d' <> GET_BIT)
  /\ erase_bitwidth
       (iteration (0, (1, 0)) [] (set_bitwidth (Some 4%float) fresh_automatic))
     = erase_bitwidth (iteration (0, (1, 0)) [] fresh_automatic).
Proof.
  assert (Ha : signalling fresh_automatic = Some Automatic)
    by (vm_compute; reflexivity).
  destruct automatic_mode_outside_packets as (_ & Hst & Hit & _ & Hbw & _).
  split; [exact fresh_automatic_reachable | split; [exact Ha | ]].
  split; [exact (proj1 (Hst _ fresh_automatic_reachable Ha)) | ].
  split.
  - destruct (iteration (0, (0, 0)) [] fresh_automatic) as [d'|e] eqn:E;
      [ | vm_compute in E; discriminate E].
    exists d'. split; [reflexivity | ].
    destruct (Hit _ _ _ _ fresh_automatic_reachable E (or_introl Ha))
      as (evs & _ & _ & Hs & _).
    split; [ | exact Hs].
    vm_compute in E. injection E as <-. reflexivity.
  - exact (Hbw (0, (1, 0)) [] fresh_automatic (Some 4%float)
             fresh_automatic_reachable Ha).
Defined.

(** ** Entering and leaving low-speed-rp (C8) *)

(** C8 (as amended). In every decoder a run can reach, an iteration takes
    the signalling mode to low-speed-rp only as the GET BIT iteration whose bit
    completes the 16-bit preamble pattern, with an implicit EOP, from a mode
    that is low-speed or full-speed (never automatic); and an iteration that
    puts a RESET leaves the mode at the configured option, or, when that
    option is automatic, possibly locked at once to the speed detected from
    the idle symbol: never at low-speed-rp. *)
Theorem reflected_polarity_entry_exit :
  (forall s buf d d',
      reachable d -> iteration s buf d = Ok d' ->
      signalling d' = Some LowSpeedRP -> signalling d <> Some LowSpeedRP ->
      state d = GET_BIT
      /\ (signalling d = Some LowSpeed \/ signalling d = Some FullSpeed)
      /\ bits d' = Some preamble
      /\ state d' = IDLE
      /\ exists evs e, log d' = log d ++ evs /\ In (Py e e EOP) evs)
  /\ (forall s buf d d' evs,
        iteration s buf d = Ok d' -> log d' = log d ++ evs ->
        (1 <= count RESET evs)%nat ->
        signalling d' <> Some LowSpeedRP
        /\ (signalling d' = Some (mode_of_option (options_signalling d))
            \/ options_signalling d = OptAutomatic
               /\ (signalling d' = Some FullSpeed
                   \/ signalling d' = Some LowSpeed))).
Proof.
  split.
  - intros s buf d d' Hr H Hrp Hnrp.
    destruct (reachable_mode_known d Hr) as ((m & Hm) & Hp & _).
    apply iteration_kinds in H. destruct H as (_ & evs & Hlog & Hk).
    unfold step_kind in Hk.
    destruct Hk as [(Hs & _) | [(Hs & _) | [(_ & Hs & _)
      | [(HstB & _ & Hb & Hst & _ & e & He) | (_ & _ & _ & sym & _ & Hs)]]]];
      try congruence.
    + split; [exact HstB | ].
      split.
      * destruct m; auto.
        -- exfalso. apply (Hp (or_introl HstB)). exact Hm.
        -- congruence.
      * split; [exact Hb | split; [exact Hst | eauto]].
    + exfalso. destruct Hs as [(_ & Hs) | (_ & Hs)]; rewrite Hs in Hrp.
      * destruct sym, (options_signalling d); discriminate.
      * rewrite Hm in Hrp. destruct sym; simpl in Hrp; try discriminate;
          congruence.
  - intros s buf d d' evs H Hlog Hc.
    apply iteration_kinds in H. destruct H as (_ & evs' & Hlog' & Hk).
    rewrite Hlog in Hlog'. apply app_inv_head in Hlog'. subst evs'.
    unfold step_kind in Hk.
    destruct Hk as [(_ & -> & _) | [(_ & _ & _ & (e & ->) & _)
      | [(_ & _ & Hz & _) | [(_ & _ & _ & _ & Hz & _)
      | (_ & _ & _ & sym & Hsym & Hs)]]]];
      try (exfalso; unfold count in *; simpl in *; lia).
    destruct Hs as [(_ & Hs) | (Hz & _)]; [ | exfalso; lia].
    apply classify_cases in Hsym. destruct Hsym as (_ & Hauto & _).
    rewrite Hs. split.
    + destruct sym, (options_signalling d); discriminate.
    + destruct sym; simpl; auto; right;
        (split; [ | auto]);
        (assert (Hm : mode_of_option (options_signalling d) = Automatic)
           by (apply Hauto; auto));
        destruct (options_signalling d); try discriminate; reflexivity.
Qed.

Lemma before_pre_reachable : reachable before_pre_fs48.
Proof.
  apply (run_decode_reachable 48000000 OptFullSpeed (firstn 81 stream_pre)).
  vm_compute. reflexivity.
Defined.

Lemma reflected_polarity_entry_exit_witness :
  reachable before_pre_fs48
  /\ iteration (82, (0, 1)) [] before_pre_fs48 = Ok after_pre_fs48
  /\ signalling after_pre_fs48 = Some LowSpeedRP
  /\ signalling before_pre_fs48 = Some FullSpeed
  /\ state before_pre_fs48 = GET_BIT
  /\ bits after_pre_fs48 = Some preamble
  /\ iteration (31, (0, 1)) [] before_reset_ls10 = Ok after_reset_ls10
  /\ log after_reset_ls10
     = log before_reset_ls10
       ++ [Py 5 31 RESET; Ann 5 31 10 ["Reset"%string; "Res"%string; "R"%string]]
  /\ signalling after_reset_ls10 <> Some LowSpeedRP.
Proof.
  assert (H1 : iteration (82, (0, 1)) [] before_pre_fs48 = Ok after_pre_fs48)
    by (vm_compute; reflexivity).
  assert (H2 : signalling after_pre_fs48 = Some LowSpeedRP)
    by (vm_compute; reflexivity).
  assert (H3 : signalling before_pre_fs48 = Some FullSpeed)
    by (vm_compute; reflexivity).
  assert (H3' : signalling before_pre_fs48 <> Some LowSpeedRP)
    by (rewrite H3; discriminate).
  assert (H4 : iteration (31, (0, 1)) [] before_reset_ls10
               = Ok after_reset_ls10) by (vm_compute; reflexivity).
  assert (H5 : log after_reset_ls10
               = log before_reset_ls10
                 ++ [Py 5 31 RESET;
                     Ann 5 31 10 ["Reset"%string; "Res"%string; "R"%string]])
    by (vm_compute; reflexivity).
  assert (H6 : (1 <= count RESET
                       [Py 5 31 RESET;
                        Ann 5 31 10 ["Reset"%string; "Res"%string;
                                     "R"%string]])%nat)
    by (vm_compute; apply le_n).
  destruct reflected_polarity_entry_exit as (Hin & Hout).
  destruct (Hin _ _ _ _ before_pre_reachable H1 H2 H3')
    as (Hst & _ & Hb & _).
  destruct (Hout _ _ _ _ _ H4 H5 H6) as (Hnrp & _).
  split; [exact before_pre_reachable | split; [exact H1 | ]].
  split; [exact H2 | split; [exact H3 | split; [exact Hst | ]]].
  split; [exact Hb | split; [exact H4 | split; [exact H5 | exact Hnrp]]].
Defined.

(** C8, as stated, fails: low-speed-rp is entered from full-speed. With the
    option full-speed at 48 MHz, the run over [stream_pre] is in full-speed
    mode in its packet, and the sixteenth bit, sampled at sample 82, switches
    it to low-speed-rp; so does the run over the whole stream. *)
Lemma rp_entered_from_full_speed :
  run_decode 48000000 OptFullSpeed (firstn 81 stream_pre) = Ok before_pre_fs48
  /\ options_signalling before_pre_fs48 = OptFullSpeed
  /\ signalling before_pre_fs48 = Some FullSpeed
  /\ state before_pre_fs48 = GET_BIT
  /\ iteration (82, (0, 1)) [] before_pre_fs48 = Ok after_pre_fs48
  /\ signalling after_pre_fs48 = Some LowSpeedRP
  /\ (exists d, run_decode 48000000 OptFullSpeed stream_pre = Ok d
                /\ options_signalling d = OptFullSpeed
                /\ signalling d = Some LowSpeedRP).
Proof.
  do 6 (split; [vm_compute; reflexivity | ]).
  eexists. split; [vm_compute; reflexivity | ].
  split; vm_compute; reflexivity.
Qed.

(** ** The binary64 value of a positive integer is not zero *)

Lemma shr_1_half (mrs : shr_record) :
  0 <= shr_m mrs -> shr_m (shr_1 mrs) = shr_m mrs / 2.
Proof.
  destruct mrs as [m r s]. cbn [shr_m]. intros Hm.
  destruct m as [|p|p]; [reflexivity | | lia].
  destruct p as [p|p|]; cbn [shr_1 shr_m].
  - rewrite (Pos2Z.inj_xI p). apply Z.div_unique with (r := 1); lia.
  - rewrite (Pos2Z.inj_xO p). apply Z.div_unique with (r := 0); lia.
  - reflexivity.
Qed.

Lemma iter_shr_1 (p : positive) (mrs : shr_record) :
  0 <= shr_m mrs ->
  shr_m (iter_pos shr_1 p mrs) = shr_m mrs / 2 ^ Zpos p.
Proof.
  revert mrs. induction p as [p IH|p IH|]; intros mrs Hm; cbn [iter_pos].
  - assert (H1 : 0 <= shr_m (shr_1 mrs))
      by (rewrite shr_1_half by exact Hm; apply Z.div_pos; lia).
    assert (H2 : 0 <= shr_m (iter_pos shr_1 p (shr_1 mrs)))
      by (rewrite IH by exact H1; apply Z.div_pos; lia).
    rewrite IH by exact H2. rewrite IH by exact H1.
    rewrite shr_1_half by exact Hm.
    rewrite !Z.div_div by lia. f_equal.
    rewrite (Pos2Z.inj_xI p).
    replace (2 * Zpos p + 1) with (1 + Zpos p + Zpos p) by lia.
    rewrite !Z.pow_add_r by lia. change (2 ^ 1) with 2. ring.
  - assert (H2 : 0 <= shr_m (iter_pos shr_1 p mrs))
      by (rewrite IH by exact Hm; apply Z.div_pos; lia).
    rewrite IH by exact H2. rewrite IH by exact Hm.
    rewrite !Z.div_div by lia. f_equal.
    rewrite (Pos2Z.inj_xO p).
    replace (2 * Zpos p) with (Zpos p + Zpos p) by lia.
    rewrite Z.pow_add_r by lia. ring.
  - rewrite shr_1_half by exact Hm. reflexivity.
Qed.

Lemma digits2_pos_bound (m : positive) :
  2 ^ (Zpos (digits2_pos m) - 1) <= Zpos m.
Proof.
  induction m as [m IH|m IH|]; cbn [digits2_pos].
  - rewrite Pos2Z.inj_succ, (Pos2Z.inj_xI m).
    replace (Z.succ (Zpos (digits2_pos m)) - 1) with (1 + (Zpos (digits2_pos m) - 1)) by lia.
    rewrite Z.pow_add_r by lia. change (2 ^ 1) with 2. lia.
  - rewrite Pos2Z.inj_succ, (Pos2Z.inj_xO m).
    replace (Z.succ (Zpos (digits2_pos m)) - 1) with (1 + (Zpos (digits2_pos m) - 1)) by lia.
    rewrite Z.pow_add_r by lia. change (2 ^ 1) with 2. lia.
  - simpl. lia.
Qed.

(** A right shift chosen by [shr_fexp] keeps a positive mantissa positive as
    long as the exponent is not below the smallest one. *)
Lemma shr_fexp_positive (m : positive) (e : Z) :
  3 - emax - prec <= e ->
  let r := shr_fexp prec emax (Zpos m) e loc_Exact in
  0 < shr_m (fst r) /\ e <= snd r.
Proof.
  intros He. unfold shr_fexp, shr, fexp, emin. cbn [Zdigits2 shr_record_of_loc].
  set (d := Zpos (digits2_pos m)).
  pose proof (digits2_pos_bound m) as Hd. fold d in Hd.
  assert (Hd1 : 1 <= d) by (unfold d; lia).
  destruct (Z.max (d + e - prec) (3 - emax - prec) - e) as [|n|n] eqn:En;
    cbn [fst snd shr_m]; try (split; lia).
  rewrite iter_shr_1 by (cbn [shr_m]; lia). cbn [shr_m].
  assert (Hn : Zpos n <= d - 1) by (unfold prec in *; lia).
  split; [ | lia].
  apply Z.div_str_pos. split; [apply Z.pow_pos_nonneg; lia | ].
  eapply Z.le_trans; [ | exact Hd]. apply Z.pow_le_mono_r; lia.
Qed.

Lemma round_nearest_even_positive (m : Z) (l : location) :
  0 < m -> 0 < round_nearest_even m l.
Proof.
  intros Hm. destruct l as [|[| |]]; cbn [round_nearest_even]; try lia.
  destruct (Z.even m); lia.
Qed.

Lemma binary_round_aux_nonzero (sx : bool) (m : positive) (e : Z) (s : bool) :
  3 - emax - prec <= e ->
  binary_round_aux prec emax sx (Zpos m) e loc_Exact <> S754_zero s.
Proof.
  intros He. unfold binary_round_aux.
  pose proof (shr_fexp_positive m e He) as H1. cbv zeta in H1.
  destruct (shr_fexp prec emax (Zpos m) e loc_Exact) as [mrs' e'].
  cbn [fst snd] in H1. destruct H1 as (Hm1 & He1).
  pose proof (round_nearest_even_positive (shr_m mrs') (loc_of_shr_record mrs') Hm1)
    as Hr.
  destruct (round_nearest_even (shr_m mrs') (loc_of_shr_record mrs'))
    as [|m1|m1]; try lia.
  assert (He' : 3 - emax - prec <= e') by lia.
  pose proof (shr_fexp_positive m1 e' He') as H2. cbv zeta in H2.
  destruct (shr_fexp prec emax (Zpos m1) e' loc_Exact) as [mrs'' e''].
  cbn [fst snd] in H2. destruct H2 as (Hm2 & _).
  destruct (shr_m mrs'') as [|m2|m2]; try lia.
  destruct (e'' <=? emax - prec); discriminate.
Qed.

Lemma binary_normalize_nonzero (n : Z) (s : bool) :
  n <> 0 -> binary_normalize prec emax n 0 false <> S754_zero s.
Proof.
  intros Hn. unfold binary_normalize.
  destruct n as [|m|m]; [congruence | | ]; unfold binary_round, shl_align;
    destruct (fexp prec emax (Zpos (digits2_pos m) + 0) - 0) as [|k|k] eqn:Ek;
    apply binary_round_aux_nonzero; unfold fexp, emin, prec, emax in *; lia.
Qed.

(** [float(n)] of a non-zero [n] that fits 63 bits is not 0.0. *)
Lemma float_of_int_nonzero (n : Z) (f : float) :
  0 < n < 2 ^ 63 -> float_of_int n = Ok f -> PrimFloat.eqb f 0 = false.
Proof.
  intros Hn H. unfold float_of_int in H.
  assert (Hsf : binary_normalize prec emax n 0 false
                = Prim2SF (of_uint63 (Uint63.of_Z n))).
  { rewrite FloatAxioms.of_uint63_spec, Uint63.of_Z_spec.
    rewrite Z.mod_small; [reflexivity | ]. 
    change Uint63.wB with (2 ^ 63). lia. }
  assert (Hf : Prim2SF f = binary_normalize prec emax n 0 false).
  { rewrite Hsf in *.
    assert (Hg : f = of_uint63 (Uint63.of_Z n)).
    { destruct (Prim2SF (of_uint63 (Uint63.of_Z n))) eqn:E;
        try discriminate H; rewrite <- E, FloatAxioms.SF2Prim_Prim2SF in H;
        congruence. }
    rewrite Hg. reflexivity. }
  rewrite FloatAxioms.eqb_spec, Hf.
  pose proof (binary_normalize_nonzero n) as Hnz.
  destruct (binary_normalize prec emax n 0 false) as [s|s| |s m e].
  - exfalso. apply (Hnz s); [lia | reflexivity].
  - destruct s; reflexivity.
  - reflexivity.
  - destruct s; reflexivity.
Qed.

(** ** The handlers as compositions of assignments *)

Lemma handle_bit_shape (b : string) (d d' : Decoder) :
  handle_bit b d = Ok d' ->
  exists s e,
    samplenum_lastedge d = Some s /\ samplenum_edge d = Some e
    /\ (consecutive_ones d = 6 /\ b = "0"%string
        /\ d' = set_consecutive_ones 0
                  (put (Ann s e 7 ["Stuff bit: 0"; "SB: 0"; "0"]%string)
                     (put (Py s e STUFF_BIT) d))
        \/ consecutive_ones d = 6 /\ b <> "0"%string
           /\ d' = set_state IDLE
                     (put (Ann s e 8 ["Bit stuff error"; "BS ERR"; "B"]%string)
                        (put (Py s e ERR) d))
        \/ consecutive_ones d <> 6
           /\ d' = set_consecutive_ones
                     (if String.eqb b "1" then consecutive_ones d + 1 else 0)
                     (put (Ann s e 6 [b]) (put (Py s e (BIT b)) d))).
Proof.
  intros H. unfold handle_bit in H.
  destruct (consecutive_ones d =? 6) eqn:E6;
    [apply Z.eqb_eq in E6 | apply Z.eqb_neq in E6].
  - destruct (String.eqb b "0") eqn:Eb;
      [apply String.eqb_eq in Eb | apply String.eqb_neq in Eb];
      inv H; subst; fields_all; inj_all; do 2 eexists;
      (split; [eassumption | split; [eassumption | ]]); auto.
  - inv H; subst; fields_all; inj_all; do 2 eexists;
      (split; [eassumption | split; [eassumption | ]]);
      right; right; rewrite ?E; auto.
Qed.

Lemma get_eop_shape (sym : Sym) (d d' : Decoder) :
  get_eop sym d = Ok d' ->
  exists pos bw t e s a,
    samplepos d = Some pos /\ bitwidth d = Some bw
    /\ int_of_float (pos + bw)%float = Ok t
    /\ int_of_float (pos + bw - bw / 2)%float = Ok e
    /\ samplenum_edge d = Some s /\ sym_annotation sym = Ok a
    /\ let d1 := set_oldsym sym
                   (put (Ann s e (fst a) (snd a))
                      (put (Py s e (SYM sym)) (advanced pos bw t e d))) in
       (sym = SE0 /\ d' = d1
        \/ sym = J
           /\ (exists b,
                 ss_block d = Some b
                 /\ d' = set_state WAIT_IDLE
                           (put (Ann b e 5 ["EOP"; "E"]%string)
                              (put (Py b e EOP) d1)))
        \/ sym <> SE0 /\ sym <> J
           /\ (exists b,
                 ss_block d = Some b
                 /\ d' = set_state IDLE
                           (put (Ann b e 8 ["EOP Error"; "EErr"; "E"]%string)
                              (put (Py b e ERR) d1)))).
Proof.
  intros H. unfold get_eop in H.
  apply bind_Ok in H; destruct H as (d1 & H1 & H).
  apply set_new_target_samplenum_Ok in H1.
  destruct H1 as (pos & bw & t & e & Hp & Hb & Ht & He & ->).
  fold (advanced pos bw t e d) in H.
  destruct sym; cbn [sym_annotation] in H; inv H; subst;
    unfold advanced in *; fields_all; inj_all;
    do 6 eexists;
    (split; [eassumption | ]); (split; [eassumption | ]);
    (split; [eassumption | ]); (split; [eassumption | ]);
    (split; [eassumption | ]); (split; [reflexivity | ]);
    cbv zeta;
    first [ left; split; reflexivity
          | right; left; split; [reflexivity | eexists; split; [eassumption | reflexivity]]
          | right; right; split; [discriminate | split; [discriminate | ]];
            eexists; split; [eassumption | reflexivity] ].
Qed.

Lemma set_bits_same (d : Decoder) (bs : string) :
  bits d = Some bs -> set_bits (Some bs) d = d.
Proof. destruct d; simpl; intros ->; reflexivity. Qed.

Lemma get_bit_shape (sym : Sym) (d d' : Decoder) :
  get_bit sym d = Ok d' ->
  exists pos bw t e s a bs d2,
    samplepos d = Some pos /\ bitwidth d = Some bw
    /\ int_of_float (pos + bw)%float = Ok t
    /\ int_of_float (pos + bw - bw / 2)%float = Ok e
    /\ samplenum_edge d = Some s /\ sym_annotation sym = Ok a
    /\ bits d = Some bs
    /\ let b := nrzi_bit d sym in
       let d1 := set_oldsym sym (advanced pos bw t e d) in
       (sym = SE0 /\ d2 = set_ss_block (Some s) (set_state GET_EOP d1)
        \/ sym <> SE0 /\ handle_bit b d1 = Ok d2)
       /\ let dp := put (Ann s e (fst a) (snd a)) (put (Py s e (SYM sym)) d2) in
          let long := Z.of_nat (String.length bs) <=? 16 in
          let bs' := (if long then bs ++ b else bs)%string in
          let d3 := set_bits (Some bs') dp in
          ((Z.of_nat (String.length bs') =? 16) && String.eqb bs' preamble = false
           /\ d' = d3
           \/ bs' = preamble
              /\ exists r fr fbr bw',
                   samplerate d = Some r /\ float_of_int r = Ok fr
                   /\ float_of_int 1500000 = Ok fbr
                   /\ float_div fr fbr = Ok bw'
                   /\ d' = set_oldsym J
                             (set_bitwidth (Some bw')
                                (set_bitrate (Some 1500000)
                                   (set_signalling (Some LowSpeedRP)
                                      (set_state IDLE
                                         (put (Py e e EOP) d3)))))).
Proof.
  intros H. unfold get_bit in H.
  apply bind_Ok in H; destruct H as (d1 & H1 & H).
  apply set_new_target_samplenum_Ok in H1.
  destruct H1 as (pos & bw & t & e & Hp & Hb & Ht & He & ->).
  fold (advanced pos bw t e d) in H. fields_in H. fold (nrzi_bit d sym) in H.
  apply bind_Ok in H; destruct H as (d2 & H2 & H).
  assert (Hd2 : samplenum_lastedge d2 = samplenum_edge d
                /\ samplenum_edge d2 = Some e
                /\ bits d2 = bits d /\ samplerate d2 = samplerate d).
  { destruct (Sym_eqb sym SE0).
    - injection H2 as <-. unfold advanced. fields. auto.
    - apply handle_bit_shape in H2.
      destruct H2 as (s0 & e0 & _ & _ & [(_ & _ & ->) | [(_ & _ & ->) | (_ & ->)]]);
        unfold advanced; fields; auto. }
  destruct Hd2 as (Hle2 & He2 & Hbs2 & Hsr2).
  inv H; subst; unfold advanced in *; fields_all.
  all: rewrite ?Hle2, ?He2, ?Hbs2, ?Hsr2 in *.
  all: fold (nrzi_bit d sym) in *.
  all: repeat match goal with
         | H : context [if ?c then _ else _] |- _ =>
             lazymatch c with
             | Sym_eqb _ _ => fail
             | _ => destruct c eqn:?
             end
         end.
  all: fields_all; rewrite ?Hle2, ?He2, ?Hbs2, ?Hsr2 in *; inj_all.
  all: cbn [bitrates] in *; inj_all.
  all: do 7 eexists; exists d2.
  all: (split; [eassumption | ]); (split; [eassumption | ]);
    (split; [eassumption | ]); (split; [eassumption | ]);
    (split; [eassumption | ]); (split; [eassumption | ]);
    (split; [eassumption | ]).
  all: cbv zeta.
  all: split;
    [ destruct (Sym_eqb sym SE0) eqn:Es;
      [ left; split; [destruct sym; try discriminate; reflexivity | ];
        rewrite <- Hs; injection H2 as <-; reflexivity
      | right; split; [intros ->; discriminate | exact H2] ]
    | ].
  all: repeat match goal with
         | H : (_ <=? _) = _ |- _ => rewrite H; clear H
         end.
  all: match goal with
       | H : _ && _ = true |- _ =>
           right; apply andb_prop in H; destruct H as (_ & H);
           apply String.eqb_eq in H; split; [exact H | ];
           do 4 eexists;
           (split; [eassumption | ]); (split; [eassumption | ]);
           (split; [eassumption | ]); (split; [eassumption | ]);
           rewrite ?set_bits_same by (fields; congruence); reflexivity
       | H : _ && _ = false |- _ =>
           left; split; [exact H | ];
           rewrite ?set_bits_same by (fields; congruence); reflexivity
       end.
Qed.

Lemma wait_for_sop_shape (sym : Sym) (d d' : Decoder) :
  wait_for_sop sym d = Ok d' ->
  (sym <> K \/ oldsym d <> J) /\ d' = d
  \/ sym = K /\ oldsym d = J
     /\ exists pos0 sg r fr br fbr bw t e,
          signalling d = Some sg /\ bitrates sg = Some br
          /\ samplerate d = Some r /\ float_of_int r = Ok fr
          /\ float_of_int br = Ok fbr /\ float_div fr fbr = Ok bw
          /\ int_of_float (pos0 + bw)%float = Ok t
          /\ int_of_float (pos0 + bw - bw / 2)%float = Ok e
          /\ d' = set_state GET_BIT
                    (put (Ann e e 4 ["SOP"; "S"]%string)
                       (put (Py e e SOP)
                          (advanced pos0 bw t e
                             (set_bitwidth (Some bw)
                                (set_bitrate (Some br)
                                   (set_bits (Some ""%string)
                                      (set_consecutive_ones 0
                                         (set_samplepos (Some pos0) d)))))))).
Proof.
  intros H.
  destruct (Sym_eqb sym K && Sym_eqb (oldsym d) J) eqn:E.
  - right. apply andb_prop in E. destruct E as (E1 & E2).
    assert (Hs : sym = K) by (destruct sym; try discriminate; reflexivity).
    assert (Hold : oldsym d = J)
      by (destruct (oldsym d); try discriminate; reflexivity).
    subst sym. split; [reflexivity | split; [exact Hold | ]].
    unfold wait_for_sop in H. rewrite Hold in H.
    cbn [Sym_eqb negb orb] in H.
    inv H; split_ifs; subst; unfold advanced; fields_all; inj_all;
      do 9 eexists;
      (split; [eassumption | ]); (split; [eassumption | ]);
      (split; [eassumption | ]); (split; [eassumption | ]);
      (split; [eassumption | ]); (split; [eassumption | ]);
      (split; [eassumption | ]); (split; [eassumption | ]);
      reflexivity.
  - left. apply andb_false_iff in E.
    assert (Hg : sym <> K \/ oldsym d <> J).
    { destruct E as [E|E]; [left | right]; intros Heq; rewrite Heq in E;
        discriminate. }
    split; [exact Hg | ].
    rewrite wait_for_sop_idle in H by exact Hg. congruence.
Qed.

Lemma float_div_Ok (x y z : float) :
  float_div x y = Ok z -> z = (x / y)%float /\ PrimFloat.eqb y 0 = false.
Proof.
  unfold float_div. destruct (PrimFloat.eqb y 0); intros H;
    [discriminate | injection H as <-; auto].
Qed.

Lemma handle_idle_shape (sym : Sym) (d d' : Decoder) :
  handle_idle sym d = Ok d' ->
  exists le g r fr gap d1,
    samplenum_lastedge d = Some le
    /\ float_of_int (samplenum d - le) = Ok g
    /\ samplerate d = Some r /\ float_of_int r = Ok fr
    /\ float_div g fr = Ok gap
    /\ let sn := samplenum d in
       let d0 := set_samplenum_edge (Some sn) d in
       (PrimFloat.ltb 2.5e-6 gap = true
        /\ d1 = set_signalling (Some (mode_of_option (options_signalling d)))
                  (put (Ann le sn 10 ["Reset"; "Res"; "R"]%string)
                     (put (Py le sn RESET) d0))
        \/ PrimFloat.ltb 2.5e-6 gap = false
           /\ PrimFloat.ltb 1.2e-6 gap = true
           /\ signalling d = Some LowSpeed
           /\ d1 = put (Ann le sn 9 ["Keep-alive"; "KA"; "A"]%string)
                     (put (Py le sn KEEP_ALIVE) d0)
        \/ PrimFloat.ltb 2.5e-6 gap = false
           /\ (PrimFloat.ltb 1.2e-6 gap = false
               \/ exists sg, signalling d = Some sg /\ sg <> LowSpeed)
           /\ d1 = d0)
       /\ (sym <> FS_J /\ sym <> LS_J /\ d' = set_state IDLE (set_oldsym J d1)
           \/ exists m br fbr bw,
                (sym = FS_J /\ m = FullSpeed \/ sym = LS_J /\ m = LowSpeed)
                /\ bitrates m = Some br /\ float_of_int br = Ok fbr
                /\ float_div fr fbr = Ok bw
                /\ d' = set_state IDLE
                          (set_oldsym J
                             (set_bitwidth (Some bw)
                                (set_bitrate (Some br)
                                   (set_signalling (Some m) d1))))).
Proof.
  intros H. unfold handle_idle in H.
  apply bind_Ok in H. destruct H as (d1 & H1 & H2).
  assert (Hgap : exists le g r fr gap,
             samplenum_lastedge d = Some le
             /\ float_of_int (samplenum d - le) = Ok g
             /\ samplerate d = Some r /\ float_of_int r = Ok fr
             /\ float_div g fr = Ok gap).
  { unfold classify_gap in H1. fields_in H1.
    apply bind_Ok in H1. destruct H1 as (le & Hle & H1). apply need_Ok in Hle.
    apply bind_Ok in H1. destruct H1 as (g & Hg & H1).
    apply bind_Ok in H1. destruct H1 as (r & Hr & H1). apply need_Ok in Hr.
    apply bind_Ok in H1. destruct H1 as (fr & Hfr & H1).
    apply bind_Ok in H1. destruct H1 as (gap & Hgap & H1).
    exists le, g, r, fr, gap. auto. }
  destruct Hgap as (le & g & r & fr & gap & Hle & Hg & Hr & Hfr & Hgap).
  exists le, g, r, fr, gap, d1.
  do 5 (split; [assumption | ]). cbv zeta.
  assert (Hsr1 : samplerate d1 = Some r).
  { unfold classify_gap in H1. inv H1; subst; fields_all; congruence. }
  split.
  - unfold classify_gap in H1. fields_in H1.
    rewrite Hle in H1; fields_in H1. rewrite Hg in H1; fields_in H1.
    rewrite Hr in H1; fields_in H1. rewrite Hfr in H1; fields_in H1.
    rewrite Hgap in H1; fields_in H1.
    destruct (PrimFloat.ltb 2.5e-6 gap) eqn:E1.
    + left. split; [reflexivity | ].
      inv H1; subst; fields_all; inj_all; reflexivity.
    + right. destruct (PrimFloat.ltb 1.2e-6 gap) eqn:E2.
      * apply bind_Ok in H1. destruct H1 as (sg & Hsg & H1).
        apply get_signalling_Ok in Hsg. fields_in Hsg.
        destruct (Mode_eqb sg LowSpeed) eqn:E3.
        -- left. split; [reflexivity | split; [reflexivity | ]].
           assert (sg = LowSpeed) by (destruct sg; try discriminate; reflexivity).
           subst sg. split; [exact Hsg | ].
           inv H1; subst; fields_all; inj_all; reflexivity.
        -- right. split; [reflexivity | ].
           split; [right; exists sg; split; [exact Hsg | ] | congruence].
           intros ->. discriminate.
      * right. split; [reflexivity | split; [left; reflexivity | congruence]].
  - unfold detect_speed in H2.
    destruct sym; fields_in H2;
      try (left; split; [discriminate | split; [discriminate | congruence]]);
      right; inv H2; subst; fields_all; inj_all;
      rewrite Hfr in Hfsr; injection Hfsr as <-; do 4 eexists;
      (split; [first [left; split; reflexivity | right; split; reflexivity] | ]);
      (split; [eassumption | ]); (split; [eassumption | ]);
      (split; [eassumption | ]); reflexivity.
Qed.

Lemma iteration_cases (s : Sample) (buf : list Sample) (d d' : Decoder) :
  iteration s buf d = Ok d' ->
  let d0 := set_samplenum (fst s) (set_lookahead_buffer buf d) in
  let pins := snd s in
  let de := if option_Z_eqb (samplenum_edge d) (fst s)
            then set_edgepins (Some pins) d0 else d0 in
  (state d = IDLE /\ option_Pins_eqb (oldpins d) pins = true /\ d' = d0)
  \/ (state d = IDLE
      /\ exists sg,
           signalling d = Some sg /\ classify sg pins = Ok SE0
           /\ d' = set_edgepins (Some pins)
                     (set_state WAIT_IDLE
                        (set_samplenum_lastedge (Some (fst s))
                           (set_oldpins (Some pins) d0))))
  \/ (state d = IDLE
      /\ exists sg sym dw,
           signalling d = Some sg /\ classify sg pins = Ok sym /\ sym <> SE0
           /\ wait_for_sop sym (set_oldpins (Some pins) d0) = Ok dw
           /\ d' = set_edgepins (Some pins) dw)
  \/ ((state d = GET_BIT \/ state d = GET_EOP)
      /\ exists t, samplenum_target d = Some t /\ fst s < t /\ d' = de)
  \/ (state d = GET_BIT
      /\ exists t sg sym dg,
           samplenum_target d = Some t /\ t <= fst s
           /\ signalling d = Some sg /\ classify sg pins = Ok sym
           /\ get_bit sym de = Ok dg /\ d' = set_oldpins (Some pins) dg)
  \/ (state d = GET_EOP
      /\ exists t sg sym dg,
           samplenum_target d = Some t /\ t <= fst s
           /\ signalling d = Some sg /\ classify sg pins = Ok sym
           /\ get_eop sym de = Ok dg /\ d' = set_oldpins (Some pins) dg)
  \/ (state d = WAIT_IDLE /\ Pins_eqb pins (0, 0) = true /\ d' = d0)
  \/ (state d = WAIT_IDLE /\ Pins_eqb pins (0, 0) = false
      /\ exists le sym dh,
           samplenum_lastedge d = Some le /\ 1 < fst s - le
           /\ classify (mode_of_option (options_signalling d)) pins = Ok sym
           /\ handle_idle sym d0 = Ok dh
           /\ d' = set_edgepins (Some pins) (set_oldpins (Some pins) dh))
  \/ (state d = WAIT_IDLE /\ Pins_eqb pins (0, 0) = false
      /\ exists le sg sym dw,
           samplenum_lastedge d = Some le /\ fst s - le <= 1
           /\ signalling d = Some sg /\ classify sg pins = Ok sym
           /\ wait_for_sop sym d0 = Ok dw
           /\ d' = set_edgepins (Some pins) (set_oldpins (Some pins) dw))
  \/ (state d = INIT
      /\ exists sym dh,
           classify (mode_of_option (options_signalling d)) pins = Ok sym
           /\ handle_idle sym d0 = Ok dh
           /\ d' = set_oldpins (Some pins) dh).
Proof.
  intros H d0 pins de. unfold iteration, step in H. fields_in H.
  fold pins in H. fold d0 in H.
  destruct (state d) eqn:Hst.
  - (* INIT *)
    do 9 right. split; [reflexivity | ].
    inv H. subst. eauto.
  - (* IDLE *)
    destruct (option_Pins_eqb (oldpins d) pins) eqn:Eo.
    + left. injection H as <-. auto.
    + right. inv H; subst.
      * left. split; [reflexivity | ].
        assert (d2 = SE0) by (destruct d2; try discriminate; reflexivity).
        subst d2. eexists. split; [eassumption | split; [assumption | ]].
        reflexivity.
      * right. left. split; [reflexivity | ].
        do 3 eexists. split; [eassumption | split; [eassumption | ]].
        split; [intros ->; discriminate | ]. split; [eassumption | reflexivity].
  - (* WAIT_IDLE *)
    do 6 right. destruct (Pins_eqb pins (0, 0)) eqn:Ep.
    + left. injection H as <-. auto.
    + right. inv H; subst.
      * left. apply Z.ltb_lt in E. split; [reflexivity | split; [reflexivity | ]].
        do 3 eexists. eauto.
      * right. left. apply Z.ltb_ge in E.
        split; [reflexivity | split; [reflexivity | ]].
        do 4 eexists. eauto 10.
  - (* GET_BIT *)
    do 3 right. fold de in H.
    assert (Hde : samplenum_target de = samplenum_target d
                  /\ samplenum de = fst s /\ signalling de = signalling d
                  /\ state de = GET_BIT).
    { unfold de, d0. destruct (option_Z_eqb (samplenum_edge d) (fst s)); fields;
        auto. }
    destruct Hde as (Hde1 & Hde2 & Hde3 & Hde4).
    rewrite Hde4 in H. inv H; subst; rewrite ?Hde1, ?Hde2, ?Hde3 in *.
    + left. apply Z.ltb_lt in E. split; [auto | eauto].
    + right. left. apply Z.ltb_ge in E. split; [reflexivity | ].
      do 4 eexists. eauto 10.
  - (* GET_EOP *)
    do 3 right. fold de in H.
    assert (Hde : samplenum_target de = samplenum_target d
                  /\ samplenum de = fst s /\ signalling de = signalling d
                  /\ state de = GET_EOP).
    { unfold de, d0. destruct (option_Z_eqb (samplenum_edge d) (fst s)); fields;
        auto. }
    destruct Hde as (Hde1 & Hde2 & Hde3 & Hde4).
    rewrite Hde4 in H. inv H; subst; rewrite ?Hde1, ?Hde2, ?Hde3 in *.
    + left. apply Z.ltb_lt in E. split; [auto | eauto].
    + right. right. left. apply Z.ltb_ge in E. split; [reflexivity | ].
      do 4 eexists. eauto 10.
Qed.

Ltac open_edge :=
  repeat match goal with
    | H : context [if option_Z_eqb ?a ?b then _ else _] |- _ =>
        destruct (option_Z_eqb a b) eqn:?
    | |- context [if option_Z_eqb ?a ?b then _ else _] =>
        destruct (option_Z_eqb a b) eqn:?
    end.

Ltac open_shapes :=
  repeat match goal with
    | H : wait_for_sop _ _ = Ok _ |- _ =>
        apply wait_for_sop_shape in H;
        destruct H as [(Hidle & ->)
          | (-> & Hold & pos0 & sg0 & r0 & fr0 & br0 & fbr0 & bw0 & t0 & e0
             & Hsg0 & Hbr0 & Hr0 & Hfr0 & Hfbr0 & Hbw0 & Ht0 & He0 & ->)]
    | H : handle_bit _ _ = Ok _ |- _ =>
        apply handle_bit_shape in H;
        destruct H as (sb & eb & Hsb & Heb
          & [(Hsix & Hzero & ->) | [(Hsix & Hone & ->) | (Hsix & ->)]])
    | H : get_bit _ _ = Ok _ |- _ =>
        apply get_bit_shape in H; cbv zeta in H;
        destruct H as (pos & bw & t1 & e1 & s1 & a1 & bs & d2
          & Hpos & Hbw & Ht1 & He1 & Hs1 & Ha1 & Hbs
          & [(-> & ->) | (Hse0 & Hhb)]
          & [(Hpre & ->)
            | (Hpre & r1 & fr1 & fbr1 & bw1 & Hr1 & Hfr1 & Hfbr1 & Hbw1 & ->)])
    | H : get_eop _ _ = Ok _ |- _ =>
        apply get_eop_shape in H; cbv zeta in H;
        destruct H as (pos & bw & t1 & e1 & s1 & a1
          & Hpos & Hbw & Ht1 & He1 & Hs1 & Ha1
          & [(-> & ->) | [(-> & b1 & Hb1 & ->) | (Hse0 & HJ & b1 & Hb1 & ->)]])
    | H : handle_idle _ _ = Ok _ |- _ =>
        apply handle_idle_shape in H; cbv zeta in H;
        destruct H as (le1 & g1 & r1 & fr1 & gap & dc
          & Hle1 & Hg1 & Hr1 & Hfr1 & Hgap
          & [(Hreset & ->) | [(Hreset & Hkeep & Hls & ->) | (Hreset & Hkeep & ->)]]
          & [(Hfs & Hls' & ->)
            | (m1 & br1 & fbr1 & bw1 & Hm1 & Hbr1 & Hfbr1 & Hbw1 & ->)])
    end.

Ltac iteration_leaves H :=
  apply iteration_cases in H; cbv zeta in H;
  destruct H as
    [(Hst & Hsame & ->)
    | [(Hst & sg & Hsg & Hc & ->)
    | [(Hst & sg & sym & dw & Hsg & Hc & Hne & Hw & ->)
    | [(Hst & t & Ht & Hlt & ->)
    | [(Hst & t & sg & sym & dg & Ht & Hle & Hsg & Hc & Hg & ->)
    | [(Hst & t & sg & sym & dg & Ht & Hle & Hsg & Hc & Hg & ->)
    | [(Hst & Hp & ->)
    | [(Hst & Hp & le & sym & dh & Hle & Hgt & Hc & Hh & ->)
    | [(Hst & Hp & le & sg & sym & dw & Hle & Hgt & Hsg & Hc & Hw & ->)
    | (Hst & sym & dh & Hc & Hh & ->)]]]]]]]]];
  open_shapes; open_edge; unfold advanced in *; fields_all.

(** ** The consecutive-ones counter and the bit history *)

Lemma length_append (a b : string) :
  String.length (a ++ b) = (String.length a + String.length b)%nat.
Proof. induction a as [|c a IH]; simpl; [reflexivity | now rewrite IH]. Qed.

Lemma binary_string_append (a b : string) :
  binary_string (a ++ b) = binary_string a && binary_string b.
Proof.
  induction a as [|c a IH]; simpl; [reflexivity | ].
  rewrite IH. now rewrite andb_assoc.
Qed.

Lemma nrzi_bit_binary (d : Decoder) (sym : Sym) :
  String.length (nrzi_bit d sym) = 1%nat
  /\ binary_string (nrzi_bit d sym) = true.
Proof. unfold nrzi_bit. destruct (negb _); split; reflexivity. Qed.

Lemma iteration_keeps_history (s : Sample) (buf : list Sample) (d d' : Decoder) :
  history_bounded d -> iteration s buf d = Ok d' -> history_bounded d'.
Proof.
  intros (Hco & Hbits) H. iteration_leaves H.
  all: unfold history_bounded; fields.
  all: split;
    [ try lia;
      match goal with
      | |- context [if String.eqb ?a ?b then _ else _] =>
          destruct (String.eqb a b); lia
      end
    | ].
  all: try exact Hbits.
  all: intros bs0 Hbs0; injection Hbs0 as <-.
  all: try (split; [simpl; lia | reflexivity]).
  all: destruct (Hbits _ Hbs) as (Hlen & Hbin).
  all: match goal with
       | |- context [nrzi_bit ?x ?y] =>
           destruct (nrzi_bit_binary x y) as (Hl1 & Hb1)
       end.
  all: destruct (Z.of_nat (String.length bs) <=? 16) eqn:El;
    [apply Z.leb_le in El | auto].
  all: rewrite length_append, binary_string_append, Hl1, Hb1, Hbin.
  all: split; [lia | reflexivity].
Qed.

(** ** The attributes the handlers read *)

Lemma iteration_keeps_attributes (s : Sample) (buf : list Sample)
    (d d' : Decoder) :
  attributes_set d -> valid_sample s -> iteration s buf d = Ok d' ->
  attributes_set d'.
Proof.
  intros (Irate & Imode & Iauto & Ibw & Ile & Iedge & Ipk & Iblk & Iep) Hv H.
  iteration_leaves H.
  all: unfold attributes_set; fields.
  all: try match type of Hst with _ \/ _ => destruct Hst as [Hst|Hst] end.
  all: try (destruct Hm1 as [(-> & ->) | (-> & ->)]).
  all: rewrite ?Hst in *; cbn [in_packet_state] in *.
  all: try specialize (Iedge ltac:(discriminate)).
  all: try specialize (Ipk eq_refl).
  all: try specialize (Iblk eq_refl).
  all: repeat match goal with
         | H : exists _, _ |- _ => destruct H
         | H : _ /\ _ |- _ => destruct H
         end.
  all: try match goal with
         | Hk : classify ?m _ = Ok K |- _ =>
             assert (m <> Automatic)
               by (intros ->;
                   destruct (proj1 (classify_cases _ _ _ Hk) eq_refl);
                   congruence)
         end.
  all: repeat match goal with
         | |- _ /\ _ => split
         | |- _ -> _ => intro
         | |- forall _, _ => intro
         end.
  all: try assumption.
  all: try solve [eauto].
  all: try discriminate.
  all: try congruence.
  all: try solve [eexists; split; [eassumption | lia]].
  all: try match goal with
         | E : Some (snd _) = Some ?p |- In ?p pin_pairs =>
             injection E as <-; exact Hv
         end.
  all: try match goal with
         | E : Some (mode_of_option ?o) = Some Automatic |- ?o = OptAutomatic =>
             destruct o; try discriminate E; reflexivity
         end.
  all: try solve [destruct Ibw as [Ia | Ib];
                  [left; rewrite ?(Iauto Ia); first [reflexivity | assumption]
                  | right; assumption]].
Qed.

(** ** What can fail *)

Lemma fails_arithmetic_Ok {A : Type} (a : A) : fails_arithmetic (Ok a).
Proof. intros e H. discriminate H. Qed.

Lemma fails_arithmetic_bind {A B : Type} (c : Res A) (k : A -> Res B) :
  fails_arithmetic c -> (forall a, c = Ok a -> fails_arithmetic (k a)) ->
  fails_arithmetic (bind c k).
Proof.
  intros Hc Hk. destruct c as [a|e]; cbn [bind].
  - apply Hk. reflexivity.
  - intros e' E. injection E as <-. apply Hc. reflexivity.
Qed.

Lemma need_arith {A : Type} (o : option A) :
  (exists a, o = Some a) -> fails_arithmetic (need o).
Proof. intros (a & ->). apply fails_arithmetic_Ok. Qed.

Lemma get_signalling_arith (d : Decoder) :
  (exists m, signalling d = Some m) -> fails_arithmetic (get_signalling d).
Proof.
  intros (m & H). unfold get_signalling. rewrite H. apply fails_arithmetic_Ok.
Qed.

Lemma float_of_int_arith (n : Z) : fails_arithmetic (float_of_int n).
Proof.
  unfold float_of_int. intros e.
  destruct (binary_normalize prec emax n 0 false); intros H;
    try discriminate H. injection H as <-. left. reflexivity.
Qed.

Lemma int_of_float_arith (x : float) : fails_arithmetic (int_of_float x).
Proof.
  unfold int_of_float. intros e.
  destruct (Prim2SF x); intros H; try discriminate H; injection H as <-;
    [left | right]; reflexivity.
Qed.

Lemma float_div_arith (x y : float) :
  PrimFloat.eqb y 0 = false -> fails_arithmetic (float_div x y).
Proof. unfold float_div. intros ->. apply fails_arithmetic_Ok. Qed.

Lemma classify_arith (m : Mode) (p : Pins) :
  In p pin_pairs -> fails_arithmetic (classify m p).
Proof.
  intros Hp. unfold classify.
  assert (H : exists s, lookup (symbols m) p = Some s).
  { unfold pin_pairs in Hp. simpl in Hp.
    destruct Hp as [<- | [<- | [<- | [<- | []]]]]; destruct m; simpl; eauto. }
  destruct H as (s & ->). apply fails_arithmetic_Ok.
Qed.

Lemma sym_annotation_arith (s : Sym) :
  s <> FS_J -> s <> LS_J -> fails_arithmetic (sym_annotation s).
Proof.
  intros H1 H2. destruct s; try congruence; apply fails_arithmetic_Ok.
Qed.

Lemma putpb_arith (p : Packet) (d : Decoder) :
  (exists s, samplenum_lastedge d = Some s) ->
  (exists e, samplenum_edge d = Some e) -> fails_arithmetic (putpb p d).
Proof.
  intros (s & Hs) (e & He). rewrite (putpb_eq p d s e Hs He).
  apply fails_arithmetic_Ok.
Qed.

Lemma putb_arith (c : Z) (t : list string) (d : Decoder) :
  (exists s, samplenum_lastedge d = Some s) ->
  (exists e, samplenum_edge d = Some e) -> fails_arithmetic (putb c t d).
Proof.
  intros (s & Hs) (e & He). rewrite (putb_eq c t d s e Hs He).
  apply fails_arithmetic_Ok.
Qed.

Lemma putpx_arith (p : Packet) (d : Decoder) :
  (exists e, samplenum_edge d = Some e) -> fails_arithmetic (putpx p d).
Proof.
  intros (e & He). rewrite (putpx_eq p d e He). apply fails_arithmetic_Ok.
Qed.

Lemma putx_arith (c : Z) (t : list string) (d : Decoder) :
  (exists e, samplenum_edge d = Some e) -> fails_arithmetic (putx c t d).
Proof.
  intros (e & He). rewrite (putx_eq c t d e He). apply fails_arithmetic_Ok.
Qed.

Lemma putpm_arith (p : Packet) (d : Decoder) :
  (exists s, ss_block d = Some s) ->
  (exists e, samplenum_edge d = Some e) -> fails_arithmetic (putpm p d).
Proof.
  intros (s & Hs) (e & He). rewrite (putpm_eq p d s e Hs He).
  apply fails_arithmetic_Ok.
Qed.

Lemma putm_arith (c : Z) (t : list string) (d : Decoder) :
  (exists s, ss_block d = Some s) ->
  (exists e, samplenum_edge d = Some e) -> fails_arithmetic (putm c t d).
Proof.
  intros (s & Hs) (e & He). rewrite (putm_eq c t d s e Hs He).
  apply fails_arithmetic_Ok.
Qed.

Lemma bitrate_float_nonzero (m : Mode) (br : Z) (f : float) :
  bitrates m = Some br -> float_of_int br = Ok f -> PrimFloat.eqb f 0 = false.
Proof.
  destruct m; cbn [bitrates]; intros H; try discriminate H;
    injection H as <-; intros H; vm_compute in H; injection H as <-;
    reflexivity.
Qed.

Lemma update_bitrate_arith (d : Decoder) :
  (exists m, signalling d = Some m /\ m <> Automatic) ->
  (exists r, samplerate d = Some r) -> fails_arithmetic (update_bitrate d).
Proof.
  intros (m & Hm & Hna) (r & Hr). unfold update_bitrate, get_signalling.
  rewrite Hm. fields. rewrite Hr. fields.
  apply fails_arithmetic_bind; [apply float_of_int_arith | intros fr Hfr].
  destruct (bitrates m) as [br|] eqn:Hbr; [ | destruct m; try discriminate; congruence].
  fields.
  apply fails_arithmetic_bind; [apply float_of_int_arith | intros fbr Hfbr].
  apply fails_arithmetic_bind; [ | intros; apply fails_arithmetic_Ok].
  apply float_div_arith. eapply bitrate_float_nonzero; eassumption.
Qed.

Lemma set_new_target_samplenum_arith (d : Decoder) :
  (exists pos, samplepos d = Some pos) -> (exists bw, bitwidth d = Some bw) ->
  fails_arithmetic (set_new_target_samplenum d).
Proof.
  intros (pos & Hp) (bw & Hb).
  rewrite (set_new_target_samplenum_eq d pos bw Hp Hb).
  apply fails_arithmetic_bind; [apply int_of_float_arith | intros t Ht].
  apply fails_arithmetic_bind; [apply int_of_float_arith | intros e He].
  apply fails_arithmetic_Ok.
Qed.

Lemma quality_loop_arith (m : Mode) (bw : float) (buf : list Sample)
    (pos : float) :
  Forall valid_sample buf -> fails_arithmetic (quality_loop (Some m) bw buf pos).
Proof.
  intros Hv. revert pos.
  induction Hv as [|[sn pins] rest Hs Hv IH]; intros pos; cbn [quality_loop].
  - apply fails_arithmetic_Ok.
  - apply fails_arithmetic_bind; [apply int_of_float_arith | intros t Ht].
    destruct (sn <? t); [apply IH | ].
    cbn [bind].
    apply fails_arithmetic_bind; [apply classify_arith; exact Hs | intros s Hc].
    destruct s; first [apply IH | apply fails_arithmetic_Ok].
Qed.

Lemma samplepos_quality_arith (d : Decoder) (pos : float) :
  (exists m, signalling d = Some m) -> (exists bw, bitwidth d = Some bw) ->
  Forall valid_sample (lookahead_buffer d) ->
  fails_arithmetic (samplepos_quality d pos).
Proof.
  intros (m & Hm) (bw & Hb) Hv. unfold samplepos_quality.
  rewrite Hb, Hm. fields. apply quality_loop_arith. exact Hv.
Qed.

Ltac arith_side :=
  fields;
  solve [ eauto | congruence | assumption
        | eexists; split; [solve [eauto] | congruence] ].

Ltac open_hyps :=
  repeat match goal with
         | H : exists _, _ |- _ => destruct H
         | H : _ /\ _ |- _ => destruct H
         end.

Ltac arith_head :=
  lazymatch goal with
  | |- fails_arithmetic (Ok _) => apply fails_arithmetic_Ok
  | |- fails_arithmetic (float_of_int _) => apply float_of_int_arith
  | |- fails_arithmetic (int_of_float _) => apply int_of_float_arith
  | |- fails_arithmetic (need _) => apply need_arith; arith_side
  | |- fails_arithmetic (get_signalling _) =>
      apply get_signalling_arith; arith_side
  | |- fails_arithmetic (putpb _ _) => apply putpb_arith; arith_side
  | |- fails_arithmetic (putb _ _ _) => apply putb_arith; arith_side
  | |- fails_arithmetic (putpx _ _) => apply putpx_arith; arith_side
  | |- fails_arithmetic (putx _ _ _) => apply putx_arith; arith_side
  | |- fails_arithmetic (putpm _ _) => apply putpm_arith; arith_side
  | |- fails_arithmetic (putm _ _ _) => apply putm_arith; arith_side
  | |- fails_arithmetic (classify _ _) => apply classify_arith; arith_side
  | |- fails_arithmetic (sym_annotation _) =>
      apply sym_annotation_arith; arith_side
  | |- fails_arithmetic (set_new_target_samplenum _) =>
      apply set_new_target_samplenum_arith; arith_side
  | |- fails_arithmetic (samplepos_quality _ _) =>
      apply samplepos_quality_arith; arith_side
  | |- fails_arithmetic (update_bitrate _) =>
      apply update_bitrate_arith; arith_side
  | |- fails_arithmetic (bind _ _) =>
      apply fails_arithmetic_bind;
      [ | let a := fresh "a" in
          let Ha := fresh "Ha" in
          intros a Ha; inv Ha; open_shapes; split_ifs; subst;
          unfold advanced in *; fields_all ]
  | |- fails_arithmetic (if ?c then _ else _) => destruct c eqn:?
  | |- fails_arithmetic (match ?x with _ => _ end) => destruct x eqn:?
  end.

Ltac arith_step :=
  first
    [ arith_head
    | match goal with
      | |- context [if ?c then _ else _] =>
          lazymatch c with
          | context [if _ then _ else _] => fail
          | _ => destruct c eqn:?; fields
          end
      end ].

Ltac arith := open_hyps; repeat arith_step.

Lemma handle_bit_arith (b : string) (d : Decoder) :
  (exists s, samplenum_lastedge d = Some s) ->
  (exists e, samplenum_edge d = Some e) -> fails_arithmetic (handle_bit b d).
Proof. intros Hs He. unfold handle_bit. arith. Qed.

Lemma get_eop_arith (sym : Sym) (d : Decoder) :
  (exists pos, samplepos d = Some pos) -> (exists bw, bitwidth d = Some bw) ->
  (exists e, samplenum_edge d = Some e) -> (exists b, ss_block d = Some b) ->
  sym <> FS_J -> sym <> LS_J -> fails_arithmetic (get_eop sym d).
Proof. intros Hp Hb He Hblk H1 H2. unfold get_eop. arith. Qed.

Ltac arith_bits :=
  open_hyps;
  repeat first
    [ lazymatch goal with
      | |- fails_arithmetic (handle_bit _ _) =>
          apply handle_bit_arith; arith_side
      end
    | arith_step ].

Lemma get_bit_arith (sym : Sym) (d : Decoder) :
  (exists pos, samplepos d = Some pos) -> (exists bw, bitwidth d = Some bw) ->
  (exists e, samplenum_edge d = Some e) -> (exists bs, bits d = Some bs) ->
  (exists r, samplerate d = Some r) ->
  sym <> FS_J -> sym <> LS_J -> fails_arithmetic (get_bit sym d).
Proof.
  intros Hp Hb He Hbs Hr H1 H2. unfold get_bit.
  arith_bits.
Qed.

Lemma handle_idle_arith (sym : Sym) (d : Decoder) :
  (exists le, samplenum_lastedge d = Some le) ->
  (exists r, samplerate d = Some r /\ 0 < r < 2 ^ 63) ->
  (exists m, signalling d = Some m) ->
  fails_arithmetic (handle_idle sym d).
Proof.
  intros (le & Hle) (r & Hr & Hrange) (m & Hm).
  unfold handle_idle, classify_gap, detect_speed. fields.
  rewrite Hle, Hr. fields.
  apply fails_arithmetic_bind; [ | intros d1 H1].
  - apply fails_arithmetic_bind; [apply float_of_int_arith | intros g Hg].
    apply fails_arithmetic_bind; [apply float_of_int_arith | intros fr Hfr].
    apply fails_arithmetic_bind;
      [apply float_div_arith; eapply float_of_int_nonzero; eassumption | ].
    intros gap Hgap. arith.
  - assert (Hr1 : samplerate d1 = Some r).
    { inv H1; split_ifs; subst; fields_all; congruence. }
    arith.
Qed.


Lemma wait_for_sop_arith (sym : Sym) (d : Decoder) :
  (exists m, signalling d = Some m /\ (sym = K -> m <> Automatic)) ->
  (sym = K -> exists bw, bitwidth d = Some bw) ->
  (exists r, samplerate d = Some r) ->
  (forall p, edgepins d = Some p -> In p pin_pairs) ->
  Forall valid_sample (lookahead_buffer d) ->
  fails_arithmetic (wait_for_sop sym d).
Proof.
  intros (m & Hm & Hna) Hbw (r & Hr) Hep Hv. unfold wait_for_sop.
  destruct (negb (Sym_eqb sym K) || negb (Sym_eqb (oldsym d) J)) eqn:E;
    [apply fails_arithmetic_Ok | ].
  apply orb_false_elim in E. destruct E as (E & _).
  assert (sym = K) by (destruct sym; try discriminate; reflexivity).
  subst sym. specialize (Hna eq_refl). destruct (Hbw eq_refl) as (bw & Hb).
  arith.
Qed.

Lemma classify_bus_symbol (m : Mode) (p : Pins) (s : Sym) :
  m <> Automatic -> classify m p = Ok s -> s <> FS_J /\ s <> LS_J.
Proof.
  intros Hm Hc. destruct (classify_cases _ _ _ Hc) as (_ & H & _).
  split; intros ->; apply Hm; apply H; auto.
Qed.

Lemma classify_K_mode (m : Mode) (p : Pins) :
  classify m p = Ok K -> m <> Automatic.
Proof.
  intros Hc ->. destruct (classify_cases _ _ _ Hc) as (H & _).
  destruct (H eq_refl). congruence.
Qed.

Lemma iteration_arith (s : Sample) (buf : list Sample) (d : Decoder) :
  attributes_set d -> valid_sample s -> Forall valid_sample buf ->
  fails_arithmetic (iteration s buf d).
Proof.
  intros (Irate & Imode & Iauto & Ibw & Ile & Iedge & Ipk & Iblk & Iep) Hv Hbuf.
  unfold iteration, step. fields.
  destruct (state d) eqn:Hst; cbn [in_packet_state] in *;
    try specialize (Iedge ltac:(discriminate));
    try specialize (Ipk eq_refl); try specialize (Iblk eq_refl).
  - (* INIT *)
    apply fails_arithmetic_bind; [apply classify_arith; exact Hv | ].
    intros sym Hc.
    apply fails_arithmetic_bind; [ | intros; apply fails_arithmetic_Ok].
    apply handle_idle_arith; fields; assumption.
  - (* IDLE *)
    destruct (option_Pins_eqb (oldpins d) (snd s));
      [apply fails_arithmetic_Ok | ].
    destruct Imode as (m & Hm).
    apply fails_arithmetic_bind;
      [apply get_signalling_arith; fields; eauto | intros sg Hsg].
    apply get_signalling_Ok in Hsg. fields_in Hsg.
    apply fails_arithmetic_bind; [apply classify_arith; exact Hv | ].
    intros sym Hc.
    apply fails_arithmetic_bind; [ | intros; apply fails_arithmetic_Ok].
    destruct (Sym_eqb sym SE0); [apply fails_arithmetic_Ok | ].
    apply wait_for_sop_arith; fields.
    + exists sg. split; [exact Hsg | ]. intros ->.
      eapply classify_K_mode; eassumption.
    + intros ->. apply classify_K_mode in Hc.
      destruct Ibw as [Ia | Ib]; [congruence | exact Ib].
    + destruct Irate as (r & Hr & _). eauto.
    + exact Iep.
    + exact Hbuf.
  - (* WAIT_IDLE *)
    destruct (Pins_eqb (snd s) (0, 0)); [apply fails_arithmetic_Ok | ].
    destruct Ile as (le & Hle). rewrite Hle. fields.
    apply fails_arithmetic_bind; [ | intros; apply fails_arithmetic_Ok].
    destruct (1 <? fst s - le).
    + apply fails_arithmetic_bind; [apply classify_arith; exact Hv | ].
      intros sym Hc. apply handle_idle_arith; fields; eauto.
    + destruct Imode as (m & Hm).
      apply fails_arithmetic_bind;
        [apply get_signalling_arith; fields; eauto | intros sg Hsg].
      apply get_signalling_Ok in Hsg. fields_in Hsg.
      apply fails_arithmetic_bind; [apply classify_arith; exact Hv | ].
      intros sym Hc.
      apply wait_for_sop_arith; fields.
      * exists sg. split; [exact Hsg | ]. intros ->.
        eapply classify_K_mode; eassumption.
      * intros ->. apply classify_K_mode in Hc.
        destruct Ibw as [Ia | Ib]; [congruence | exact Ib].
      * destruct Irate as (r & Hr & _). eauto.
      * exact Iep.
      * exact Hbuf.
  - (* GET_BIT *)
    destruct Ipk as (Hna & Hpos & Ht & Hbs). destruct Ht as (t & Ht).
    destruct Imode as (m & Hm).
    destruct Ibw as [Ia | Ib]; [congruence | ].
    destruct Irate as (r & Hr & _).
    destruct (option_Z_eqb (samplenum_edge d) (fst s)); fields;
      rewrite Ht; fields;
      (destruct (fst s <? t); [apply fails_arithmetic_Ok | ]);
      unfold get_signalling; fields; rewrite Hm; fields;
      (apply fails_arithmetic_bind; [apply classify_arith; exact Hv | ]);
      intros sym Hc; rewrite Hst;
      (apply fails_arithmetic_bind; [ | intros; apply fails_arithmetic_Ok]);
      assert (Hm' : m <> Automatic) by congruence;
      destruct (classify_bus_symbol _ _ _ Hm' Hc);
      apply get_bit_arith; fields; eauto.
  - (* GET_EOP *)
    destruct Ipk as (Hna & Hpos & Ht & Hbs). destruct Ht as (t & Ht).
    destruct Imode as (m & Hm).
    destruct Ibw as [Ia | Ib]; [congruence | ].
    destruct (option_Z_eqb (samplenum_edge d) (fst s)); fields;
      rewrite Ht; fields;
      (destruct (fst s <? t); [apply fails_arithmetic_Ok | ]);
      unfold get_signalling; fields; rewrite Hm; fields;
      (apply fails_arithmetic_bind; [apply classify_arith; exact Hv | ]);
      intros sym Hc; rewrite Hst;
      (apply fails_arithmetic_bind; [ | intros; apply fails_arithmetic_Ok]);
      assert (Hm' : m <> Automatic) by congruence;
      destruct (classify_bus_symbol _ _ _ Hm' Hc);
      apply get_eop_arith; fields; eauto.
Qed.

(** ** The grammar of the output *)

Lemma bracket_app (o : bool) (l1 l2 : list Output) :
  bracket o (l1 ++ l2) =
    match bracket o l1 with
    | Some o' => bracket o' l2
    | None => None
    end.
Proof.
  revert o. induction l1 as [|x l1 IH]; intros o; [reflexivity | ].
  destruct x as [s e p | s e c t]; cbn [app bracket]; [ | apply IH].
  destruct p; destruct o; try reflexivity; apply IH.
Qed.

(** The bit that completes the preamble is a 0, and the history was shorter. *)
Lemma preamble_completed (d : Decoder) (sym : Sym) (bs : string) :
  (if Z.of_nat (String.length bs) <=? 16
   then (bs ++ nrzi_bit d sym)%string else bs) = preamble ->
  nrzi_bit d sym = "0"%string.
Proof.
  destruct (Z.of_nat (String.length bs) <=? 16) eqn:E; intros H.
  - apply preamble_bit in H. apply H.
  - apply Z.leb_gt in E. rewrite H in E. simpl in E. lia.
Qed.

Ltac flatten_log := rewrite <- ?app_assoc; cbn [app].

Lemma iteration_keeps_bracket (s : Sample) (buf : list Sample) (d d' : Decoder) :
  bracket false (log d) = Some (in_packet_state (state d)) ->
  iteration s buf d = Ok d' ->
  bracket false (log d') = Some (in_packet_state (state d')).
Proof.
  intros Hinv H. iteration_leaves H.
  all: try match type of Hst with _ \/ _ => destruct Hst as [Hst|Hst] end.
  all: flatten_log; rewrite ?bracket_app, Hinv, Hst; cbn [in_packet_state bracket].
  all: try reflexivity.
  all: exfalso; apply Hone; eapply preamble_completed; exact Hpre.
Qed.

Lemma documented_app (l1 l2 : list Output) :
  forallb documented (l1 ++ l2) = forallb documented l1 && forallb documented l2.
Proof. apply forallb_app. Qed.

Lemma nrzi_bit_documented (d : Decoder) (sym : Sym) :
  String.eqb (nrzi_bit d sym) "0" || String.eqb (nrzi_bit d sym) "1" = true.
Proof. unfold nrzi_bit. destruct (negb _); reflexivity. Qed.

Lemma sym_annotation_Ok (sym : Sym) (a : Z * list string) :
  sym_annotation sym = Ok a ->
  sym <> FS_J /\ sym <> LS_J /\ annotates (SYM sym) (fst a) = true
  /\ is_nil (snd a) = false.
Proof.
  destruct sym; cbn [sym_annotation]; intros H; try discriminate H;
    injection H as <-; repeat split; discriminate.
Qed.

Lemma iteration_keeps_documented (s : Sample) (buf : list Sample)
    (d d' : Decoder) :
  forallb documented (log d) = true -> iteration s buf d = Ok d' ->
  forallb documented (log d') = true.
Proof.
  intros Hinv H. iteration_leaves H.
  all: flatten_log; rewrite ?documented_app, Hinv; cbn [forallb documented andb].
  all: try reflexivity.
  all: repeat match goal with
         | Ha : sym_annotation ?x = Ok _ |- _ =>
             apply sym_annotation_Ok in Ha; destruct Ha as (? & ? & ? & ?)
         end.
  all: rewrite ?nrzi_bit_documented; cbn [andb].
  all: try (destruct sym; try congruence; reflexivity).
Qed.

Lemma paired_app (l1 l2 : list Output) :
  paired l1 = true -> paired l2 = true -> paired (l1 ++ l2) = true.
Proof.
  remember (List.length l1) as n eqn:Hn. revert l1 Hn.
  induction n as [n IH] using lt_wf_ind. intros l1 Hn H1 H2.
  destruct l1 as [|[s e p | s e c t] rest]; [exact H2 | | discriminate H1].
  destruct rest as [|[s' e' p' | s' e' c t] rest'].
  - (* a packet alone, at the end *)
    cbn [paired] in H1. destruct p; try discriminate H1.
    cbn [app]. destruct l2 as [|[s2 e2 p2 | s2 e2 c2 t2] l2'];
      [exact H1 | | discriminate H2].
    cbn [paired] in *. rewrite andb_true_r in H1. rewrite H1. exact H2.
  - (* a packet alone, followed by another *)
    cbn [paired] in H1. destruct p; try discriminate H1.
    apply andb_prop in H1. destruct H1 as (Hse & H1).
    change ((Py s e EOP :: Py s' e' p' :: rest') ++ l2)
      with (Py s e EOP :: (Py s' e' p' :: rest') ++ l2).
    change (paired (Py s e EOP :: (Py s' e' p' :: rest') ++ l2))
      with ((s =? e) && paired ((Py s' e' p' :: rest') ++ l2)).
    rewrite Hse. cbn [andb].
    apply (IH (List.length (Py s' e' p' :: rest'))); subst n; simpl; auto; lia.
  - (* a packet with its annotation *)
    cbn [paired] in H1. apply andb_prop in H1. destruct H1 as (Hc & H1).
    cbn [app paired]. rewrite Hc. cbn [andb].
    apply (IH (List.length rest')); subst n; simpl; auto; lia.
Qed.

Lemma iteration_keeps_paired (s : Sample) (buf : list Sample) (d d' : Decoder) :
  paired (log d) = true -> iteration s buf d = Ok d' ->
  paired (log d') = true.
Proof.
  intros Hinv H. iteration_leaves H.
  all: flatten_log; try exact Hinv.
  all: apply paired_app; [exact Hinv | ].
  all: repeat match goal with
         | Ha : sym_annotation ?x = Ok _ |- _ =>
             apply sym_annotation_Ok in Ha; destruct Ha as (? & ? & ? & ?)
         end.
  all: inj_all.
  all: cbn [paired]; rewrite ?Z.eqb_refl; cbn [andb negb is_nil].
  all: repeat match goal with
         | Ha : annotates _ _ = true |- _ => rewrite Ha; clear Ha
         | Ha : is_nil _ = false |- _ => rewrite Ha; clear Ha
         end.
  all: reflexivity.
Qed.

Lemma tiles_app (x : option Z) (l1 l2 : list Output) :
  tiles x (l1 ++ l2) =
    match tiles x l1 with
    | Some x' => tiles x' l2
    | None => None
    end.
Proof.
  revert x. induction l1 as [|o l1 IH]; intros x; [reflexivity | ].
  destruct o as [s e p | s e c t]; cbn [app tiles]; [ | apply IH].
  destruct p; try apply IH; destruct (option_Z_eqb x s); try reflexivity;
    apply IH.
Qed.

Lemma iteration_keeps_tiles (s : Sample) (buf : list Sample) (d d' : Decoder) :
  (exists x, tiles None (log d) = Some x
             /\ (in_packet_state (state d) = true -> x = samplenum_edge d)) ->
  iteration s buf d = Ok d' ->
  exists x, tiles None (log d') = Some x
            /\ (in_packet_state (state d') = true -> x = samplenum_edge d').
Proof.
  intros (x & Hx & Hedge) H. iteration_leaves H.
  all: try match type of Hst with _ \/ _ => destruct Hst as [Hst|Hst] end.
  all: rewrite Hst in Hedge; cbn [in_packet_state] in *.
  all: try specialize (Hedge eq_refl); subst.
  all: flatten_log; rewrite ?tiles_app, Hx; cbn [tiles].
  all: inj_all.
  all: repeat match goal with
         | Hs : samplenum_edge ?x = Some _ |- _ =>
             is_var x; rewrite Hs in *; clear Hs
         end.
  all: cbn [option_Z_eqb]; rewrite ?Z.eqb_refl.
  all: eexists; (split; [reflexivity | ]); rewrite ?Hst; cbn [in_packet_state];
    solve [intros; discriminate | auto].
Qed.

(** ** The configured speed and the bit width *)

Lemma mode_of_option_automatic (o : SigOption) :
  mode_of_option o = Automatic -> o = OptAutomatic.
Proof. destruct o; intros H; try discriminate H; reflexivity. Qed.

Lemma iteration_keeps_speed (s : Sample) (buf : list Sample) (d d' : Decoder) :
  configured_speed_kept d -> iteration s buf d = Ok d' ->
  configured_speed_kept d'.
Proof.
  intros Hinv H. iteration_leaves H.
  all: unfold configured_speed_kept in *; fields; intros Hopt.
  all: specialize (Hinv Hopt); destruct Hinv as (Hmode & Hka).
  all: try (exfalso; apply Hopt; apply mode_of_option_automatic;
            destruct (classify_cases _ _ _ Hc) as (_ & Hauto & _);
            apply Hauto; destruct Hm1 as [(Hm1 & _) | (Hm1 & _)]; auto; fail).
  all: flatten_log; rewrite ?count_app.
  all: split;
    [ first [exact Hmode | left; reflexivity | right; reflexivity]
    | intros Hfull; rewrite (Hka Hfull); try reflexivity ].
  all: exfalso; rewrite Hfull in Hmode; cbn [mode_of_option] in Hmode;
    destruct Hmode; congruence.
Qed.

Lemma iteration_keeps_rate (s : Sample) (buf : list Sample) (d d' : Decoder) :
  (in_packet_state (state d) = true -> rate_of_mode d) ->
  iteration s buf d = Ok d' ->
  in_packet_state (state d') = true -> rate_of_mode d'.
Proof.
  intros Hinv H. iteration_leaves H.
  all: try match type of Hst with _ \/ _ => destruct Hst as [Hst|Hst] end.
  all: rewrite ?Hst in *; cbn [in_packet_state] in *.
  all: try (intros Hin; discriminate Hin).
  all: intros _; try specialize (Hinv eq_refl).
  all: unfold rate_of_mode in *; fields.
  all: try exact Hinv.
  all: apply float_div_Ok in Hbw0; destruct Hbw0 as (-> & Hnz).
  all: exists sg0, br0, r0, fr0, fbr0; repeat split; assumption.
Qed.

(** ** What an iteration leaves of the input *)

Lemma iteration_position (s : Sample) (buf : list Sample) (d d' : Decoder) :
  iteration s buf d = Ok d' ->
  samplenum d' = fst s /\ lookahead_buffer d' = buf
  /\ samplerate d' = samplerate d
  /\ options_signalling d' = options_signalling d.
Proof.
  intros H. iteration_leaves H. all: repeat split; reflexivity.
Qed.

(** ** From [metadata] on *)

Lemma metadata_shape (rate : Z) (opt : SigOption) (d : Decoder) :
  metadata rate (init opt) = Ok d ->
  let d0 := set_signalling (Some (mode_of_option opt))
              (set_samplerate (Some rate) (init opt)) in
  opt = OptAutomatic /\ d = d0
  \/ opt <> OptAutomatic
     /\ exists br fr fbr bw,
          bitrates (mode_of_option opt) = Some br
          /\ float_of_int rate = Ok fr /\ float_of_int br = Ok fbr
          /\ float_div fr fbr = Ok bw
          /\ d = set_bitwidth (Some bw) (set_bitrate (Some br) d0).
Proof.
  unfold metadata. fields. change (options_signalling (init opt)) with opt.
  destruct opt; cbn [mode_of_option Mode_eqb]; intros H.
  - left. injection H as <-. auto.
  - right. split; [discriminate | ]. inv H. subst. fields_all. inj_all.
    do 4 eexists. repeat (split; [eassumption | ]). reflexivity.
  - right. split; [discriminate | ]. inv H. subst. fields_all. inj_all.
    do 4 eexists. repeat (split; [eassumption | ]). reflexivity.
Qed.

Ltac from_metadata H :=
  apply metadata_shape in H; cbv zeta in H;
  destruct H as [(-> & ->) | (Hopt & br & fr & fbr & bw & Hbr & Hfr & Hfbr
                               & Hbw & ->)];
  unfold init; fields.

Lemma reachable_history (d : Decoder) : reachable d -> history_bounded d.
Proof.
  induction 1 as [rate opt d H | s buf d d' Hr IH H].
  - from_metadata H; unfold history_bounded; fields;
      (split; [lia | intros bs E; discriminate E]).
  - eapply iteration_keeps_history; eassumption.
Qed.

Lemma reachable_bracket (d : Decoder) :
  reachable d -> bracket false (log d) = Some (in_packet_state (state d)).
Proof.
  induction 1 as [rate opt d H | s buf d d' Hr IH H].
  - from_metadata H; reflexivity.
  - eapply iteration_keeps_bracket; eassumption.
Qed.

Lemma reachable_documented (d : Decoder) :
  reachable d -> forallb documented (log d) = true.
Proof.
  induction 1 as [rate opt d H | s buf d d' Hr IH H].
  - from_metadata H; reflexivity.
  - eapply iteration_keeps_documented; eassumption.
Qed.

Lemma reachable_paired (d : Decoder) : reachable d -> paired (log d) = true.
Proof.
  induction 1 as [rate opt d H | s buf d d' Hr IH H].
  - from_metadata H; reflexivity.
  - eapply iteration_keeps_paired; eassumption.
Qed.

Lemma reachable_tiles (d : Decoder) :
  reachable d ->
  exists x, tiles None (log d) = Some x
            /\ (in_packet_state (state d) = true -> x = samplenum_edge d).
Proof.
  induction 1 as [rate opt d H | s buf d d' Hr IH H].
  - from_metadata H; exists None; (split; [reflexivity | ]);
      intros E; discriminate E.
  - eapply iteration_keeps_tiles; eassumption.
Qed.

Lemma reachable_speed (d : Decoder) : reachable d -> configured_speed_kept d.
Proof.
  induction 1 as [rate opt d H | s buf d d' Hr IH H].
  - from_metadata H; unfold configured_speed_kept; fields; intros Ho;
      (split; [left; reflexivity | reflexivity]).
  - eapply iteration_keeps_speed; eassumption.
Qed.

Lemma reachable_rate (d : Decoder) :
  reachable d -> in_packet_state (state d) = true -> rate_of_mode d.
Proof.
  induction 1 as [rate opt d H | s buf d d' Hr IH H].
  - from_metadata H; intros E; discriminate E.
  - eapply iteration_keeps_rate; eassumption.
Qed.

Lemma metadata_attributes (rate : Z) (opt : SigOption) (d : Decoder) :
  0 < rate < 2 ^ 63 -> metadata rate (init opt) = Ok d -> attributes_set d.
Proof.
  intros Hrate H. from_metadata H; unfold attributes_set; fields;
    cbn [in_packet_state mode_of_option];
    repeat match goal with
           | |- _ /\ _ => split
           | |- _ -> _ => intro
           | |- forall _, _ => intro
           end;
    try solve [eauto | discriminate | congruence].
  all: try (destruct opt; try congruence; discriminate).
Qed.

Lemma metadata_arith (rate : Z) (opt : SigOption) :
  fails_arithmetic (metadata rate (init opt)).
Proof.
  unfold metadata. fields. change (options_signalling (init opt)) with opt.
  destruct (Mode_eqb (mode_of_option opt) Automatic) eqn:E;
    [apply fails_arithmetic_Ok | ].
  apply update_bitrate_arith; fields; [ | eauto].
  eexists. split; [reflexivity | ]. intros Ha. rewrite Ha in E. discriminate E.
Qed.

Lemma drain_attributes (buf : list Sample) (d : Decoder) :
  attributes_set d -> Forall valid_sample buf ->
  fails_arithmetic (drain buf d)
  /\ forall d', drain buf d = Ok d' -> attributes_set d'.
Proof.
  intros Hd Hv. revert d Hd.
  induction Hv as [|s buf Hs Hv IH]; intros d Hd; cbn [drain].
  - split; [apply fails_arithmetic_Ok | ]. intros d' E. injection E as <-.
    exact Hd.
  - pose proof (iteration_arith s buf d Hd Hs Hv) as Ha.
    destruct (iteration s buf d) as [d1|e] eqn:E; cbn [bind].
    + apply IH. eapply iteration_keeps_attributes; eassumption.
    + split; [exact Ha | intros d' E'; discriminate E'].
Qed.

Lemma feed_attributes (data buf : list Sample) (d : Decoder) :
  attributes_set d -> Forall valid_sample data -> Forall valid_sample buf ->
  fails_arithmetic (feed data buf d)
  /\ forall d', feed data buf d = Ok d' -> attributes_set d'.
Proof.
  intros Hd Hv. revert buf d Hd.
  induction Hv as [|x data Hx Hv IH]; intros buf d Hd Hb; cbn [feed].
  - apply drain_attributes; assumption.
  - assert (Hb' : Forall valid_sample (buf ++ [x]))
      by (apply Forall_app; split; [exact Hb | constructor; [exact Hx | constructor]]).
    destruct (buf ++ [x]) as [|s buf'].
    + split; [apply fails_arithmetic_Ok | ]. intros d' E. injection E as <-.
      exact Hd.
    + inversion Hb' as [|? ? Hs Hbuf']; subst.
      pose proof (iteration_arith s buf' d Hd Hs Hbuf') as Ha.
      destruct (iteration s buf' d) as [d1|e] eqn:E; cbn [bind].
      * apply IH; [ | exact Hbuf'].
        eapply iteration_keeps_attributes; eassumption.
      * split; [exact Ha | intros d' E'; discriminate E'].
Qed.

Lemma repeat_valid (s : Sample) (n : nat) :
  valid_sample s -> Forall valid_sample (repeat s n).
Proof. intros H. induction n; simpl; constructor; assumption. Qed.

Lemma decode_attributes (data : list Sample) (d : Decoder) :
  attributes_set d -> Forall valid_sample data ->
  (forall d', decode data d = Ok d' -> attributes_set d')
  /\ (forall e, decode data d = Raise e ->
        e = StopIteration /\ data = [] \/ arithmetic e).
Proof.
  intros Hd Hv. unfold decode.
  destruct Hd as ((r & Hr & Hrange) & Hd'). rewrite Hr.
  assert (Hd : attributes_set d) by (split; [eauto | exact Hd']).
  destruct r as [|r|r]; try lia.
  destruct data as [|first rest].
  - split; [intros d' E; discriminate E | ].
    intros e E. injection E as <-. left. auto.
  - inversion Hv as [|? ? Hf Hrest]; subst.
    destruct (feed_attributes rest (repeat first 192) d Hd Hrest
                (repeat_valid first 192 Hf)) as (Ha & Hk).
    split; [exact Hk | ]. intros e E. right. apply Ha. exact E.
Qed.

(** ** The loop of [decode] as a sliding window *)

Lemma bind_ext {A B : Type} (c : Res A) (k1 k2 : A -> Res B) :
  (forall a, k1 a = k2 a) -> bind c k1 = bind c k2.
Proof. intros H. destruct c; cbn [bind]; auto. Qed.

Lemma drain_windowed (buf : list Sample) (d : Decoder) :
  (List.length buf <= 192)%nat -> drain buf d = windowed buf d.
Proof.
  revert d. induction buf as [|s buf IH]; intros d Hlen; [reflexivity | ].
  cbn [drain windowed]. cbn [List.length] in Hlen.
  rewrite firstn_all2 by lia.
  apply bind_ext. intros d1. apply IH. lia.
Qed.

Lemma feed_windowed (data buf : list Sample) (d : Decoder) :
  List.length buf = 192%nat -> feed data buf d = windowed (buf ++ data) d.
Proof.
  revert buf d. induction data as [|x data IH]; intros buf d Hlen.
  - rewrite app_nil_r. cbn [feed]. apply drain_windowed. lia.
  - cbn [feed].
    replace (buf ++ x :: data) with ((buf ++ [x]) ++ data)
      by (rewrite <- app_assoc; reflexivity).
    destruct buf as [|s buf]; [discriminate Hlen | ].
    cbn [app windowed]. cbn [List.length] in Hlen.
    assert (Hl : List.length (buf ++ [x]) = 192%nat)
      by (rewrite length_app; simpl; lia).
    rewrite firstn_app, Hl, Nat.sub_diag, firstn_O, app_nil_r.
    rewrite firstn_all2 by lia.
    apply bind_ext. intros d1. apply IH. exact Hl.
Qed.

(** ** What [decode] leaves of its input; the example runs *)

Lemma last_cons (l : list Sample) (a b : Sample) :
  last (a :: l) b = last l a.
Proof.
  revert a b. induction l as [|x l IH]; intros a b; [reflexivity | ].
  change (last (a :: x :: l) b) with (last (x :: l) b).
  rewrite (IH x b), (IH x a). reflexivity.
Qed.

Lemma windowed_consumes (l : list Sample) (s0 : Sample) (d d' : Decoder) :
  windowed (s0 :: l) d = Ok d' ->
  samplenum d' = fst (last l s0) /\ lookahead_buffer d' = [].
Proof.
  revert s0 d. induction l as [|s1 l IH]; intros s0 d H; cbn [windowed] in H.
  - apply bind_Ok in H. destruct H as (d1 & H1 & H). injection H as <-.
    apply iteration_position in H1. cbn [firstn] in H1.
    destruct H1 as (Hn & Hb & _). auto.
  - apply bind_Ok in H. destruct H as (d1 & _ & H).
    destruct (IH s1 d1 H) as (Hn & Hb). split; [ | exact Hb].
    rewrite Hn, (last_cons l s1 s0). reflexivity.
Qed.

Lemma decode_windowed (d : Decoder) (first : Sample) (rest : list Sample)
    (r : Z) :
  samplerate d = Some r -> r <> 0 ->
  decode (first :: rest) d = windowed (repeat first 192 ++ rest) d.
Proof.
  intros Hr Hnz. unfold decode. rewrite Hr.
  destruct r as [|r|r]; [congruence | | ];
    apply feed_windowed; apply repeat_length.
Qed.

Lemma last_repeat_app (first : Sample) (rest : list Sample) (n : nat) :
  last (repeat first n ++ rest) first = last rest first.
Proof.
  induction n as [|n IH]; [reflexivity | ].
  cbn [repeat app]. destruct (repeat first n ++ rest) eqn:E; [ | exact IH].
  destruct n; simpl in E; [subst; reflexivity | discriminate E].
Qed.

Lemma samples_valid (l : list Sample) :
  forallb (fun s => existsb (Pins_eqb (snd s)) pin_pairs) l = true ->
  Forall valid_sample l.
Proof.
  intros H. apply Forall_forall. intros s Hs.
  rewrite forallb_forall in H. specialize (H s Hs).
  apply existsb_exists in H. destruct H as (p & Hp & E).
  unfold Pins_eqb in E. apply andb_prop in E. destruct E as (E1 & E2).
  apply Z.eqb_eq in E1, E2. unfold valid_sample.
  destruct p as [a b], (snd s) as [a' b']. simpl in E1, E2. subst. exact Hp.
Qed.

Lemma annotates_declared (p : Packet) (cls : Z) :
  annotates p cls = true ->
  0 <= cls < Z.of_nat (List.length annotations)
  /\ rows_of cls = [if is_sym p then "symbols" else "bits"]%string.
Proof.
  unfold annotates. intros H.
  destruct (packet_annotation p) as [id|] eqn:Ep; [ | discriminate H].
  destruct (nth_error annotations (Z.to_nat cls)) as [[id' ds]|] eqn:En;
    [ | discriminate H].
  apply andb_prop in H. destruct H as (H0 & Hid).
  apply Z.leb_le in H0. apply String.eqb_eq in Hid. subst id'.
  assert (Hlt : (Z.to_nat cls < List.length annotations)%nat)
    by (apply nth_error_Some; congruence).
  cbn [annotations List.length] in *.
  split; [lia | ].
  assert (Hc : cls = 0 \/ cls = 1 \/ cls = 2 \/ cls = 3 \/ cls = 4 \/ cls = 5
               \/ cls = 6 \/ cls = 7 \/ cls = 8 \/ cls = 9 \/ cls = 10) by lia.
  destruct Hc as [-> | [-> | [-> | [-> | [-> | [-> | [-> | [-> | [-> | [-> | ->]]]]]]]]]];
    cbn in En; injection En as <- <-;
    destruct p as [ | [ | | | | | ] | | | | | | ]; cbn in Ep; try discriminate Ep;
    reflexivity.
Qed.

Lemma fresh_fs48_Ok :
  metadata 48000000 (init OptFullSpeed) = Ok fresh_fs48.
Proof. vm_compute. reflexivity. Qed.

Lemma after_packet_Ok : decode stream_fs48 fresh_fs48 = Ok after_packet_fs48.
Proof. vm_compute. reflexivity. Qed.

Lemma after_packet_reachable : reachable after_packet_fs48.
Proof.
  apply (run_decode_reachable 48000000 OptFullSpeed stream_fs48).
  vm_compute. reflexivity.
Qed.

Lemma six_ones_reachable : reachable six_ones_fs48.
Proof.
  apply (run_decode_reachable 48000000 OptFullSpeed stream_six_ones).
  vm_compute. reflexivity.
Qed.

Lemma stream_fs48_valid : Forall valid_sample stream_fs48.
Proof. apply samples_valid. vm_compute. reflexivity. Qed.

(** ** Invariants of the decoder (X1-X11) *)

(** X1. Nothing the decoder reads is missing. [metadata] on a fresh decoder
    can only fail in the float arithmetic; with a sampling rate between 1 and
    2^63 - 1 it leaves every attribute set that the first iteration reads;
    and from such a decoder, over samples whose pins are logic levels,
    [decode] keeps them set and can only raise StopIteration, on an empty
    input, or OverflowError or ValueError from the float arithmetic: never
    KeyError, TypeError, AttributeError, ZeroDivisionError or
    SamplerateError. *)
Theorem decode_raises_only_arithmetic :
  (forall rate opt, fails_arithmetic (metadata rate (init opt)))
  /\ (forall rate opt d,
        0 < rate < 2 ^ 63 -> metadata rate (init opt) = Ok d ->
        attributes_set d)
  /\ (forall d data,
        attributes_set d -> Forall valid_sample data ->
        (forall d', decode data d = Ok d' -> attributes_set d')
        /\ (forall e, decode data d = Raise e ->
              e = StopIteration /\ data = [] \/ arithmetic e)).
Proof.
  split; [exact metadata_arith | ].
  split; [exact metadata_attributes | ].
  intros d data Hd Hv. apply decode_attributes; assumption.
Qed.

Lemma decode_raises_only_arithmetic_witness :
  0 < 48000000 < 2 ^ 63
  /\ metadata 48000000 (init OptFullSpeed) = Ok fresh_fs48
  /\ Forall valid_sample stream_fs48
  /\ decode stream_fs48 fresh_fs48 = Ok after_packet_fs48
  /\ attributes_set fresh_fs48
  /\ attributes_set after_packet_fs48.
Proof.
  assert (Hr : 0 < 48000000 < 2 ^ 63) by (split; reflexivity).
  destruct decode_raises_only_arithmetic as (_ & Hm & Hd).
  pose proof (Hm _ _ _ Hr fresh_fs48_Ok) as Hf.
  split; [exact Hr | ]. split; [exact fresh_fs48_Ok | ].
  split; [exact stream_fs48_valid | ]. split; [exact after_packet_Ok | ].
  split; [exact Hf | ].
  exact (proj1 (Hd _ _ Hf stream_fs48_valid) _ after_packet_Ok).
Defined.

(** X2. The counter of consecutive ones never leaves 0..6: [handle_bit]
    resets it or stops the packet when it is 6, and a start of packet resets
    it. *)
Theorem consecutive_ones_bounded (d : Decoder) (Hd : reachable d) :
  0 <= consecutive_ones d <= 6.
Proof. exact (proj1 (reachable_history d Hd)). Qed.

Lemma consecutive_ones_bounded_witness :
  reachable six_ones_fs48
  /\ consecutive_ones six_ones_fs48 = 6
  /\ 0 <= consecutive_ones six_ones_fs48 <= 6.
Proof.
  split; [exact six_ones_reachable | ].
  split; [vm_compute; reflexivity | ].
  exact (consecutive_ones_bounded six_ones_fs48 six_ones_reachable).
Defined.

(** X3. The bit history [bits] holds at most 17 characters, each 0 or 1:
    [get_bit] appends the raw bit only while the history has at most 16. *)
Theorem bit_history_bounded (d : Decoder) (bs : string)
    (Hd : reachable d) (Hbs : bits d = Some bs) :
  (String.length bs <= 17)%nat /\ binary_string bs = true.
Proof. exact (proj2 (reachable_history d Hd) bs Hbs). Qed.

Lemma bit_history_bounded_witness :
  reachable before_pre_fs48
  /\ bits before_pre_fs48 = Some "000000010011110"%string
  /\ (String.length "000000010011110" <= 17)%nat
  /\ binary_string "000000010011110" = true.
Proof.
  assert (Hb : bits before_pre_fs48 = Some "000000010011110"%string)
    by (vm_compute; reflexivity).
  split; [exact before_pre_reachable | ]. split; [exact Hb | ].
  exact (bit_history_bounded before_pre_fs48 _ before_pre_reachable Hb).
Defined.

(** X4. The python output is well bracketed, and the state tells whether a
    packet is open: read from the start, an SOP comes only with no packet
    open; a BIT, a STUFF BIT, an EOP and an ERR only inside an open packet,
    which the last two close; a RESET and a KEEP ALIVE only with none open;
    and the decoder is in GET BIT or GET EOP exactly when a packet is open at
    the end of the output. *)
Theorem output_well_bracketed (d : Decoder) (Hd : reachable d) :
  bracket false (log d) = Some (in_packet_state (state d)).
Proof. exact (reachable_bracket d Hd). Qed.

Lemma output_well_bracketed_witness :
  reachable after_packet_fs48
  /\ count SOP (log after_packet_fs48) = 1%nat
  /\ count EOP (log after_packet_fs48) = 1%nat
  /\ bracket false (log after_packet_fs48)
     = Some (in_packet_state (state after_packet_fs48)).
Proof.
  split; [exact after_packet_reachable | ].
  split; [vm_compute; reflexivity | ].
  split; [vm_compute; reflexivity | ].
  exact (output_well_bracketed after_packet_fs48 after_packet_reachable).
Defined.

(** X5. Every annotation the decoder puts follows at once the packet it
    goes with, over the same sample range, has a list of texts that is not
    empty, and carries the class that [annotations] declares for that packet
    (sym-j for a SYM J, ... reset for a RESET); the only packets put without
    an annotation are EOP packets of empty range (those of a preamble). Such
    a class is an index of [annotations] and is shown by exactly one row of
    [annotation_rows]: the symbols row for a SYM, the bits row otherwise. *)
Theorem annotations_follow_packets :
  (forall d, reachable d -> paired (log d) = true)
  /\ (forall p cls,
        annotates p cls = true ->
        0 <= cls < Z.of_nat (List.length annotations)
        /\ rows_of cls = [if is_sym p then "symbols" else "bits"]%string).
Proof. split; [exact reachable_paired | exact annotates_declared]. Qed.

Lemma annotations_follow_packets_witness :
  reachable after_packet_fs48
  /\ List.length (log after_packet_fs48) = 26%nat
  /\ paired (log after_packet_fs48) = true
  /\ annotates (SYM SE0) 2 = true
  /\ rows_of 2 = ["symbols"%string].
Proof.
  destruct annotations_follow_packets as (Hp & Ha).
  assert (H2 : annotates (SYM SE0) 2 = true) by reflexivity.
  split; [exact after_packet_reachable | ].
  split; [vm_compute; reflexivity | ].
  split; [exact (Hp after_packet_fs48 after_packet_reachable) | ].
  split; [exact H2 | exact (proj2 (Ha _ _ H2))].
Defined.

(** X6. The packets follow the format the module documents: a SYM carries
    J, K, SE0 or SE1 (never FS_J or LS_J), a BIT the character 0 or 1. *)
Theorem output_documented (d : Decoder) (Hd : reachable d) :
  forallb documented (log d) = true.
Proof. exact (reachable_documented d Hd). Qed.

Lemma output_documented_witness :
  reachable after_packet_fs48
  /\ count_bits (log after_packet_fs48) = 4%nat
  /\ forallb documented (log after_packet_fs48) = true.
Proof.
  split; [exact after_packet_reachable | ].
  split; [vm_compute; reflexivity | ].
  exact (output_documented after_packet_fs48 after_packet_reachable).
Defined.

(** X7. A decoder configured for full speed or low speed never detects
    another speed: its mode is the configured one or, after a preamble,
    low-speed-rp; and configured for full speed it never puts a KEEP ALIVE. *)
Theorem configured_speed_honoured (d : Decoder) (Hd : reachable d)
    (Hopt : options_signalling d <> OptAutomatic) :
  (signalling d = Some (mode_of_option (options_signalling d))
   \/ signalling d = Some LowSpeedRP)
  /\ (options_signalling d = OptFullSpeed ->
      count KEEP_ALIVE (log d) = 0%nat).
Proof. exact (reachable_speed d Hd Hopt). Qed.

Lemma configured_speed_honoured_witness :
  reachable after_packet_fs48
  /\ options_signalling after_packet_fs48 = OptFullSpeed
  /\ (signalling after_packet_fs48
      = Some (mode_of_option (options_signalling after_packet_fs48))
      \/ signalling after_packet_fs48 = Some LowSpeedRP)
  /\ count KEEP_ALIVE (log after_packet_fs48) = 0%nat.
Proof.
  assert (Ho : options_signalling after_packet_fs48 = OptFullSpeed)
    by (vm_compute; reflexivity).
  assert (Hn : options_signalling after_packet_fs48 <> OptAutomatic)
    by (rewrite Ho; discriminate).
  pose proof (configured_speed_honoured after_packet_fs48
                after_packet_reachable Hn) as (H1 & H2).
  split; [exact after_packet_reachable | ]. split; [exact Ho | ].
  split; [exact H1 | exact (H2 Ho)].
Defined.

(** X8. Inside a packet the bit rate and the bit width are those of the
    current mode: [bitrate] is [bitrates[signalling]] and [bitwidth] the
    binary64 quotient [float(samplerate) / float(bitrate)], whatever mode
    changes came before the start of the packet. *)
Theorem bit_width_in_packet (d : Decoder) (Hd : reachable d)
    (Hin : in_packet_state (state d) = true) :
  exists m br r fr fbr,
    signalling d = Some m /\ bitrates m = Some br /\ bitrate d = Some br
    /\ samplerate d = Some r /\ float_of_int r = Ok fr
    /\ float_of_int br = Ok fbr
    /\ PrimFloat.eqb fbr 0 = false
    /\ bitwidth d = Some (fr / fbr)%float.
Proof. exact (reachable_rate d Hd Hin). Qed.

Lemma bit_width_in_packet_witness :
  reachable before_pre_fs48
  /\ in_packet_state (state before_pre_fs48) = true
  /\ bitwidth before_pre_fs48 = Some 4%float
  /\ exists m br r fr fbr,
       signalling before_pre_fs48 = Some m /\ bitrates m = Some br
       /\ bitrate before_pre_fs48 = Some br
       /\ samplerate before_pre_fs48 = Some r /\ float_of_int r = Ok fr
       /\ float_of_int br = Ok fbr
       /\ PrimFloat.eqb fbr 0 = false
       /\ bitwidth before_pre_fs48 = Some (fr / fbr)%float.
Proof.
  assert (Hin : in_packet_state (state before_pre_fs48) = true)
    by (vm_compute; reflexivity).
  split; [exact before_pre_reachable | ]. split; [exact Hin | ].
  split; [vm_compute; reflexivity | ].
  exact (bit_width_in_packet before_pre_fs48 before_pre_reachable Hin).
Defined.

(** X9. The ranges of the symbols of a packet tile the samples: the first
    SYM after an SOP starts at the sample of the SOP, every later SYM starts
    where the SYM before it ended, and a BIT or STUFF BIT starts where the
    SYM of its bit starts. *)
Theorem symbol_ranges_tile (d : Decoder) (Hd : reachable d) :
  exists x, tiles None (log d) = Some x
            /\ (in_packet_state (state d) = true -> x = samplenum_edge d).
Proof. exact (reachable_tiles d Hd). Qed.

Lemma symbol_ranges_tile_witness :
  reachable after_packet_fs48
  /\ filter (fun o => match o with Py _ _ (SYM _) => true | _ => false end)
       (log after_packet_fs48)
     = [Py 20 24 (SYM K); Py 24 28 (SYM J); Py 28 32 (SYM K);
        Py 32 36 (SYM J); Py 36 40 (SYM SE0); Py 40 44 (SYM SE0);
        Py 44 48 (SYM J)]
  /\ exists x, tiles None (log after_packet_fs48) = Some x
               /\ (in_packet_state (state after_packet_fs48) = true ->
                   x = samplenum_edge after_packet_fs48).
Proof.
  split; [exact after_packet_reachable | ].
  split; [vm_compute; reflexivity | ].
  exact (symbol_ranges_tile after_packet_fs48 after_packet_reachable).
Defined.

(** X10. [decode] runs the body of its loop once for each element of 192
    copies of the first sample followed by the other samples, each time with
    the (at most 192) elements that follow as lookahead buffer: the first
    sample is processed 192 times. *)
Theorem decode_is_windowed (d : Decoder) (first : Sample)
    (rest : list Sample) (r : Z)
    (Hr : samplerate d = Some r) (Hnz : r <> 0) :
  decode (first :: rest) d = windowed (repeat first 192 ++ rest) d.
Proof. exact (decode_windowed d first rest r Hr Hnz). Qed.

Lemma decode_is_windowed_witness :
  samplerate fresh_fs48 = Some 48000000
  /\ 48000000 <> 0
  /\ decode ((0, (1, 0)) :: [(1, (0, 1))]) fresh_fs48
     = windowed (repeat (0, (1, 0)) 192 ++ [(1, (0, 1))]) fresh_fs48.
Proof.
  assert (Hr : samplerate fresh_fs48 = Some 48000000)
    by (vm_compute; reflexivity).
  assert (Hnz : 48000000 <> 0) by discriminate.
  split; [exact Hr | ]. split; [exact Hnz | ].
  exact (decode_is_windowed fresh_fs48 (0, (1, 0)) [(1, (0, 1))] _ Hr Hnz).
Defined.

(** X11. When [decode] returns it has consumed its input: the input was not
    empty, the lookahead buffer is empty and the current sample number is
    that of the last sample. *)
Theorem decode_consumes_input (d d' : Decoder) (data : list Sample)
    (H : decode data d = Ok d') :
  exists first rest,
    data = first :: rest
    /\ samplenum d' = fst (last rest first)
    /\ lookahead_buffer d' = [].
Proof.
  assert (Hr : exists r, samplerate d = Some r /\ r <> 0).
  { unfold decode in H. destruct (samplerate d) as [[|r|r]|];
      try discriminate H; eexists; (split; [reflexivity | lia]). }
  destruct Hr as (r & Hr & Hnz).
  destruct data as [|first rest].
  - unfold decode in H. rewrite Hr in H.
    destruct r; try congruence; discriminate H.
  - exists first, rest. split; [reflexivity | ].
    rewrite (decode_windowed d first rest r Hr Hnz) in H.
    change (repeat first 192) with (first :: repeat first 191) in H.
    apply windowed_consumes in H. destruct H as (Hn & Hb).
    split; [ | exact Hb]. rewrite Hn.
    exact (f_equal fst (last_repeat_app first rest 191)).
Qed.

Lemma decode_consumes_input_witness :
  decode stream_fs48 fresh_fs48 = Ok after_packet_fs48
  /\ List.length stream_fs48 = 84%nat
  /\ samplenum after_packet_fs48 = 83
  /\ lookahead_buffer after_packet_fs48 = [].
Proof.
  split; [exact after_packet_Ok | ]. split; [vm_compute; reflexivity | ].
  destruct (decode_consumes_input _ _ _ after_packet_Ok)
    as (first & rest & _ & _ & Hb).
  split; [vm_compute; reflexivity | exact Hb].
Defined.
